(** * CampusLink mentorship pipeline: skill matching, mentor ranking,
      request lifecycle, chat channel and chat reports.

    A shallow embedding of [src/services/database.js] (the functions
    [normalizeSkill], [skillsMatch], [calculateLocalMatchScore],
    [searchMentors], [sendMentorRequest], [respondToMentorRequest],
    [sendMessage], [getMessages]) and of the capture of a chat report, which
    is not among the sources and follows the design document, together with
    the properties the design document states about them.

    Conventions of the embedding.
    - A JavaScript string is a [string]: a sequence of code units, here the
      Latin-1 range U+0000..U+00FF, on which [toLowerCase] maps one code unit
      to one code unit.
    - A JavaScript exception is a value of [Exn]; code that can throw returns
      a [Result].  A rejected promise is a thrown exception ([await]).
    - Firestore is an explicit state [Db]; the values the backend chooses
      (auto-generated document ids, server timestamps) are arguments of the
      operation that receives them.
    - The content-moderation service is an argument [moderateContent].
    - A JavaScript number is a binary64 value: the percentage of a score is
      computed with the roundings of its division and multiplication. *)

From Stdlib Require Import Bool List ZArith Lia String Ascii.
From Stdlib Require Import Sorting.Sorted Sorting.Permutation.
From Stdlib Require Floats.SpecFloat.
Import ListNotations.

Local Open Scope string_scope.
Local Open Scope list_scope.
Local Open Scope Z_scope.

(* ===================================================================== *)
(** ** Exceptions and results *)
(* ===================================================================== *)

(** [new Error(message)], a [TypeError] raised by the runtime, and the
    errors the Firestore SDK rejects with (identified by their code). *)
Inductive Exn : Type :=
| Error (message : string)
| TypeError (message : string)
| FirebaseError (code : string).

Inductive Result (A : Type) : Type :=
| Ok (a : A)
| Throw (e : Exn).

Arguments Ok {A} a.
Arguments Throw {A} e.

Definition bindR {A B : Type} (r : Result A) (k : A -> Result B) : Result B :=
  match r with
  | Ok a => k a
  | Throw e => Throw e
  end.

(** [try { body } catch (e) { handler(e) }]. *)
Definition tryCatch {A : Type} (body : Result A) (handler : Exn -> Result A)
  : Result A :=
  match body with
  | Ok a => Ok a
  | Throw e => handler e
  end.

Declare Scope result_scope.
Delimit Scope result_scope with result.
Notation "x <- c1 ;; c2" := (bindR c1 (fun x => c2))
  (at level 61, c1 at next level, right associativity) : result_scope.
Local Open Scope result_scope.

(* ===================================================================== *)
(** ** JavaScript strings *)
(* ===================================================================== *)

Module JsString.

Definition code (c : ascii) : N := N_of_ascii c.

(** WhiteSpace and LineTerminator code units: what [trim] removes and what
    [\s] matches (TAB, LF, VT, FF, CR, SP, NBSP in this range). *)
Definition isWhiteSpace (c : ascii) : bool :=
  let n := code c in
  ((9 <=? n) && (n <=? 13) || (n =? 32) || (n =? 160))%N.

(** The character class [a-z0-9]. *)
Definition isLowerAlnum (c : ascii) : bool :=
  let n := code c in
  ((97 <=? n) && (n <=? 122) || (48 <=? n) && (n <=? 57))%N.

(** [toLowerCase] on one code unit: A-Z, and the Latin-1 capitals
    U+00C0..U+00DE except the multiplication sign U+00D7. *)
Definition toLowerCaseChar (c : ascii) : ascii :=
  let n := code c in
  if ((65 <=? n) && (n <=? 90))%N then ascii_of_N (n + 32)
  else if ((192 <=? n) && (n <=? 222) && negb (n =? 215))%N
       then ascii_of_N (n + 32)
       else c.

Fixpoint toLowerCase (s : string) : string :=
  match s with
  | EmptyString => EmptyString
  | String c s' => String (toLowerCaseChar c) (toLowerCase s')
  end.

Fixpoint trimStart (s : string) : string :=
  match s with
  | EmptyString => EmptyString
  | String c s' => if isWhiteSpace c then trimStart s' else s
  end.

Fixpoint trimEnd (s : string) : string :=
  match s with
  | EmptyString => EmptyString
  | String c s' =>
      match trimEnd s' with
      | EmptyString => if isWhiteSpace c then EmptyString
                       else String c EmptyString
      | r => String c r
      end
  end.

Definition trim (s : string) : string := trimEnd (trimStart s).

(** [s.replace(/[^...]/g, '')] for a character class given by [keep]. *)
Fixpoint removeUnless (keep : ascii -> bool) (s : string) : string :=
  match s with
  | EmptyString => EmptyString
  | String c s' =>
      if keep c then String c (removeUnless keep s')
      else removeUnless keep s'
  end.

(** [s.includes(t)]: [t] occurs in [s] as a contiguous substring. *)
Fixpoint includes (s t : string) : bool :=
  prefix t s ||
  match s with
  | EmptyString => false
  | String _ s' => includes s' t
  end.

(** [s.split(re)] for a regular expression matching every maximal run of
    separator code units ([/\s+/]).  [splitRuns] returns the token that
    starts at the current position and the tokens after it; [inRun] tells
    that the previous code unit was a separator. *)
Fixpoint splitRuns (sep : ascii -> bool) (s : string) (inRun : bool)
  : string * list string :=
  match s with
  | EmptyString => (EmptyString, [])
  | String c s' =>
      let '(tok, rest) := splitRuns sep s' (sep c) in
      if sep c then
        if inRun then (tok, rest) else (EmptyString, tok :: rest)
      else (String c tok, rest)
  end.

Definition splitOnRuns (sep : ascii -> bool) (s : string) : list string :=
  let '(tok, rest) := splitRuns sep s false in tok :: rest.

(** [s.split(re)] for a regular expression matching exactly one separator
    code unit ([/[,;]/]). *)
Fixpoint splitEach (sep : ascii -> bool) (s : string)
  : string * list string :=
  match s with
  | EmptyString => (EmptyString, [])
  | String c s' =>
      let '(tok, rest) := splitEach sep s' in
      if sep c then (EmptyString, tok :: rest) else (String c tok, rest)
  end.

Definition splitOnEach (sep : ascii -> bool) (s : string) : list string :=
  let '(tok, rest) := splitEach sep s in tok :: rest.

End JsString.

(* ===================================================================== *)
(** ** SkillMatcher *)
(* ===================================================================== *)

(** The class [[a-z0-9\s]]: what [normalizeSkill] keeps. *)
Definition skillChar (c : ascii) : bool :=
  JsString.isLowerAlnum c || JsString.isWhiteSpace c.

(** [skill.toLowerCase().trim().replace(/[^a-z0-9\s]/g, '')] *)
Definition normalizeSkill (skill : string) : string :=
  JsString.removeUnless skillChar
    (JsString.trim (JsString.toLowerCase skill)).

(** The body of [skillsMatch] after both arguments are normalized. *)
Definition normalizedMatch (norm1 norm2 : string) : bool :=
  if (norm1 =? norm2)%string then true
  else if JsString.includes norm1 norm2 || JsString.includes norm2 norm1
       then true
       else
         let words1 := JsString.splitOnRuns JsString.isWhiteSpace norm1 in
         let words2 := JsString.splitOnRuns JsString.isWhiteSpace norm2 in
         existsb (fun w1 =>
           existsb (fun w2 =>
             (w1 =? w2)%string
             || JsString.includes w1 w2
             || JsString.includes w2 w1) words2) words1.

Definition skillsMatch (skill1 skill2 : string) : bool :=
  normalizedMatch (normalizeSkill skill1) (normalizeSkill skill2).

(* ===================================================================== *)
(** ** Skill values as the documents hold them *)
(* ===================================================================== *)

(** Profile documents are schema-less: an entry of a skills array is any
    JSON value.  Strings are what the screens write; a number and [null]
    stand for the values that have no [toLowerCase] method. *)
Inductive JsValue : Type :=
| JsStr (s : string)
| JsNum (n : Z)
| JsNull.

(** SameValueZero, the equality of [Set]. *)
Definition sameValueZero (a b : JsValue) : bool :=
  match a, b with
  | JsStr s, JsStr t => (s =? t)%string
  | JsNum n, JsNum m => (n =? m)%Z
  | JsNull, JsNull => true
  | _, _ => false
  end.

(** [normalizeSkill(skill)] on an arbitrary value: the method call
    [skill.toLowerCase()] raises a [TypeError] unless [skill] is a string. *)
Definition normalizeSkillJs (skill : JsValue) : Result string :=
  match skill with
  | JsStr s => Ok (normalizeSkill s)
  | JsNum _ => Throw (TypeError "skill.toLowerCase is not a function")
  | JsNull =>
      Throw (TypeError "Cannot read properties of null (reading 'toLowerCase')")
  end.

(** [skillsMatch(skill1, skill2)] on arbitrary values: both arguments are
    normalized, in this order, before anything is compared. *)
Definition skillsMatchJs (skill1 skill2 : JsValue) : Result bool :=
  norm1 <- normalizeSkillJs skill1 ;;
  norm2 <- normalizeSkillJs skill2 ;;
  Ok (normalizedMatch norm1 norm2).

Record MatchResult : Type := mkMatchResult {
  score : Z;
  matchedSkills : list JsValue
}.

(** The inner [for (const hasSkill of mentorHas)] loop with its [break]: the
    first entry of [mentorHas] that matches [wantedSkill], if any. *)
Fixpoint firstMatch (wantedSkill : JsValue) (mentorHas : list JsValue)
  : Result (option JsValue) :=
  match mentorHas with
  | [] => Ok None
  | hasSkill :: rest =>
      matched <- skillsMatchJs wantedSkill hasSkill ;;
      if (matched : bool) then Ok (Some hasSkill)
      else firstMatch wantedSkill rest
  end.

(** The outer [for (const wantedSkill of learnerWants)] loop; it carries the
    two mutable locals [matchedSkills] and [matchCount]. *)
Fixpoint scanWanted (learnerWants mentorHas : list JsValue)
  (matchedSkills : list JsValue) (matchCount : Z)
  : Result (list JsValue * Z) :=
  match learnerWants with
  | [] => Ok (matchedSkills, matchCount)
  | wantedSkill :: rest =>
      found <- firstMatch wantedSkill mentorHas ;;
      match found with
      | Some hasSkill =>
          scanWanted rest mentorHas (matchedSkills ++ [hasSkill])
                     (matchCount + 1)
      | None => scanWanted rest mentorHas matchedSkills matchCount
      end
  end.

(** [[...new Set(values)]]: the distinct values, each at the position of its
    first occurrence. *)
Definition setAdd (seen : list JsValue) (v : JsValue) : list JsValue :=
  if existsb (sameValueZero v) seen then seen else seen ++ [v].

Definition arrayFromSet (values : list JsValue) : list JsValue :=
  fold_left setAdd values [].

(** *** Binary64 arithmetic of the score

    A JavaScript number is an IEEE 754 binary64 value, and [/] and [*]
    round their exact result to the nearest such value, ties to the even
    mantissa.  The numbers of the score are non-negative: a finite one is
    [mantissa * 2^exponent].  The operands of the division are a count and
    an array length, integers below 2^32 and therefore exact; the quotient
    lies between 2^-32 and 1 and the product between 0 and 100, so neither
    overflow nor subnormal numbers arise and the exponent is left
    unbounded. *)
Record Binary64 : Type := mkBinary64 {
  mantissa : Z;
  exponent : Z
}.

(** [2^k] for [0 <= k], and 1 below: the fraction [a / b / 2^e] is
    [(a * pow2 (- e)) / (b * pow2 e)]. *)
Definition pow2 (k : Z) : Z := 2 ^ Z.max 0 k.

(** The integer nearest to [n / d], the even one of the two when [n / d]
    lies halfway between them. *)
Definition nearestEven (n d : Z) : Z :=
  let q := n / d in
  match 2 * (n mod d) ?= d with
  | Lt => q
  | Eq => if Z.even q then q else q + 1
  | Gt => q + 1
  end.

(** The [k] with [2^k <= a / b < 2^(k+1)], for positive [a] and [b]. *)
Definition floorLog2 (a b : Z) : Z :=
  let k := Z.log2 a - Z.log2 b in
  if b * pow2 k <=? a * pow2 (- k) then k else k - 1.

(** The binary64 value nearest to [a / b]: the exponent that brings the
    fraction into [2^52, 2^53), and the fraction at that exponent rounded to
    an integer mantissa of 53 bits. *)
Definition roundToBinary64 (a b : Z) : Binary64 :=
  if a =? 0 then {| mantissa := 0; exponent := 0 |}
  else
    let e := floorLog2 a b - 52 in
    {| mantissa := nearestEven (a * pow2 (- e)) (b * pow2 e);
       exponent := e |}.

(** [x / y] on integers. *)
Definition divide (x y : Z) : Binary64 := roundToBinary64 x y.

(** [x * k] for an integer [k]. *)
Definition multiply (x : Binary64) (k : Z) : Binary64 :=
  roundToBinary64 (mantissa x * k * pow2 (exponent x)) (pow2 (- exponent x)).

(** [Math.round(x)]: the integer nearest to [x], the larger one of the two
    when [x] lies halfway between them, i.e. [floor (x + 1/2)] taken
    exactly. *)
Definition mathRound (x : Binary64) : Z :=
  (2 * mantissa x * pow2 (exponent x) + pow2 (- exponent x))
  / (2 * pow2 (- exponent x)).

(** [Math.round((matchCount / length) * 100)]: the division and the
    multiplication each round to binary64, so a percentage that is exactly
    a half can come out just below it: 23 of 40 gives 57, not 58. *)
Definition roundPercent (matchCount length : Z) : Z :=
  mathRound (multiply (divide matchCount length) 100).

Arguments roundPercent : simpl never.

(** The same expression on the Standard Library's reference implementation
    of IEEE 754 arithmetic, at the parameters of binary64 (53 bits of
    precision, exponents below 1024); [roundPercent] is compared with it
    in [roundPercent_IEEE]. *)
Definition ofInteger (n : Z) : SpecFloat.spec_float :=
  SpecFloat.binary_normalize 53 1024 n 0 false.

Definition mathRoundIEEE (x : SpecFloat.spec_float) : option Z :=
  match x with
  | SpecFloat.S754_zero _ => Some 0
  | SpecFloat.S754_finite false m e =>
      Some ((2 * Z.pos m * pow2 e + pow2 (- e)) / (2 * pow2 (- e)))
  | _ => None
  end.

Definition roundPercentIEEE (matchCount length : Z) : option Z :=
  mathRoundIEEE
    (SpecFloat.SFmul 53 1024
       (SpecFloat.SFdiv 53 1024 (ofInteger matchCount) (ofInteger length))
       (ofInteger 100)).

(** [calculateLocalMatchScore(learnerWants, mentorHas)].  The arguments are
    arrays; the [!learnerWants || !mentorHas] part of the guard concerns
    absent arguments, which [searchMentors] never passes. *)
Definition calculateLocalMatchScore (learnerWants mentorHas : list JsValue)
  : Result MatchResult :=
  if (Z.of_nat (List.length learnerWants) =? 0)
     || (Z.of_nat (List.length mentorHas) =? 0)
  then Ok {| score := 0; matchedSkills := [] |}
  else
    scanned <- scanWanted learnerWants mentorHas [] 0 ;;
    let '(matched, matchCount) := scanned in
    Ok {| score := roundPercent matchCount (Z.of_nat (List.length learnerWants));
          matchedSkills := arrayFromSet matched |}.

(* ===================================================================== *)
(** ** Arrays *)
(* ===================================================================== *)

(** [array.sort(compare)].  [Array.prototype.sort] is stable, and for a
    comparator that is a consistent ordering its result is determined: the
    stable sorted arrangement.  It is computed here by insertion from the
    right: an element is placed before the first later element it does not
    have to follow ([compare x y <= 0]). *)
Fixpoint insertBy {A : Type} (compare : A -> A -> Z) (x : A) (l : list A)
  : list A :=
  match l with
  | [] => [x]
  | y :: l' =>
      if compare x y <=? 0 then x :: y :: l'
      else y :: insertBy compare x l'
  end.

Definition arraySort {A : Type} (compare : A -> A -> Z) (l : list A)
  : list A :=
  fold_right (insertBy compare) [] l.

(** [a || b] on values that are either absent or an array (an array, even
    an empty one, is truthy). *)
Definition orElse {A : Type} (a b : option A) : option A :=
  match a with
  | Some _ => a
  | None => b
  end.

Definition orEmpty {A : Type} (a : option (list A)) : list A :=
  match a with
  | Some l => l
  | None => []
  end.

(* ===================================================================== *)
(** ** The document store *)
(* ===================================================================== *)

Definition DocId : Type := string.

(** A collection lists its documents in the order a query without
    [orderBy] enumerates them: ascending by document id. *)
Definition Collection (A : Type) : Type := list (DocId * A).

(** [getDoc(doc(db, collection, id))]: [None] when [exists()] is false. *)
Fixpoint getDoc {A : Type} (id : DocId) (c : Collection A) : option A :=
  match c with
  | [] => None
  | (id', a) :: c' => if (id =? id')%string then Some a else getDoc id c'
  end.

(** [setDoc(doc(db, collection, id), data)]; [addDoc] is [setDoc] at an id
    the SDK generates. *)
Fixpoint setDoc {A : Type} (id : DocId) (a : A) (c : Collection A)
  : Collection A :=
  match c with
  | [] => [(id, a)]
  | (id', a') :: c' =>
      match (id ?= id')%string with
      | Lt => (id, a) :: (id', a') :: c'
      | Eq => (id, a) :: c'
      | Gt => (id', a') :: setDoc id a c'
      end
  end.

(** [updateDoc(doc(db, collection, id), fields)]: [None] when the document
    does not exist (the SDK rejects with [not-found]). *)
Fixpoint updateDoc {A : Type} (id : DocId) (f : A -> A) (c : Collection A)
  : option (Collection A) :=
  match c with
  | [] => None
  | (id', a) :: c' =>
      if (id =? id')%string then Some ((id', f a) :: c')
      else option_map (cons (id', a)) (updateDoc id f c')
  end.

Record Profile : Type := mkProfile {
  userId : string;
  department : string;
  year : string;
  bio : string;
  skillsHave : option (list JsValue);
  skillsOffered : option (list JsValue);
  skillsToLearn : option (list JsValue);
  skillsWanted : option (list JsValue)
}.

Inductive RequestStatus : Type :=
| pending
| accepted
| rejected.

Record MentorRequest : Type := mkMentorRequest {
  senderId : string;
  receiverId : string;
  message : string;
  status : RequestStatus;
  createdAt : Z;
  respondedAt : option Z
}.

Record ChatRoom : Type := mkChatRoom {
  participants : list string;
  userIds : list string;
  roomCreatedAt : Z;
  lastMessageAt : Z
}.

(** A message document; [messageCreatedAt] is the server timestamp as an
    instant in milliseconds. *)
Record Message : Type := mkMessage {
  chatRoomId : DocId;
  messageSenderId : string;
  text : string;
  messageCreatedAt : Z
}.

(** An entry of a report's [messages]: the copied subset of the fields of
    a message, sender, text and timestamp. *)
Record ReportedMessage : Type := mkReportedMessage {
  snapshotSenderId : string;
  snapshotText : string;
  snapshotCreatedAt : Z
}.

Inductive ReportStatus : Type :=
| reportPending
| reportReviewed
| reportActionTaken.

Record ChatReport : Type := mkChatReport {
  reportChatRoomId : DocId;
  reporterId : string;
  reason : string;
  reportParticipants : list string;
  reportMessages : list ReportedMessage;
  reportStatus : ReportStatus;
  reportCreatedAt : Z;
  reviewedAt : option Z;
  reviewedBy : option string;
  adminNotes : option string;
  actionTaken : option string
}.

Record Db : Type := mkDb {
  profiles : Collection Profile;
  mentorRequests : Collection MentorRequest;
  chatRooms : Collection ChatRoom;
  messages : Collection Message;
  chatReports : Collection ChatReport
}.

Definition emptyDb : Db := mkDb [] [] [] [] [].

Definition withMentorRequests (db : Db) (c : Collection MentorRequest) : Db :=
  mkDb (profiles db) c (chatRooms db) (messages db) (chatReports db).

Definition withChatRooms (db : Db) (c : Collection ChatRoom) : Db :=
  mkDb (profiles db) (mentorRequests db) c (messages db) (chatReports db).

Definition withMessages (db : Db) (c : Collection Message) : Db :=
  mkDb (profiles db) (mentorRequests db) (chatRooms db) c (chatReports db).

Definition withChatReports (db : Db) (c : Collection ChatReport) : Db :=
  mkDb (profiles db) (mentorRequests db) (chatRooms db) (messages db) c.

(** An operation on the store: it returns or throws, and leaves the store
    as its completed writes made it (nothing is rolled back on a throw). *)
Definition Op (A : Type) : Type := Db -> Result A * Db.

Definition ret {A : Type} (a : A) : Op A := fun db => (Ok a, db).

Definition throw {A : Type} (e : Exn) : Op A := fun db => (Throw e, db).

Definition lift {A : Type} (r : Result A) : Op A := fun db => (r, db).

Definition bindOp {A B : Type} (m : Op A) (k : A -> Op B) : Op B :=
  fun db =>
    match m db with
    | (Ok a, db') => k a db'
    | (Throw e, db') => (Throw e, db')
    end.

Definition reads {A : Type} (f : Db -> A) : Op A := fun db => (Ok (f db), db).

Definition writes (f : Db -> Db) : Op unit := fun db => (Ok tt, f db).

Declare Scope op_scope.
Delimit Scope op_scope with op.
Notation "x <- c1 ;; c2" := (bindOp c1 (fun x => c2))
  (at level 61, c1 at next level, right associativity) : op_scope.
Notation "c1 ;; c2" := (bindOp c1 (fun _ => c2))
  (at level 61, right associativity) : op_scope.

(** The moderation service: [moderateContent(text, contextKind)] resolves to
    [{ safe, reason }] or rejects. *)
Record Moderation : Type := mkModeration {
  safe : bool;
  moderationReason : string
}.

Definition Moderator : Type := string -> string -> Result Moderation.

(* ===================================================================== *)
(** ** MentorRanker: [searchMentors] *)
(* ===================================================================== *)

(** How the backend answers the two reads of one [searchMentors] call: each
    is served from the store, or rejected with the given error (offline,
    permission denied). *)
Record ReadFaults : Type := mkReadFaults {
  getProfileFault : option Exn;
  getDocsFault : option Exn
}.

Definition noFaults : ReadFaults := mkReadFaults None None.

(** [getProfile(userId)]: [{ id, ...data }], or [null]. *)
Definition getProfile (faults : ReadFaults) (db : Db) (userId : string)
  : Result (option (DocId * Profile)) :=
  match getProfileFault faults with
  | Some e => Throw e
  | None => Ok (option_map (pair userId) (getDoc userId (profiles db)))
  end.

(** [getDocs(query(collection(db, 'profiles')))], mapped to
    [{ id, ...data }]. *)
Definition getDocsProfiles (faults : ReadFaults) (db : Db)
  : Result (list (DocId * Profile)) :=
  match getDocsFault faults with
  | Some e => Throw e
  | None => Ok (profiles db)
  end.

(** An element of [mentorsWithScores]: the profile with its score fields.
    [matchReason], a display sentence derived from the same values, is left
    out. *)
Record RankedMentor : Type := mkRankedMentor {
  mentorId : DocId;
  mentor : Profile;
  matchScore : Z;
  mentorMatchedSkills : list JsValue;
  mentorSkillsHave : list JsValue;
  mentorSkillsToLearn : list JsValue
}.

(** [array.map(f)] for a callback that can throw. *)
Fixpoint mapResult {A B : Type} (f : A -> Result B) (l : list A)
  : Result (list B) :=
  match l with
  | [] => Ok []
  | a :: l' =>
      b <- f a ;;
      bs <- mapResult f l' ;;
      Ok (b :: bs)
  end.

(** The callback of [profiles.map(mentor => ...)]. *)
Definition scoreMentor (skillsToMatch : list JsValue)
  (entry : DocId * Profile) : Result RankedMentor :=
  let mentor := snd entry in
  let mentorSkills :=
    orEmpty (orElse (skillsHave mentor) (skillsOffered mentor)) in
  result <- calculateLocalMatchScore skillsToMatch mentorSkills ;;
  Ok {| mentorId := fst entry;
        mentor := mentor;
        matchScore := score result;
        mentorMatchedSkills := matchedSkills result;
        mentorSkillsHave := mentorSkills;
        mentorSkillsToLearn :=
          orEmpty (orElse (skillsToLearn mentor) (skillsWanted mentor)) |}.

Definition matchedCount (m : RankedMentor) : Z :=
  Z.of_nat (List.length (mentorMatchedSkills m)).

(** The comparator of the ranking sort. *)
Definition compareMentors (a b : RankedMentor) : Z :=
  if negb (matchScore b =? matchScore a)
  then matchScore b - matchScore a
  else matchedCount b - matchedCount a.

(** [mentorsWithScores.filter(m => m.matchScore > 0).sort(...).slice(0, 20)] *)
Definition rankedMentors (mentorsWithScores : list RankedMentor)
  : list RankedMentor :=
  firstn 20
    (arraySort compareMentors
       (filter (fun m => 0 <? matchScore m) mentorsWithScores)).

Definition isDelimiter (c : ascii) : bool :=
  (c =? ",")%char || (c =? ";")%char.

Definition nonEmpty (s : string) : bool := negb (s =? "")%string.

(** [searchQuery.split(/[,;]/).map(s => s.trim()).filter(s => s.length > 0)] *)
Definition parseSkills (searchQuery : string) : list JsValue :=
  map JsStr
    (filter nonEmpty
       (map JsString.trim (JsString.splitOnEach isDelimiter searchQuery))).

(** The skills a search runs on: [searchSkills], else the profile's, and
    the parsed query instead of either when it yields at least one skill.
    [searchQuery] is a string or absent. *)
Definition resolveSkills (searchQuery : option string)
  (searchSkills : option (list JsValue)) (currentProfile : Profile)
  : list JsValue :=
  let skillsToMatch :=
    orEmpty (orElse searchSkills
               (orElse (skillsToLearn currentProfile)
                       (skillsWanted currentProfile))) in
  match searchQuery with
  | Some q =>
      if nonEmpty q && nonEmpty (JsString.trim q) then
        let parsedSkills := parseSkills q in
        if 0 <? Z.of_nat (List.length parsedSkills) then parsedSkills
        else skillsToMatch
      else skillsToMatch
  | None => skillsToMatch
  end.

Definition hasSkills (entry : DocId * Profile) : bool :=
  match skillsHave (snd entry) with
  | Some l => 0 <? Z.of_nat (List.length l)
  | None => false
  end.

(** The [try] block of [searchMentors]. *)
Definition searchMentorsTry (faults : ReadFaults) (db : Db)
  (currentUserId : string) (searchQuery : option string)
  (searchSkills : option (list JsValue)) : Result (list RankedMentor) :=
  currentProfile <- getProfile faults db currentUserId ;;
  match currentProfile with
  | None => Ok []
  | Some (_, currentProfile) =>
      let skillsToMatch :=
        resolveSkills searchQuery searchSkills currentProfile in
      if Z.of_nat (List.length skillsToMatch) =? 0 then Ok []
      else
        snapshot <- getDocsProfiles faults db ;;
        let profiles :=
          filter hasSkills
            (filter (fun p => negb (userId (snd p) =? currentUserId)%string)
                    snapshot) in
        if Z.of_nat (List.length profiles) =? 0 then Ok []
        else
          mentorsWithScores <- mapResult (scoreMentor skillsToMatch) profiles ;;
          Ok (rankedMentors mentorsWithScores)
  end.

(** [searchMentors]: the [try] block, and [catch (error) { return []; }]. *)
Definition searchMentors (faults : ReadFaults) (db : Db)
  (currentUserId : string) (searchQuery : option string)
  (searchSkills : option (list JsValue)) : Result (list RankedMentor) :=
  tryCatch
    (searchMentorsTry faults db currentUserId searchQuery searchSkills)
    (fun error => Ok []).

(* ===================================================================== *)
(** ** RequestLifecycle *)
(* ===================================================================== *)

(** The errors of this part, under the names the design document gives
    them. *)
Definition MessageRejected (reason : string) : Exn :=
  Error ("Message rejected: " ++ reason).

Definition DuplicateRequestError : Exn :=
  Error "You already have a pending or active request with this mentor".

Definition NotFoundError : Exn := Error "Request not found".

Definition isActive (s : RequestStatus) : bool :=
  match s with
  | pending | accepted => true
  | rejected => false
  end.

(** The query [where senderId == fromUserId, where receiverId == toUserId]. *)
Definition requestsBetween (fromUserId toUserId : string) (db : Db)
  : Collection MentorRequest :=
  filter (fun d => (senderId (snd d) =? fromUserId)%string
                   && (receiverId (snd d) =? toUserId)%string)
         (mentorRequests db).

(** [sendMentorRequest(fromUserId, toUserId, message)]; [newId] is the id
    [addDoc] generates and [now] the server timestamp of the write. *)
Definition sendMentorRequest (moderateContent : Moderator)
  (fromUserId toUserId message : string) (newId : DocId) (now : Z)
  : Op (DocId * MentorRequest) :=
  (lift (if nonEmpty message then
           (moderation <- moderateContent message "message" ;;
            if negb (safe moderation)
            then Throw (MessageRejected (moderationReason moderation))
            else Ok tt)%result
         else Ok tt) ;;
   existingDocs <- reads (requestsBetween fromUserId toUserId) ;;
   lift (match existingDocs with
         | [] => Ok tt
         | (_, existing) :: _ =>
             if isActive (status existing) then Throw DuplicateRequestError
             else Ok tt
         end) ;;
   let request := {| senderId := fromUserId;
                     receiverId := toUserId;
                     message := message;
                     status := pending;
                     createdAt := now;
                     respondedAt := None |} in
   writes (fun db =>
     withMentorRequests db (setDoc newId request (mentorRequests db))) ;;
   ret (newId, request))%op.

Definition respond (accept : bool) (now : Z) (r : MentorRequest)
  : MentorRequest :=
  {| senderId := senderId r;
     receiverId := receiverId r;
     message := message r;
     status := if accept then accepted else rejected;
     createdAt := createdAt r;
     respondedAt := Some now |}.

(** [updateDoc] on a collection of the store. *)
Definition updateMentorRequest (id : DocId)
  (f : MentorRequest -> MentorRequest) : Op unit :=
  fun db =>
    match updateDoc id f (mentorRequests db) with
    | Some c => (Ok tt, withMentorRequests db c)
    | None => (Throw (FirebaseError "not-found"), db)
    end.

Definition updateChatRoom (id : DocId) (f : ChatRoom -> ChatRoom) : Op unit :=
  fun db =>
    match updateDoc id f (chatRooms db) with
    | Some c => (Ok tt, withChatRooms db c)
    | None => (Throw (FirebaseError "not-found"), db)
    end.

(** [respondToMentorRequest(requestId, accept)]; [tResponded] is the server
    timestamp of the status write; [roomId] and [tRoom] are the generated id
    and the server timestamp of the chat-room write. *)
Definition respondToMentorRequest (requestId : DocId) (accept : bool)
  (tResponded : Z) (roomId : DocId) (tRoom : Z) : Op unit :=
  (requestDoc <- reads (fun db => getDoc requestId (mentorRequests db)) ;;
   match requestDoc with
   | None => throw NotFoundError
   | Some request =>
       updateMentorRequest requestId (respond accept tResponded) ;;
       if accept then
         let chatRoom := {| participants := [senderId request;
                                             receiverId request];
                            userIds := [senderId request; receiverId request];
                            roomCreatedAt := tRoom;
                            lastMessageAt := tRoom |} in
         writes (fun db =>
           withChatRooms db (setDoc roomId chatRoom (chatRooms db)))
       else ret tt
   end)%op.

(* ===================================================================== *)
(** ** Channel *)
(* ===================================================================== *)

Definition MessageBlocked (reason : string) : Exn :=
  Error ("Message blocked: " ++ reason).

Definition touchRoom (now : Z) (room : ChatRoom) : ChatRoom :=
  {| participants := participants room;
     userIds := userIds room;
     roomCreatedAt := roomCreatedAt room;
     lastMessageAt := now |}.

(** The moderation block of [sendMessage]:
    [try { moderation = await moderateContent(text, 'chat');
           if (!moderation.safe) throw new Error(...) }
     catch (moderationError) { console.warn(...) }]. *)
Definition moderateChatMessage (moderateContent : Moderator) (text : string)
  : Result unit :=
  tryCatch
    (moderation <- moderateContent text "chat" ;;
     if negb (safe moderation)
     then Throw (MessageBlocked (moderationReason moderation))
     else Ok tt)
    (fun moderationError => Ok tt).

(** [sendMessage(chatRoomId, senderId, text)]; [messageId] and [tMessage]
    are the generated id and server timestamp of the message write, [tRoom]
    the server timestamp of the chat-room update. *)
Definition sendMessage (moderateContent : Moderator)
  (chatRoomId senderId text : string) (messageId : DocId)
  (tMessage tRoom : Z) : Op unit :=
  (lift (moderateChatMessage moderateContent text) ;;
   let message := {| chatRoomId := chatRoomId;
                     messageSenderId := senderId;
                     text := text;
                     messageCreatedAt := tMessage |} in
   writes (fun db => withMessages db (setDoc messageId message (messages db))) ;;
   updateChatRoom chatRoomId (touchRoom tRoom))%op.

Definition inRoom (roomId : DocId) (d : DocId * Message) : bool :=
  (chatRoomId (snd d) =? roomId)%string.

(** [getMessages(chatRoomId)]: the query
    [where chatRoomId == id, orderBy createdAt asc]; documents with equal
    timestamps follow in document-id order. *)
Definition getMessages (roomId : DocId) (db : Db) : list (DocId * Message) :=
  arraySort (fun a b => messageCreatedAt (snd a) - messageCreatedAt (snd b))
            (filter (inRoom roomId) (messages db)).

(* ===================================================================== *)
(** ** ReportCapture *)
(* ===================================================================== *)

Definition ValidationError : Exn := Error "Reason is required".

Definition ChatNotFoundError : Exn := Error "Chat room not found".

(** Modelled from the spec: the function that captures a report,
    [reportChat], is not among the sources.  Step 3 of capture in the design
    document: load the channel's current messages, only [senderId], [text]
    and [createdAt] of each, and sort them ascending by [createdAt] locally
    before storing. *)
Definition snapshotOf (d : DocId * Message) : ReportedMessage :=
  {| snapshotSenderId := messageSenderId (snd d);
     snapshotText := text (snd d);
     snapshotCreatedAt := messageCreatedAt (snd d) |}.

(** Modelled from the spec: the snapshot of a channel, the copies of its
    current messages sorted ascending by [createdAt]. *)
Definition capturedMessages (roomId : DocId) (db : Db)
  : list ReportedMessage :=
  arraySort (fun a b => snapshotCreatedAt a - snapshotCreatedAt b)
            (map snapshotOf (filter (inRoom roomId) (messages db))).

(** Modelled from the spec: [reportChat] is not among the sources.  The
    steps of capture in the design document: validate that [reason] is not
    empty, load the channel's participants, take the messages as above,
    persist a report with status pending; [reportId] is the generated id and
    [now] the server timestamp of the write. *)
Definition reportChat (roomId reporter reportReason : string)
  (reportId : DocId) (now : Z) : Op DocId :=
  (if nonEmpty reportReason then
     room <- reads (fun db => getDoc roomId (chatRooms db)) ;;
     match room with
     | None => throw ChatNotFoundError
     | Some room =>
         captured <- reads (capturedMessages roomId) ;;
         let report := {| reportChatRoomId := roomId;
                          reporterId := reporter;
                          reason := reportReason;
                          reportParticipants := participants room;
                          reportMessages := captured;
                          reportStatus := reportPending;
                          reportCreatedAt := now;
                          reviewedAt := None;
                          reviewedBy := None;
                          adminNotes := None;
                          actionTaken := None |} in
         writes (fun db =>
           withChatReports db (setDoc reportId report (chatReports db))) ;;
         ret reportId
     end
   else throw ValidationError)%op.

(** What can happen to the store after a capture: the operations of the
    request lifecycle and of the channel. *)
Inductive Activity : Type :=
| CreateRequest (moderateContent : Moderator)
    (fromUserId toUserId message : string) (newId : DocId) (now : Z)
| RespondToRequest (requestId : DocId) (accept : bool) (tResponded : Z)
    (roomId : DocId) (tRoom : Z)
| SendMessage (moderateContent : Moderator)
    (chatRoomId senderId text : string) (messageId : DocId)
    (tMessage tRoom : Z).

Definition perform (a : Activity) (db : Db) : Db :=
  match a with
  | CreateRequest moderateContent fromUserId toUserId message newId now =>
      snd (sendMentorRequest moderateContent fromUserId toUserId message
                             newId now db)
  | RespondToRequest requestId accept tResponded roomId tRoom =>
      snd (respondToMentorRequest requestId accept tResponded roomId tRoom db)
  | SendMessage moderateContent chatRoomId senderId text messageId
                tMessage tRoom =>
      snd (sendMessage moderateContent chatRoomId senderId text messageId
                       tMessage tRoom db)
  end.

Definition performAll (activities : list Activity) (db : Db) : Db :=
  fold_left (fun db a => perform a db) activities db.

(* ===================================================================== *)
(** ** Predicates used in the statements *)
(* ===================================================================== *)

(** Every code unit of [s] satisfies [p]. *)
Fixpoint allChars (p : ascii -> bool) (s : string) : bool :=
  match s with
  | EmptyString => true
  | String c s' => p c && allChars p s'
  end.

(** [s] is empty or starts with a code unit that is not white space. *)
Definition noLeadingSpace (s : string) : bool :=
  match s with
  | EmptyString => true
  | String c _ => negb (JsString.isWhiteSpace c)
  end.

(** A skill value that is a string. *)
Definition isString (v : JsValue) : bool :=
  match v with
  | JsStr _ => true
  | _ => false
  end.

Definition zeroResult : MatchResult := {| score := 0; matchedSkills := [] |}.

(** The order a comparator defines: [a] may precede [b]. *)
Definition precedes {A : Type} (compare : A -> A -> Z) (a b : A) : Prop :=
  compare a b <= 0.

(** [a] ranks at least as high as [b]: a larger score, or the same score
    and at least as many matched skills. *)
Definition rankedBefore (a b : RankedMentor) : Prop :=
  matchScore b < matchScore a
  \/ (matchScore a = matchScore b /\ matchedCount b <= matchedCount a).

(** The candidates tied at score [s] with [k] matched skills. *)
Definition inTie (s k : Z) (m : RankedMentor) : bool :=
  (matchScore m =? s) && (matchedCount m =? k).

(** The candidates the ranking keeps. *)
Definition positiveScore (m : RankedMentor) : bool := 0 <? matchScore m.

(** The participants of a room as a set: exactly [a] and [b]. *)
Definition participantsAre (a b : string) (room : ChatRoom) : Prop :=
  forall u, In u (participants room) <-> u = a \/ u = b.

(* ===================================================================== *)
(** ** A concrete history *)
(* ===================================================================== *)

(** Alice asks Bob for mentorship, Bob accepts, they exchange two messages.
    Every later store of this module is reached from [campus], which holds
    the profiles only, by the operations above. *)
Module Scenario.

Definition allowAll : Moderator :=
  fun _ _ => Ok {| safe := true; moderationReason := "" |}.

Definition rejectAll : Moderator :=
  fun _ _ => Ok {| safe := false; moderationReason := "abusive language" |}.

Definition alice : Profile :=
  {| userId := "alice"; department := "CS"; year := "2"; bio := "learner";
     skillsHave := Some [JsStr "Chess"];
     skillsOffered := None;
     skillsToLearn := Some [JsStr "python"; JsStr "guitar"];
     skillsWanted := None |}.

Definition bob : Profile :=
  {| userId := "bob"; department := "CS"; year := "4"; bio := "mentor";
     skillsHave := Some [JsStr "Python Programming"; JsStr "Photography"];
     skillsOffered := None;
     skillsToLearn := Some [JsStr "Chess"];
     skillsWanted := None |}.

(** A profile whose skills array holds a number. *)
Definition carol : Profile :=
  {| userId := "carol"; department := "EE"; year := "3"; bio := "mentor";
     skillsHave := Some [JsNum 42];
     skillsOffered := None;
     skillsToLearn := None;
     skillsWanted := None |}.

Definition campus : Db :=
  mkDb [("alice", alice); ("bob", bob)] [] [] [] [].

Definition campusWithCarol : Db :=
  mkDb [("alice", alice); ("bob", bob); ("carol", carol)] [] [] [] [].

Definition requested : Db :=
  snd (sendMentorRequest allowAll "alice" "bob" "hello" "req1" 1 campus).

Definition accepted1 : Db :=
  snd (respondToMentorRequest "req1" true 2 "room1" 2 requested).

Definition declined1 : Db :=
  snd (respondToMentorRequest "req1" false 2 "room1" 2 requested).

(** After a declined request, Alice asks again: allowed, the first request
    being rejected. *)
Definition requestedAgain : Db :=
  snd (sendMentorRequest allowAll "alice" "bob" "" "req2" 3 declined1).

Definition chatting : Db :=
  snd (sendMessage allowAll "room1" "bob" "welcome" "msg2" 11 11
         (snd (sendMessage allowAll "room1" "alice" "hi bob" "msg1" 10 10
                 accepted1))).

Definition reported : Db :=
  snd (reportChat "room1" "alice" "spam" "rep1" 20 chatting).

(** A campus with five mentors for Alice, who wants python and guitar. *)
Definition offering (id : string) (skills : list string) : DocId * Profile :=
  (id, {| userId := id; department := "CS"; year := "3"; bio := "mentor";
          skillsHave := Some (map JsStr skills);
          skillsOffered := None;
          skillsToLearn := None;
          skillsWanted := None |}).

Definition fair : Db :=
  mkDb [ ("alice", alice);
         offering "m0" ["python guitar"];
         offering "m1" ["Python"];
         offering "m2" ["Cooking"];
         offering "m3" ["Python"; "Guitar"];
         offering "m4" ["Guitar lessons"] ]
       [] [] [] [].

End Scenario.

(* ===================================================================== *)
(** ** Listings of requests and chat rooms *)
(* ===================================================================== *)

(** [isProfileComplete(profile)]; [profile] may be [null]. *)
Definition isProfileComplete (profile : option Profile) : bool :=
  match profile with
  | None => false
  | Some p =>
      nonEmpty (department p)
      && nonEmpty (year p)
      && nonEmpty (bio p)
      && match skillsHave p with
         | Some l => 0 <? Z.of_nat (List.length l)
         | None => false
         end
      && match skillsToLearn p with
         | Some l => 0 <? Z.of_nat (List.length l)
         | None => false
         end
  end.

(** How the backend answers a one-shot query: from the store, or with a
    rejection. *)
Definition answer {A : Type} (fault : option Exn) (a : A) : Result A :=
  match fault with
  | Some e => Throw e
  | None => Ok a
  end.

(** The in-memory sort of the listings: [(a, b) => time(b) - time(a)]. *)
Definition newestFirst {A : Type} (time : A -> Z) (a b : A) : Z :=
  time b - time a.

(** [const field = type === 'received' ? 'receiverId' : 'senderId'] *)
Definition requestField (type : string) (r : MentorRequest) : string :=
  if (type =? "received")%string then receiverId r else senderId r.

(** [getMentorRequests(userId, type)]: the query [where field == userId],
    sorted in memory by [createdAt] descending; [catch] returns []. *)
Definition getMentorRequests (fault : option Exn) (db : Db)
  (userId type : string) : Result (list (DocId * MentorRequest)) :=
  tryCatch
    (requests <- answer fault
                   (filter (fun d => (requestField type (snd d) =? userId)%string)
                           (mentorRequests db)) ;;
     Ok (arraySort (newestFirst (fun d => createdAt (snd d))) requests))
    (fun error => Ok []).

(** [where('participants', 'array-contains', userId)] *)
Definition isParticipant (userId : string) (d : DocId * ChatRoom) : bool :=
  existsb (String.eqb userId) (participants (snd d)).

(** [getChatRooms(userId)]: the rooms of the user, sorted in memory by
    [lastMessageAt] descending; [catch] returns []. *)
Definition getChatRooms (fault : option Exn) (db : Db) (userId : string)
  : Result (list (DocId * ChatRoom)) :=
  tryCatch
    (rooms <- answer fault (filter (isParticipant userId) (chatRooms db)) ;;
     Ok (arraySort (newestFirst (fun d => lastMessageAt (snd d))) rooms))
    (fun error => Ok []).

(** A query with [orderBy(field, 'desc')]: descending by the field,
    documents with equal values in descending document-id order. *)
Definition orderByDesc {A : Type} (time : A -> Z) (c : Collection A)
  : Collection A :=
  rev (arraySort (fun a b => time (snd a) - time (snd b)) c).

(** An element of [getAllMentorRequestsForAdmin()]: the metadata of a
    request, without its message. *)
Record RequestMetadata : Type := mkRequestMetadata {
  metaId : DocId;
  metaSenderId : string;
  metaReceiverId : string;
  metaStatus : RequestStatus;
  metaCreatedAt : Z;
  metaRespondedAt : option Z
}.

Definition requestMetadata (d : DocId * MentorRequest) : RequestMetadata :=
  {| metaId := fst d;
     metaSenderId := senderId (snd d);
     metaReceiverId := receiverId (snd d);
     metaStatus := status (snd d);
     metaCreatedAt := createdAt (snd d);
     metaRespondedAt := respondedAt (snd d) |}.

Definition getAllMentorRequestsForAdmin (db : Db) : list RequestMetadata :=
  map requestMetadata (orderByDesc createdAt (mentorRequests db)).

Definition statusEqb (a b : RequestStatus) : bool :=
  match a, b with
  | pending, pending | accepted, accepted | rejected, rejected => true
  | _, _ => false
  end.

Record RequestStats : Type := mkRequestStats {
  statsTotal : nat;
  statsPending : nat;
  statsAccepted : nat;
  statsRejected : nat
}.

Definition countStatus (s : RequestStatus) (l : list RequestMetadata) : nat :=
  List.length (filter (fun r => statusEqb (metaStatus r) s) l).

(** [getMentorRequestStats()] *)
Definition getMentorRequestStats (db : Db) : RequestStats :=
  let allRequests := getAllMentorRequestsForAdmin db in
  {| statsTotal := List.length allRequests;
     statsPending := countStatus pending allRequests;
     statsAccepted := countStatus accepted allRequests;
     statsRejected := countStatus rejected allRequests |}.

(** What [handleSend] of the chat screen does to the store: nothing when the
    input is blank or a send is under way, else [sendMessage] with the
    trimmed input (an error of the call ends in the screen's error state). *)
Definition handleSend (moderateContent : Moderator) (chatId uid : string)
  (newMessage : string) (sending : bool) (messageId : DocId)
  (tMessage tRoom : Z) (db : Db) : Db :=
  if negb (nonEmpty (JsString.trim newMessage)) || sending then db
  else snd (sendMessage moderateContent chatId uid (JsString.trim newMessage)
                        messageId tMessage tRoom db).

(* ===================================================================== *)
(** ** Issues *)
(* ===================================================================== *)

(** An entry of [statusHistory]; [entryTimestamp] is the client clock
    ([new Date().toISOString()]) as an instant, [entryUpdatedBy] is absent
    from the entry written at creation. *)
Record StatusEntry : Type := mkStatusEntry {
  entryStatus : string;
  entryTimestamp : Z;
  entryNote : string;
  entryUpdatedBy : option string
}.

Record Issue : Type := mkIssue {
  issueCategory : string;
  issueDescription : string;
  imageUrl : option string;
  isAnonymous : bool;
  reportedBy : option string;
  issueStatus : string;
  issuePriority : string;
  issueTags : list string;
  issueSummary : string;
  issueCreatedAt : Z;
  issueUpdatedAt : Z;
  statusHistory : list StatusEntry
}.

(** The [issueData] argument of [createIssue]. *)
Record IssueData : Type := mkIssueData {
  dataCategory : string;
  dataDescription : string;
  dataIsAnonymous : bool;
  dataUserId : option string
}.

(** What [categorizeIssue] resolves to; [tags] and [summary] may be
    missing. *)
Record Categorization : Type := mkCategorization {
  aiCategory : string;
  aiPriority : string;
  aiTags : option (list string);
  aiSummary : option string
}.

Definition Categorizer : Type := string -> Result Categorization.

(** [a || b] on strings: the empty string is falsy. *)
Definition orString (a b : string) : string :=
  if nonEmpty a then a else b.

(** The moderation block of [createIssue]: as in [sendMessage], the [throw]
    sits inside the [try] whose [catch] warns and continues. *)
Definition moderateIssue (moderateContent : Moderator) (description : string)
  : Result unit :=
  tryCatch
    (moderation <- moderateContent description "issue" ;;
     if negb (safe moderation)
     then Throw (Error ("Issue rejected: " ++ moderationReason moderation))
     else Ok tt)
    (fun moderationError => Ok tt).

(** [createIssue(issueData, imageFile)].  [imageUpload] is [None] without an
    image file, else the outcome of the upload and of the download-URL
    request; [newId] and [now] are the generated id and the server timestamp
    of the write, [clientNow] the client clock. *)
Definition createIssue (moderateContent : Moderator)
  (categorizeIssue : Categorizer) (imageUpload : option (Result string))
  (issueData : IssueData) (newId : DocId) (now clientNow : Z)
  (issues : Collection Issue) : Result (DocId * Issue) * Collection Issue :=
  match moderateIssue moderateContent (dataDescription issueData) with
  | Throw e => (Throw e, issues)
  | Ok _ =>
      let categorization :=
        match categorizeIssue (dataDescription issueData) with
        | Ok categorized => categorized
        | Throw categorizationError =>
            {| aiCategory := dataCategory issueData;
               aiPriority := "Medium";
               aiTags := Some [];
               aiSummary := Some "" |}
        end in
      let imageUrl :=
        match imageUpload with
        | Some (Ok url) => Some url
        | Some (Throw uploadError) => None
        | None => None
        end in
      let issue :=
        {| issueCategory :=
             orString (dataCategory issueData) (aiCategory categorization);
           issueDescription := dataDescription issueData;
           imageUrl := imageUrl;
           isAnonymous := dataIsAnonymous issueData;
           reportedBy := if dataIsAnonymous issueData then None
                         else dataUserId issueData;
           issueStatus := "Open";
           issuePriority := aiPriority categorization;
           issueTags := orEmpty (aiTags categorization);
           issueSummary :=
             match aiSummary categorization with
             | Some s => s
             | None => ""
             end;
           issueCreatedAt := now;
           issueUpdatedAt := now;
           statusHistory :=
             [ {| entryStatus := "Open";
                  entryTimestamp := clientNow;
                  entryNote := "Issue reported";
                  entryUpdatedBy := None |} ] |} in
      (Ok (newId, issue), setDoc newId issue issues)
  end.

(** The [filters] argument of [getIssues]; a field that is absent or falsy
    (the empty string, the limit 0) adds no constraint. *)
Record IssueFilters : Type := mkIssueFilters {
  filterCategory : option string;
  filterStatus : option string;
  filterPriority : option string;
  filterUserId : option string;
  filterLimit : option nat
}.

Definition truthy (o : option string) : option string :=
  match o with
  | Some s => if nonEmpty s then Some s else None
  | None => None
  end.

(** [where(field, '==', wanted)] on a string field, when [wanted] is given. *)
Definition whereEq (wanted : option string) (value : string) : bool :=
  match truthy wanted with
  | Some s => (value =? s)%string
  | None => true
  end.

(** The same for [reportedBy], which is [null] on anonymous issues. *)
Definition whereReportedBy (wanted : option string) (value : option string)
  : bool :=
  match truthy wanted with
  | Some s =>
      match value with
      | Some v => (v =? s)%string
      | None => false
      end
  | None => true
  end.

Definition issueMatches (filters : IssueFilters) (d : DocId * Issue) : bool :=
  whereEq (filterCategory filters) (issueCategory (snd d))
  && whereEq (filterStatus filters) (issueStatus (snd d))
  && whereEq (filterPriority filters) (issuePriority (snd d))
  && whereReportedBy (filterUserId filters) (reportedBy (snd d)).

Definition isSome {A : Type} (o : option A) : bool :=
  match o with
  | Some _ => true
  | None => false
  end.

(** [constraints.length === 0] before the ordering is added. *)
Definition noConstraints (filters : IssueFilters) : bool :=
  negb (isSome (truthy (filterCategory filters))
        || isSome (truthy (filterStatus filters))
        || isSome (truthy (filterPriority filters))
        || isSome (truthy (filterUserId filters))).

(** [limit(n)] of the query, when [filters.limit] is truthy. *)
Definition applyLimit {A : Type} (limit : option nat) (l : list A) : list A :=
  match limit with
  | Some (S n) => firstn (S n) l
  | Some O => l
  | None => l
  end.

(** [getIssues(filters)]: the query (equality filters in document-id order,
    or [orderBy createdAt desc] when there is no filter; then the limit),
    and the in-memory sort by [createdAt] descending. *)
Definition getIssues (filters : IssueFilters) (issues : Collection Issue)
  : list (DocId * Issue) :=
  let queried :=
    if noConstraints filters then orderByDesc issueCreatedAt issues
    else filter (issueMatches filters) issues in
  arraySort (newestFirst (fun d => issueCreatedAt (snd d)))
            (applyLimit (filterLimit filters) queried).

(** [updateIssueStatus(issueId, newStatus, note, adminEmail)]; [note] may be
    absent. *)
Definition updateIssueStatus (issueId : DocId) (newStatus : string)
  (note : option string) (adminEmail : string) (now clientNow : Z)
  (issues : Collection Issue) : Result unit * Collection Issue :=
  match getDoc issueId issues with
  | None => (Throw (Error "Issue not found"), issues)
  | Some issue =>
      let statusHistory :=
        statusHistory issue
        ++ [ {| entryStatus := newStatus;
                entryTimestamp := clientNow;
                entryNote := match note with
                             | Some n => n
                             | None => ""
                             end;
                entryUpdatedBy := Some adminEmail |} ] in
      let update (i : Issue) : Issue :=
        {| issueCategory := issueCategory i;
           issueDescription := issueDescription i;
           imageUrl := imageUrl i;
           isAnonymous := isAnonymous i;
           reportedBy := reportedBy i;
           issueStatus := newStatus;
           issuePriority := issuePriority i;
           issueTags := issueTags i;
           issueSummary := issueSummary i;
           issueCreatedAt := issueCreatedAt i;
           issueUpdatedAt := now;
           statusHistory := statusHistory |} in
      match updateDoc issueId update issues with
      | Some issues' => (Ok tt, issues')
      | None => (Throw (FirebaseError "not-found"), issues)
      end
  end.

Record CategoryCounts : Type := mkCategoryCounts {
  safety : nat;
  hygiene : nat;
  infrastructure : nat;
  canteen : nat
}.

Record PriorityCounts : Type := mkPriorityCounts {
  high : nat;
  medium : nat;
  low : nat
}.

Record IssueStats : Type := mkIssueStats {
  total : nat;
  open : nat;
  inReview : nat;
  resolved : nat;
  byCategory : CategoryCounts;
  byPriority : PriorityCounts
}.

Definition countIssues (p : Issue -> bool) (l : list (DocId * Issue)) : nat :=
  List.length (filter (fun d => p (snd d)) l).

Definition hasStatus (s : string) (i : Issue) : bool :=
  (issueStatus i =? s)%string.

Definition hasCategory (s : string) (i : Issue) : bool :=
  (issueCategory i =? s)%string.

Definition hasPriority (s : string) (i : Issue) : bool :=
  (issuePriority i =? s)%string.

(** [getIssueStats()], over [getAllIssuesForAdmin()] (all issues, ordered
    by [createdAt] descending). *)
Definition getIssueStats (issues : Collection Issue) : IssueStats :=
  let allIssues := orderByDesc issueCreatedAt issues in
  {| total := List.length allIssues;
     open := countIssues (hasStatus "Open") allIssues;
     inReview := countIssues (hasStatus "In Review") allIssues;
     resolved := countIssues (hasStatus "Resolved") allIssues;
     byCategory :=
       {| safety := countIssues (hasCategory "Safety") allIssues;
          hygiene := countIssues (hasCategory "Hygiene") allIssues;
          infrastructure :=
            countIssues (hasCategory "Infrastructure") allIssues;
          canteen := countIssues (hasCategory "Canteen") allIssues |};
     byPriority :=
       {| high := countIssues (hasPriority "High") allIssues;
          medium := countIssues (hasPriority "Medium") allIssues;
          low := countIssues (hasPriority "Low") allIssues |} |}.

(** The form state of the issue screen. *)
Record IssueForm : Type := mkIssueForm {
  formCategory : string;
  formDescription : string;
  formIsAnonymous : bool
}.

(** [handleSubmit] of the issue screen: the three validations, then
    [createIssue] without an image; [user] is [user?.uid], and the call
    passes [user?.uid || null]. *)
Definition handleSubmit (moderateContent : Moderator)
  (categorizeIssue : Categorizer) (formData : IssueForm)
  (user : option string) (newId : DocId) (now clientNow : Z)
  (issues : Collection Issue) : Result (DocId * Issue) * Collection Issue :=
  if negb (nonEmpty (formCategory formData))
  then (Throw (Error "Please select a category"), issues)
  else if negb (nonEmpty (formDescription formData))
          || (Z.of_nat (String.length (JsString.trim (formDescription formData)))
              =? 0)
  then (Throw (Error "Please enter a description"), issues)
  else if 300 <? Z.of_nat (String.length (formDescription formData))
  then (Throw (Error "Description must be 300 characters or less"), issues)
  else createIssue moderateContent categorizeIssue None
         {| dataCategory := formCategory formData;
            dataDescription := formDescription formData;
            dataIsAnonymous := formIsAnonymous formData;
            dataUserId := truthy user |}
         newId now clientNow issues.

(* ===================================================================== *)
(** * Properties *)
(* ===================================================================== *)

(** ** Strings *)

Lemma toLowerCaseChar_skillChar (c : ascii) :
  skillChar c = true -> JsString.toLowerCaseChar c = c.
Proof.
  destruct c as [[] [] [] [] [] [] [] []]; vm_compute; intro H;
    first [reflexivity | discriminate H].
Qed.

Lemma toLowerCase_skillChars (s : string) :
  allChars skillChar s = true -> JsString.toLowerCase s = s.
Proof.
  induction s as [|c s IH]; simpl; intro H.
  - reflexivity.
  - apply andb_true_iff in H. destruct H as [Hc Hs].
    rewrite (toLowerCaseChar_skillChar c Hc), (IH Hs). reflexivity.
Qed.

Lemma removeUnless_all (keep : ascii -> bool) (s : string) :
  allChars keep s = true -> JsString.removeUnless keep s = s.
Proof.
  induction s as [|c s IH]; simpl; intro H.
  - reflexivity.
  - apply andb_true_iff in H. destruct H as [Hc Hs].
    rewrite Hc, (IH Hs). reflexivity.
Qed.

Lemma allChars_removeUnless (keep : ascii -> bool) (s : string) :
  allChars keep (JsString.removeUnless keep s) = true.
Proof.
  induction s as [|c s IH]; simpl.
  - reflexivity.
  - destruct (keep c) eqn:Hc; simpl.
    + rewrite Hc. exact IH.
    + exact IH.
Qed.

Lemma allChars_trimStart (p : ascii -> bool) (s : string) :
  allChars p s = true -> allChars p (JsString.trimStart s) = true.
Proof.
  induction s as [|c s IH]; simpl; intro H.
  - reflexivity.
  - destruct (JsString.isWhiteSpace c).
    + apply IH. apply andb_true_iff in H. tauto.
    + exact H.
Qed.

Lemma allChars_trimEnd (p : ascii -> bool) (s : string) :
  allChars p s = true -> allChars p (JsString.trimEnd s) = true.
Proof.
  induction s as [|c s IH]; simpl; intro H.
  - reflexivity.
  - apply andb_true_iff in H. destruct H as [Hc Hs].
    specialize (IH Hs).
    destruct (JsString.trimEnd s) as [|d r].
    + destruct (JsString.isWhiteSpace c); simpl.
      * reflexivity.
      * rewrite Hc. reflexivity.
    + change (p c && allChars p (String d r) = true).
      rewrite Hc, IH. reflexivity.
Qed.

Lemma allChars_trim (p : ascii -> bool) (s : string) :
  allChars p s = true -> allChars p (JsString.trim s) = true.
Proof.
  intro H. unfold JsString.trim.
  apply allChars_trimEnd, allChars_trimStart, H.
Qed.

Lemma trimEnd_idempotent (s : string) :
  JsString.trimEnd (JsString.trimEnd s) = JsString.trimEnd s.
Proof.
  induction s as [|c s IH]; simpl.
  - reflexivity.
  - destruct (JsString.trimEnd s) as [|d r] eqn:E.
    + destruct (JsString.isWhiteSpace c) eqn:W; simpl.
      * reflexivity.
      * rewrite W. reflexivity.
    + change (JsString.trimEnd (String c (String d r)) = String c (String d r)).
      change (match JsString.trimEnd (String d r) with
              | EmptyString =>
                  if JsString.isWhiteSpace c then EmptyString
                  else String c EmptyString
              | r' => String c r'
              end = String c (String d r)).
      rewrite IH. reflexivity.
Qed.

Lemma noLeadingSpace_trimStart (s : string) :
  noLeadingSpace (JsString.trimStart s) = true.
Proof.
  induction s as [|c s IH]; simpl.
  - reflexivity.
  - destruct (JsString.isWhiteSpace c) eqn:W.
    + exact IH.
    + simpl. rewrite W. reflexivity.
Qed.

Lemma noLeadingSpace_trimEnd (s : string) :
  noLeadingSpace s = true -> noLeadingSpace (JsString.trimEnd s) = true.
Proof.
  destruct s as [|c s]; simpl; intro H.
  - reflexivity.
  - apply negb_true_iff in H.
    destruct (JsString.trimEnd s); rewrite ?H; simpl; rewrite H; reflexivity.
Qed.

Lemma trimStart_noLeadingSpace (s : string) :
  noLeadingSpace s = true -> JsString.trimStart s = s.
Proof.
  destruct s as [|c s]; simpl; intro H.
  - reflexivity.
  - apply negb_true_iff in H. rewrite H. reflexivity.
Qed.

Lemma trim_idempotent (s : string) :
  JsString.trim (JsString.trim s) = JsString.trim s.
Proof.
  unfold JsString.trim.
  rewrite (trimStart_noLeadingSpace (JsString.trimEnd (JsString.trimStart s))).
  - apply trimEnd_idempotent.
  - apply noLeadingSpace_trimEnd, noLeadingSpace_trimStart.
Qed.

(** ** SkillMatcher *)

Lemma normalizeSkill_skillChars (s : string) :
  allChars skillChar (normalizeSkill s) = true.
Proof. apply allChars_removeUnless. Qed.

(** On a string of the class [[a-z0-9\s]] only the trimming acts. *)
Lemma normalizeSkill_on_skillChars (t : string) :
  allChars skillChar t = true -> normalizeSkill t = JsString.trim t.
Proof.
  intro H. unfold normalizeSkill.
  rewrite (toLowerCase_skillChars t H).
  apply removeUnless_all, allChars_trim, H.
Qed.

(** C6, as stated, fails: the trimming runs before the stripping, so a
    string whose first kept character follows a stripped one and a space
    keeps that space, which a second application removes. *)
Lemma normalizeSkill_not_idempotent :
  normalizeSkill (normalizeSkill "! a") <> normalizeSkill "! a".
Proof. vm_compute. discriminate. Qed.

(** C6 (amended): a second application of [normalizeSkill] trims the result
    of the first and does nothing else, [normalizeSkill (normalizeSkill s) =
    trim (normalizeSkill s)]; hence [normalizeSkill] is idempotent exactly on
    the inputs whose normalization has no leading or trailing white space,
    and the double application is idempotent on every input. *)
Theorem normalizeSkill_twice (s : string) :
  normalizeSkill (normalizeSkill s) = JsString.trim (normalizeSkill s)
  /\ (normalizeSkill (normalizeSkill s) = normalizeSkill s
      <-> JsString.trim (normalizeSkill s) = normalizeSkill s)
  /\ normalizeSkill (normalizeSkill (normalizeSkill s))
     = normalizeSkill (normalizeSkill s).
Proof.
  assert (H1 : normalizeSkill (normalizeSkill s)
               = JsString.trim (normalizeSkill s))
    by apply normalizeSkill_on_skillChars, normalizeSkill_skillChars.
  split; [exact H1 | split].
  - rewrite H1. tauto.
  - rewrite (normalizeSkill_on_skillChars (normalizeSkill (normalizeSkill s)))
      by apply normalizeSkill_skillChars.
    rewrite H1. apply trim_idempotent.
Qed.

(** An input on which one application already leaves nothing to trim. *)
Lemma normalizeSkill_twice_witness :
  normalizeSkill (normalizeSkill "  Python 3! ") = normalizeSkill "  Python 3! ".
Proof.
  apply (proj2 (proj1 (proj2 (normalizeSkill_twice "  Python 3! ")))).
  reflexivity.
Defined.

Lemma existsb_pointwise {A : Type} (f g : A -> bool) (l : list A) :
  (forall a, f a = g a) -> existsb f l = existsb g l.
Proof.
  intro H. induction l as [|a l IH]; simpl.
  - reflexivity.
  - rewrite H, IH. reflexivity.
Qed.

Lemma existsb_none {A : Type} (l : list A) :
  existsb (fun _ => false) l = false.
Proof. induction l as [|a l IH]; simpl; auto. Qed.

Lemma existsb_orb {A : Type} (f g : A -> bool) (l : list A) :
  existsb (fun a => f a || g a) l = existsb f l || existsb g l.
Proof.
  induction l as [|a l IH]; simpl.
  - reflexivity.
  - rewrite IH.
    destruct (f a), (g a), (existsb f l), (existsb g l); reflexivity.
Qed.

(** The two nested [some] calls commute. *)
Lemma existsb_swap {A B : Type} (p : A -> B -> bool)
  (l1 : list A) (l2 : list B) :
  existsb (fun a => existsb (fun b => p a b) l2) l1
  = existsb (fun b => existsb (fun a => p a b) l1) l2.
Proof.
  induction l1 as [|a l1 IH]; simpl.
  - symmetry. apply existsb_none.
  - rewrite IH. symmetry. apply existsb_orb.
Qed.

(** C9: [skillsMatch] is symmetric: for every pair of skill strings [a] and
    [b], [skillsMatch a b = skillsMatch b a].  Each of its three tests, the
    equality, the containment either way and the word overlap, is symmetric
    in the two normalized strings. *)
Theorem skillsMatch_symmetric (a b : string) :
  skillsMatch a b = skillsMatch b a.
Proof.
  unfold skillsMatch, normalizedMatch.
  set (n1 := normalizeSkill a). set (n2 := normalizeSkill b).
  rewrite (String.eqb_sym n2 n1).
  rewrite (orb_comm (JsString.includes n2 n1) (JsString.includes n1 n2)).
  destruct (n1 =? n2)%string; [reflexivity|].
  destruct (JsString.includes n1 n2 || JsString.includes n2 n1);
    [reflexivity|].
  rewrite existsb_swap.
  apply existsb_pointwise; intro w2.
  apply existsb_pointwise; intro w1.
  rewrite (String.eqb_sym w1 w2).
  destruct (w2 =? w1)%string, (JsString.includes w1 w2),
    (JsString.includes w2 w1); reflexivity.
Qed.

Lemma skillsMatchJs_strings (a b : string) :
  skillsMatchJs (JsStr a) (JsStr b) = Ok (skillsMatch a b).
Proof. reflexivity. Qed.

(** ** Scoring *)

Lemma firstMatch_strings (w : JsValue) (has : list JsValue) :
  isString w = true -> forallb isString has = true ->
  exists found, firstMatch w has = Ok found.
Proof.
  intros Hw. induction has as [|h has IH]; simpl; intro Hh.
  - eexists. reflexivity.
  - apply andb_true_iff in Hh. destruct Hh as [Hh1 Hh2].
    destruct w as [sw| |]; try discriminate Hw.
    destruct h as [sh| |]; try discriminate Hh1.
    simpl. destruct (normalizedMatch (normalizeSkill sw) (normalizeSkill sh)).
    + eexists. reflexivity.
    + apply IH, Hh2.
Qed.

Lemma scanWanted_strings (wanted has acc : list JsValue) (n : Z) :
  forallb isString wanted = true -> forallb isString has = true ->
  exists out, scanWanted wanted has acc n = Ok out.
Proof.
  intros Hw Hh. revert acc n.
  induction wanted as [|w wanted IH]; simpl; intros acc n.
  - eexists. reflexivity.
  - simpl in Hw. apply andb_true_iff in Hw. destruct Hw as [Hw1 Hw2].
    destruct (firstMatch_strings w has Hw1 Hh) as [found ->]. simpl.
    destruct found; apply IH, Hw2.
Qed.

(** The loop appends one entry per counted match, at most one per wanted
    skill. *)
Lemma scanWanted_count (wanted has acc matched : list JsValue) (n count : Z) :
  scanWanted wanted has acc n = Ok (matched, count) ->
  exists new,
    matched = acc ++ new
    /\ count = n + Z.of_nat (List.length new)
    /\ (List.length new <= List.length wanted)%nat.
Proof.
  revert acc n. induction wanted as [|w wanted IH]; simpl; intros acc n H.
  - inversion H; subst. exists []. rewrite app_nil_r. simpl.
    repeat split; lia.
  - destruct (firstMatch w has) as [found|e]; simpl in H; [|discriminate H].
    destruct found as [h|].
    + destruct (IH _ _ H) as (new & Hm & Hc & Hl).
      exists (h :: new). rewrite <- app_assoc in Hm. simpl in Hm.
      repeat split; [exact Hm | simpl List.length; lia | simpl; lia].
    + destruct (IH _ _ H) as (new & Hm & Hc & Hl).
      exists new. repeat split; [exact Hm | exact Hc | lia].
Qed.

Lemma setAdd_not_nil (seen : list JsValue) (v : JsValue) :
  setAdd seen v <> [].
Proof.
  unfold setAdd. destruct seen as [|x seen]; simpl.
  - discriminate.
  - destruct (sameValueZero v x || existsb (sameValueZero v) seen);
      discriminate.
Qed.

Lemma fold_setAdd_not_nil (values seen : list JsValue) :
  seen <> [] -> fold_left setAdd values seen <> [].
Proof.
  revert seen. induction values as [|v values IH]; simpl; intros seen H.
  - exact H.
  - apply IH, setAdd_not_nil.
Qed.

Lemma arrayFromSet_nil (values : list JsValue) :
  arrayFromSet values = [] <-> values = [].
Proof.
  unfold arrayFromSet. destruct values as [|v values]; simpl.
  - tauto.
  - split; [|discriminate]. intro H. exfalso.
    revert H. apply fold_setAdd_not_nil, setAdd_not_nil.
Qed.

(** *** The percentage *)

Lemma pow2_pos (k : Z) : 0 < pow2 k.
Proof. unfold pow2. apply Z.pow_pos_nonneg; lia. Qed.

Lemma pow2_nonpos (k : Z) : k <= 0 -> pow2 k = 1.
Proof. intro H. unfold pow2. rewrite Z.max_l by lia. reflexivity. Qed.

Lemma pow2_double (k : Z) : 0 <= k -> pow2 (k + 1) = 2 * pow2 k.
Proof.
  intro H. unfold pow2. rewrite !Z.max_r by lia.
  rewrite Z.pow_add_r by lia. lia.
Qed.

Lemma pow2_le (j k : Z) : 0 <= j <= k -> 2 ^ j <= pow2 k.
Proof.
  intro H. unfold pow2. rewrite Z.max_r by lia.
  apply Z.pow_le_mono_r; lia.
Qed.

Lemma nearestEven_floor (n d : Z) :
  n / d <= nearestEven n d <= n / d + 1.
Proof.
  unfold nearestEven.
  destruct (2 * (n mod d) ?= d); [destruct (Z.even (n / d))| |]; lia.
Qed.

(** Rounding does not cross an integer. *)
Lemma nearestEven_ge (n d i : Z) :
  0 < d -> i * d <= n -> i <= nearestEven n d.
Proof.
  intros Hd H. pose proof (nearestEven_floor n d) as F.
  assert (i <= n / d) by (apply Z.div_le_lower_bound; lia).
  lia.
Qed.

Lemma nearestEven_le (n d i : Z) :
  0 < d -> n <= i * d -> nearestEven n d <= i.
Proof.
  intros Hd H. unfold nearestEven.
  pose proof (Z.div_mod n d ltac:(lia)) as E.
  pose proof (Z.mod_pos_bound n d Hd) as B.
  assert (Q : n / d <= i) by (apply Z.div_le_upper_bound; lia).
  destruct (Z.eq_dec (n / d) i) as [Qe|Qn].
  - assert (R : n mod d = 0) by nia.
    replace (2 * (n mod d) ?= d) with Lt; [lia|].
    symmetry. apply Z.compare_lt_iff. lia.
  - destruct (2 * (n mod d) ?= d); [destruct (Z.even (n / d))| |]; lia.
Qed.

Lemma floorLog2_le (a b : Z) : floorLog2 a b <= Z.log2 a - Z.log2 b.
Proof.
  unfold floorLog2.
  destruct (b * pow2 _ <=? a * pow2 _); lia.
Qed.

(** A fraction that is at most the integer [v], and small enough for its
    rounding step to be at most 2^-[k], rounds to a multiple of that step
    between [a / b - step] and [v]. *)
Lemma roundToBinary64_bounds (a b v k : Z) :
  0 <= a -> 0 < b -> a <= v * b -> Z.log2 a - Z.log2 b <= 52 - k -> 0 <= k ->
  let x := roundToBinary64 a b in
  exponent x <= 0
  /\ 0 <= mantissa x <= v * pow2 (- exponent x)
  /\ (0 < a ->
      exponent x <= - k
      /\ forall i, i * b <= a * pow2 (- exponent x) -> i <= mantissa x).
Proof.
  intros Ha Hb Hv Hl Hk. unfold roundToBinary64.
  destruct (a =? 0) eqn:E; simpl.
  - apply Z.eqb_eq in E. subst a. pose proof (pow2_pos 0) as P.
    change (- 0) with 0. split; [lia|]. split; [nia|lia].
  - pose proof (floorLog2_le a b) as F.
    set (e := floorLog2 a b - 52) in *.
    assert (He : e <= 0) by lia.
    rewrite (pow2_nonpos e He), Z.mul_1_r.
    pose proof (pow2_pos (- e)) as P.
    split; [exact He|]. split; [split|].
    + pose proof (nearestEven_floor (a * pow2 (- e)) b).
      assert (0 <= a * pow2 (- e) / b) by (apply Z.div_pos; nia). lia.
    + apply nearestEven_le; nia.
    + intros _. split; [lia|].
      intros i Hi. apply nearestEven_ge; assumption.
Qed.

(** The quotient of a count by a length that is not smaller. *)
Lemma divide_bounds (m n : Z) :
  0 <= m <= n -> 0 < n ->
  let x := divide m n in
  exponent x <= 0
  /\ 0 <= mantissa x <= pow2 (- exponent x)
  /\ (0 < m ->
      exponent x <= -52
      /\ forall i, i * n <= m * pow2 (- exponent x) -> i <= mantissa x).
Proof.
  intros Hm Hn.
  pose proof (Z.log2_le_mono m n (proj2 Hm)) as L.
  destruct (roundToBinary64_bounds m n 1 52) as (He & Hr & Hp); try lia.
  rewrite Z.mul_1_l in Hr. exact (conj He (conj Hr Hp)).
Qed.

(** The product by 100 of a number that is at most 1. *)
Lemma multiply_bounds (x : Binary64) :
  exponent x <= 0 -> 0 <= mantissa x <= pow2 (- exponent x) ->
  let y := multiply x 100 in
  exponent y <= 0
  /\ 0 <= mantissa y <= 100 * pow2 (- exponent y)
  /\ (0 < mantissa x ->
      exponent y <= -45
      /\ forall i,
           i * pow2 (- exponent x) <= mantissa x * 100 * pow2 (- exponent y) ->
           i <= mantissa y).
Proof.
  intros He Hm. unfold multiply.
  pose proof (pow2_pos (- exponent x)) as P.
  rewrite (pow2_nonpos (exponent x) He), Z.mul_1_r.
  assert (L : Z.log2 (mantissa x * 100) - Z.log2 (pow2 (- exponent x))
              <= 52 - 45).
  { assert (L : Z.log2 (mantissa x * 100) <= Z.log2 (2 ^ (7 - exponent x))).
    { apply Z.log2_le_mono.
      replace (2 ^ (7 - exponent x)) with (128 * pow2 (- exponent x)).
      - nia.
      - unfold pow2. rewrite Z.max_r by lia.
        replace (7 - exponent x) with (7 + - exponent x) by lia.
        rewrite Z.pow_add_r by lia. reflexivity. }
    rewrite Z.log2_pow2 in L by lia.
    unfold pow2. rewrite Z.max_r by lia. rewrite Z.log2_pow2 by lia. lia. }
  destruct (roundToBinary64_bounds (mantissa x * 100) (pow2 (- exponent x))
              100 45) as (He' & Hr & Hp); try nia.
  split; [exact He'|]. split; [exact Hr|].
  intros Hx. apply Hp. lia.
Qed.

Lemma roundPercent_range (m n : Z) :
  0 <= m <= n -> 0 < n -> 0 <= roundPercent m n <= 100.
Proof.
  intros Hm Hn. unfold roundPercent.
  destruct (divide_bounds m n Hm Hn) as (He & Hr & _).
  destruct (multiply_bounds (divide m n) He Hr) as (He' & Hr' & _).
  set (y := multiply (divide m n) 100) in *.
  unfold mathRound.
  pose proof (pow2_pos (- exponent y)) as P.
  rewrite (pow2_nonpos (exponent y)), Z.mul_1_r by lia.
  split.
  - apply Z.div_pos; lia.
  - assert ((2 * mantissa y + pow2 (- exponent y))
            / (2 * pow2 (- exponent y)) < 101); [|lia].
    apply Z.div_lt_upper_bound; lia.
Qed.

(** No counted match gives 0 percent. *)
Lemma roundPercent_none (n : Z) : roundPercent 0 n = 0.
Proof. reflexivity. Qed.

(** Percentages on and next to a half: 23 of 40 is 57.5 exactly and comes
    out as 57, the quotient having been rounded down; 1 of 200 comes out
    as 1 and 1 of 201 as 0. *)
Lemma roundPercent_halves :
  roundPercent 23 40 = 57 /\ roundPercent 1 200 = 1 /\ roundPercent 1 201 = 0.
Proof. vm_compute. repeat split. Qed.

(** A matched fraction above 1/200 gives at least 1 percent: the quotient
    is at least the multiple of its rounding step next above 1/200, whose
    product by 100 is at least a half. *)
Lemma roundPercent_above (m n : Z) :
  1 <= m <= n -> n < 200 * m -> n <= 2 ^ 32 -> 1 <= roundPercent m n.
Proof.
  intros Hm Hn Hb. unfold roundPercent.
  destruct (divide_bounds m n) as (He & Hr & Hp); try lia.
  destruct (Hp ltac:(lia)) as (He52 & Hge). clear Hp.
  set (x := divide m n) in *.
  pose proof (pow2_le 52 (- exponent x) ltac:(lia)) as P52.
  set (P := pow2 (- exponent x)) in *.
  assert (Hx : P <= 200 * mantissa x).
  { assert (K : (P + 199) / 200 <= mantissa x).
    { apply Hge.
      pose proof (Z.div_mod (P + 199) 200 ltac:(lia)) as D.
      pose proof (Z.mod_pos_bound (P + 199) 200 ltac:(lia)) as B.
      assert (T : 2 ^ 32 * 199 <= 2 ^ 52) by (vm_compute; discriminate).
      nia. }
    pose proof (Z.div_mod (P + 199) 200 ltac:(lia)) as D.
    pose proof (Z.mod_pos_bound (P + 199) 200 ltac:(lia)) as B.
    lia. }
  destruct (multiply_bounds x He Hr) as (_ & Hr' & Hp').
  destruct (Hp' ltac:(lia)) as (He45 & Hge'). clear Hp'.
  set (y := multiply x 100) in *.
  unfold mathRound.
  rewrite (pow2_nonpos (exponent y)), Z.mul_1_r by lia.
  assert (E : pow2 (- exponent y) = 2 * pow2 (- exponent y - 1)).
  { rewrite <- pow2_double by lia. f_equal. lia. }
  fold P in Hge'.
  rewrite E in *.
  set (Q := pow2 (- exponent y - 1)) in *.
  assert (HQ : 0 < Q) by apply pow2_pos.
  assert (Hy : Q <= mantissa y) by (apply Hge'; nia).
  apply Z.div_le_lower_bound; lia.
Qed.

(** Up to 200 wanted skills, one counted match gives at least 1 percent;
    the fraction 1/200 itself comes out as a half. *)
Lemma roundPercent_some (m n : Z) :
  1 <= m <= n -> n <= 200 -> 1 <= roundPercent m n.
Proof.
  intros Hm Hn.
  destruct (Z.eq_dec n (200 * m)) as [E|E].
  - assert (m = 1) by lia. subst m n. vm_compute. discriminate.
  - apply roundPercent_above; [lia | lia |].
    apply Z.le_trans with (m := 200); [exact Hn | vm_compute; discriminate].
Qed.

(** [roundPercent] computes what IEEE 754 arithmetic at the parameters of
    binary64 computes, for every count and length up to 64. *)
Lemma roundPercent_IEEE (m n : Z) :
  0 <= m <= n -> 1 <= n <= 64 ->
  roundPercentIEEE m n = Some (roundPercent m n).
Proof.
  intros Hm Hn.
  assert (G : forallb (fun n =>
                forallb (fun m =>
                  match roundPercentIEEE (Z.of_nat m) (Z.of_nat n) with
                  | Some r => r =? roundPercent (Z.of_nat m) (Z.of_nat n)
                  | None => false
                  end) (seq 0 (S n))) (seq 1 64) = true)
    by (vm_compute; reflexivity).
  rewrite forallb_forall in G.
  specialize (G (Z.to_nat n) ltac:(apply in_seq; lia)).
  rewrite forallb_forall in G.
  specialize (G (Z.to_nat m) ltac:(apply in_seq; lia)).
  rewrite !Z2Nat.id in G by lia.
  destruct (roundPercentIEEE m n) as [r|]; [|discriminate G].
  apply Z.eqb_eq in G. subst r. reflexivity.
Qed.
(** What a returned score satisfies, in terms of the match count. *)
Lemma calculateLocalMatchScore_counts (wanted has : list JsValue)
  (r : MatchResult) :
  calculateLocalMatchScore wanted has = Ok r ->
  0 <= score r <= 100
  /\ (matchedSkills r = [] -> score r = 0)
  /\ (score r = 0 -> (List.length wanted <= 200)%nat -> matchedSkills r = []).
Proof.
  unfold calculateLocalMatchScore.
  destruct ((Z.of_nat (List.length wanted) =? 0)
            || (Z.of_nat (List.length has) =? 0)) eqn:G.
  - intro H. inversion H; subst. simpl. repeat split; auto; lia.
  - apply orb_false_iff in G. destruct G as [Gw _].
    apply Z.eqb_neq in Gw.
    destruct (scanWanted wanted has [] 0) as [[matched count]|e] eqn:S;
      simpl; [|discriminate].
    intro H. inversion H; subst; clear H. simpl.
    destruct (scanWanted_count _ _ _ _ _ _ S) as (new & Hm & Hc & Hl).
    simpl in Hm. subst matched.
    assert (Hn : 0 < Z.of_nat (List.length wanted)) by lia.
    assert (Hr : 0 <= count <= Z.of_nat (List.length wanted)) by lia.
    split; [apply roundPercent_range; assumption|].
    split.
    + intro E. apply (proj1 (arrayFromSet_nil new)) in E. subst new.
      simpl in Hc.
      subst count. apply roundPercent_none.
    + intros E L.
      apply (proj2 (arrayFromSet_nil new)).
      destruct new as [|x new]; [reflexivity|].
      simpl List.length in Hc, Hl.
      pose proof (roundPercent_some count (Z.of_nat (List.length wanted))
                    ltac:(lia) ltac:(lia)).
      lia.
Qed.

(** C7, as stated, fails: with 201 wanted skills of which one is matched
    the percentage 100/201 rounds to 0 although [matchedSkills] is not
    empty. *)
Lemma score_zero_with_a_match :
  ~ (forall (wanted has : list JsValue) (r : MatchResult),
       calculateLocalMatchScore wanted has = Ok r ->
       (score r = 0 <-> matchedSkills r = [])).
Proof.
  intro H.
  specialize (H (map JsStr ("python" :: repeat "zzz" 200)) [JsStr "python"]
                {| score := 0; matchedSkills := [JsStr "python"] |}).
  assert (E : calculateLocalMatchScore
                (map JsStr ("python" :: repeat "zzz" 200)) [JsStr "python"]
              = Ok {| score := 0; matchedSkills := [JsStr "python"] |})
    by (vm_compute; reflexivity).
  specialize (H E). simpl in H. destruct H as [H _].
  specialize (H eq_refl). discriminate H.
Qed.

(** C7 (amended): for every wanted list and has list, the score is an
    integer in [0,100]; an empty [matchedSkills] gives score 0, and score 0
    gives an empty [matchedSkills] when there are at most 200 wanted skills;
    if wanted or has is empty the result is (0, {}); on lists of strings
    the function returns. *)
Theorem calculateLocalMatchScore_spec (wanted has : list JsValue) :
  (wanted = [] \/ has = [] ->
   calculateLocalMatchScore wanted has = Ok zeroResult)
  /\ (forallb isString wanted = true -> forallb isString has = true ->
      exists r, calculateLocalMatchScore wanted has = Ok r)
  /\ (forall r, calculateLocalMatchScore wanted has = Ok r ->
      0 <= score r <= 100
      /\ (matchedSkills r = [] -> score r = 0)
      /\ (score r = 0 -> (List.length wanted <= 200)%nat ->
          matchedSkills r = [])).
Proof.
  split; [|split].
  - intros [-> | ->]; unfold calculateLocalMatchScore; simpl.
    + reflexivity.
    + rewrite orb_true_r. reflexivity.
  - intros Hw Hh. unfold calculateLocalMatchScore.
    destruct ((Z.of_nat (List.length wanted) =? 0)
              || (Z.of_nat (List.length has) =? 0)).
    + eexists. reflexivity.
    + destruct (scanWanted_strings wanted has [] 0 Hw Hh) as [[m c] ->].
      eexists. reflexivity.
  - intros r H. exact (calculateLocalMatchScore_counts wanted has r H).
Qed.

(** The example of the design document: wanted python and guitar, offered
    "Python Programming" and "Photography": score 50, one matched skill. *)
Lemma calculateLocalMatchScore_spec_witness :
  calculateLocalMatchScore
    [JsStr "python"; JsStr "guitar"]
    [JsStr "Python Programming"; JsStr "Photography"]
  = Ok {| score := 50; matchedSkills := [JsStr "Python Programming"] |}
  /\ 0 <= 50 <= 100.
Proof.
  split; [reflexivity|].
  destruct (calculateLocalMatchScore_spec
              [JsStr "python"; JsStr "guitar"]
              [JsStr "Python Programming"; JsStr "Photography"])
    as [_ [_ H]].
  exact (proj1 (H {| score := 50;
                     matchedSkills := [JsStr "Python Programming"] |}
                  eq_refl)).
Defined.

(** ** Sorting *)

Section ArraySort.

Context {A : Type}.
Variable compare : A -> A -> Z.

Lemma insertBy_perm (x : A) (l : list A) :
  Permutation (insertBy compare x l) (x :: l).
Proof.
  induction l as [|y l IH]; simpl.
  - apply Permutation_refl.
  - destruct (compare x y <=? 0).
    + apply Permutation_refl.
    + apply perm_trans with (y :: x :: l).
      * apply perm_skip, IH.
      * apply perm_swap.
Qed.

Lemma arraySort_perm (l : list A) : Permutation (arraySort compare l) l.
Proof.
  induction l as [|x l IH]; simpl.
  - apply perm_nil.
  - apply perm_trans with (x :: arraySort compare l).
    + apply insertBy_perm.
    + apply perm_skip, IH.
Qed.

(** An element inserted into a list passes only elements it must follow;
    a class of mutually tied elements therefore keeps its order. *)
Lemma filter_insertBy (p : A -> bool) (x : A) (l : list A) :
  (forall y, p x = true -> p y = true -> compare x y <= 0) ->
  filter p (insertBy compare x l) = filter p (x :: l).
Proof.
  intro Htie. induction l as [|y l IH]; simpl.
  - reflexivity.
  - destruct (compare x y <=? 0) eqn:C.
    + reflexivity.
    + simpl. simpl in IH. rewrite IH.
      destruct (p x) eqn:Px, (p y) eqn:Py; try reflexivity.
      apply Z.leb_gt in C. specialize (Htie y eq_refl Py). lia.
Qed.

Lemma arraySort_stable (p : A -> bool) (l : list A) :
  (forall x y, p x = true -> p y = true -> compare x y <= 0) ->
  filter p (arraySort compare l) = filter p l.
Proof.
  intro Htie. induction l as [|x l IH]; simpl.
  - reflexivity.
  - rewrite filter_insertBy by (intro y; apply Htie).
    simpl. rewrite IH. reflexivity.
Qed.

Hypothesis compare_total :
  forall a b, compare a b <= 0 \/ compare b a <= 0.
Hypothesis compare_trans :
  forall a b c, compare a b <= 0 -> compare b c <= 0 -> compare a c <= 0.

Lemma insertBy_sorted (x : A) (l : list A) :
  StronglySorted (precedes compare) l ->
  StronglySorted (precedes compare) (insertBy compare x l).
Proof.
  induction 1 as [|y l Hl IH Hy]; simpl.
  - constructor; constructor.
  - destruct (compare x y <=? 0) eqn:C.
    + apply Z.leb_le in C. constructor.
      * constructor; assumption.
      * constructor; [exact C|].
        apply Forall_impl with (P := precedes compare y); [|exact Hy].
        intros z Hz. exact (compare_trans x y z C Hz).
    + apply Z.leb_gt in C. constructor; [exact IH|].
      eapply Permutation_Forall.
      * apply Permutation_sym, insertBy_perm.
      * constructor; [|exact Hy].
        destruct (compare_total x y) as [H|H]; [lia|exact H].
Qed.

Lemma arraySort_sorted (l : list A) :
  StronglySorted (precedes compare) (arraySort compare l).
Proof.
  induction l as [|x l IH]; simpl.
  - constructor.
  - apply insertBy_sorted, IH.
Qed.

End ArraySort.

(** ** Ranking *)

Lemma compareMentors_precedes (a b : RankedMentor) :
  precedes compareMentors a b <-> rankedBefore a b.
Proof.
  unfold precedes, compareMentors, rankedBefore.
  destruct (matchScore b =? matchScore a) eqn:E; simpl.
  - apply Z.eqb_eq in E. lia.
  - apply Z.eqb_neq in E. lia.
Qed.

Lemma compareMentors_total (a b : RankedMentor) :
  compareMentors a b <= 0 \/ compareMentors b a <= 0.
Proof.
  destruct (compareMentors_precedes a b) as [_ Hab].
  destruct (compareMentors_precedes b a) as [_ Hba].
  unfold precedes, rankedBefore in *.
  destruct (Z.lt_trichotomy (matchScore a) (matchScore b)) as [H|[H|H]].
  - right. apply Hba. lia.
  - destruct (Z.le_ge_cases (matchedCount a) (matchedCount b)).
    + right. apply Hba. lia.
    + left. apply Hab. lia.
  - left. apply Hab. lia.
Qed.

Lemma compareMentors_trans (a b c : RankedMentor) :
  compareMentors a b <= 0 -> compareMentors b c <= 0 ->
  compareMentors a c <= 0.
Proof.
  intros Hab Hbc.
  apply (compareMentors_precedes a b) in Hab.
  apply (compareMentors_precedes b c) in Hbc.
  apply (compareMentors_precedes a c).
  unfold rankedBefore in *. lia.
Qed.

Lemma compareMentors_tie (s k : Z) (x y : RankedMentor) :
  inTie s k x = true -> inTie s k y = true -> compareMentors x y <= 0.
Proof.
  unfold inTie. intros Hx Hy.
  apply andb_true_iff in Hx. apply andb_true_iff in Hy.
  destruct Hx as [Hx1 Hx2], Hy as [Hy1 Hy2].
  apply Z.eqb_eq in Hx1, Hx2, Hy1, Hy2.
  apply (compareMentors_precedes x y). unfold rankedBefore. lia.
Qed.

Lemma StronglySorted_impl {A : Type} (R S : A -> A -> Prop) (l : list A) :
  (forall a b, R a b -> S a b) -> StronglySorted R l -> StronglySorted S l.
Proof.
  intros H. induction 1 as [|x l Hl IH Hx]; constructor.
  - exact IH.
  - apply Forall_impl with (P := R x); [apply H | exact Hx].
Qed.

Lemma In_firstn {A : Type} (n : nat) (l : list A) (x : A) :
  In x (firstn n l) -> In x l.
Proof.
  revert l. induction n as [|n IH]; intros [|y l]; simpl; try tauto.
  intros [H|H]; [left; exact H | right; apply IH, H].
Qed.

Lemma length_firstn_le {A : Type} (n : nat) (l : list A) :
  (List.length (firstn n l) <= n)%nat.
Proof.
  revert l. induction n as [|n IH]; intros [|y l]; simpl; try lia.
  specialize (IH l). lia.
Qed.

Lemma filter_positive_nonzero (pool : list RankedMentor) :
  Forall (fun m => 0 <= matchScore m) pool ->
  filter positiveScore pool
  = filter (fun m => negb (matchScore m =? 0)) pool.
Proof.
  induction 1 as [|m pool Hm _ IH]; simpl.
  - reflexivity.
  - rewrite IH. unfold positiveScore.
    destruct (0 <? matchScore m) eqn:P, (matchScore m =? 0) eqn:Z0;
      simpl; try reflexivity.
    + apply Z.ltb_lt in P. apply Z.eqb_eq in Z0. lia.
    + apply Z.ltb_ge in P. apply Z.eqb_neq in Z0. lia.
Qed.

(** The ranking step on its own: the first 20 entries of a list [sorted]
    that holds exactly the candidates of positive score (for scores that are
    never negative: those whose score is not 0), descending by score, ties
    by the number of matched skills descending, candidates tied on both in
    the order the pool lists them. *)
Lemma rankedMentors_sorted (pool : list RankedMentor) :
  exists sorted,
    rankedMentors pool = firstn 20 sorted
    /\ Permutation sorted (filter positiveScore pool)
    /\ (Forall (fun m => 0 <= matchScore m) pool ->
        Permutation sorted
          (filter (fun m => negb (matchScore m =? 0)) pool))
    /\ StronglySorted rankedBefore sorted
    /\ (forall s k,
          filter (inTie s k) sorted = filter (inTie s k) (filter positiveScore pool))
    /\ Forall (fun m => matchScore m <> 0) (rankedMentors pool)
    /\ (List.length (rankedMentors pool) <= 20)%nat.
Proof.
  exists (arraySort compareMentors (filter positiveScore pool)).
  assert (P : Permutation (arraySort compareMentors (filter positiveScore pool))
                          (filter positiveScore pool))
    by apply arraySort_perm.
  split; [reflexivity|].
  split; [exact P|].
  split; [intro H; rewrite <- (filter_positive_nonzero pool H); exact P|].
  split.
  { apply StronglySorted_impl with (R := precedes compareMentors).
    - intros a b. apply compareMentors_precedes.
    - apply arraySort_sorted.
      + apply compareMentors_total.
      + apply compareMentors_trans. }
  split.
  { intros s k. apply arraySort_stable. apply compareMentors_tie. }
  split.
  { apply Forall_forall. intros m Hm.
    apply In_firstn in Hm.
    apply (Permutation_in _ P) in Hm.
    apply filter_In in Hm. destruct Hm as [_ Hm].
    unfold positiveScore in Hm. apply Z.ltb_lt in Hm. lia. }
  apply length_firstn_le.
Qed.

(** ** The document store *)

Lemma compare_refl (id : string) : (id ?= id)%string = Eq.
Proof.
  pose proof (String.compare_antisym id id) as H.
  destruct (id ?= id)%string; [reflexivity | discriminate H | discriminate H].
Qed.

Lemma compare_not_eq (id id' : string) :
  (id ?= id')%string <> Eq -> (id =? id')%string = false.
Proof.
  intro H. apply String.eqb_neq. intro E. apply H.
  subst id'. apply compare_refl.
Qed.

Lemma getDoc_setDoc_same {A : Type} (id : DocId) (a : A) (c : Collection A) :
  getDoc id (setDoc id a c) = Some a.
Proof.
  induction c as [|[id' a'] c IH]; simpl.
  - rewrite String.eqb_refl. reflexivity.
  - destruct (id ?= id')%string eqn:C; simpl.
    + rewrite String.eqb_refl. reflexivity.
    + rewrite String.eqb_refl. reflexivity.
    + rewrite compare_not_eq by (rewrite C; discriminate). exact IH.
Qed.


(** A document added under an id not yet in use is one more document; the
    others stay. *)
Lemma setDoc_fresh {A : Type} (id : DocId) (a : A) (c : Collection A) :
  getDoc id c = None -> Permutation (setDoc id a c) ((id, a) :: c).
Proof.
  induction c as [|[id' a'] c IH]; simpl; intro H.
  - apply Permutation_refl.
  - destruct (id =? id')%string eqn:E; [discriminate H|].
    destruct (id ?= id')%string eqn:C.
    + apply String.compare_eq_iff in C. apply String.eqb_neq in E.
      contradiction.
    + apply Permutation_refl.
    + apply perm_trans with ((id', a') :: (id, a) :: c).
      * apply perm_skip, IH, H.
      * apply perm_swap.
Qed.

Lemma updateDoc_found {A : Type} (id : DocId) (f : A -> A) (a : A)
  (c : Collection A) :
  getDoc id c = Some a ->
  exists c',
    updateDoc id f c = Some c'
    /\ getDoc id c' = Some (f a)
    /\ (forall id2, id2 <> id -> getDoc id2 c' = getDoc id2 c)
    /\ List.length c' = List.length c.
Proof.
  induction c as [|[id' a'] c IH]; simpl; intro H.
  - discriminate H.
  - destruct (id =? id')%string eqn:E.
    + inversion H; subst a'. apply String.eqb_eq in E. subst id'.
      eexists. split; [reflexivity|]. simpl.
      rewrite String.eqb_refl. split; [reflexivity|]. split; [|reflexivity].
      intros id2 N. apply String.eqb_neq in N. rewrite N. reflexivity.
    + destruct (IH H) as (c' & U & G & O & L). rewrite U. simpl.
      eexists. split; [reflexivity|]. simpl. rewrite E.
      split; [exact G|]. split.
      * intros id2 N. destruct (id2 =? id')%string; [reflexivity|].
        apply O, N.
      * rewrite L. reflexivity.
Qed.

Lemma getDoc_none_not_listed {A : Type} (id : DocId) (c : Collection A) :
  getDoc id c = None -> ~ In id (map fst c).
Proof.
  induction c as [|[id' a'] c IH]; simpl; intro H.
  - tauto.
  - destruct (id =? id')%string eqn:E; [discriminate H|].
    apply String.eqb_neq in E. intros [K|K].
    + apply E. symmetry. exact K.
    + exact (IH H K).
Qed.

(** ** RequestLifecycle *)

(** The room an accepting call writes. *)
Lemma respondToMentorRequest_found (db : Db) (requestId : DocId)
  (r : MentorRequest) (accept : bool) (tResponded : Z) (roomId : DocId)
  (tRoom : Z) :
  getDoc requestId (mentorRequests db) = Some r ->
  exists requests',
    updateDoc requestId (respond accept tResponded) (mentorRequests db)
    = Some requests'
    /\ getDoc requestId requests' = Some (respond accept tResponded r)
    /\ respondToMentorRequest requestId accept tResponded roomId tRoom db
       = (Ok tt,
          if accept then
            withChatRooms (withMentorRequests db requests')
              (setDoc roomId
                 {| participants := [senderId r; receiverId r];
                    userIds := [senderId r; receiverId r];
                    roomCreatedAt := tRoom;
                    lastMessageAt := tRoom |}
                 (chatRooms db))
          else withMentorRequests db requests').
Proof.
  intro H.
  destruct (updateDoc_found requestId (respond accept tResponded) r _ H)
    as (requests' & U & G & _ & _).
  exists requests'. split; [exact U|]. split; [exact G|].
  unfold respondToMentorRequest, bindOp, reads, updateMentorRequest.
  rewrite H, U. destruct accept; reflexivity.
Qed.

(** C3, as stated, fails on the time of the room: the accepting call makes
    two writes, each stamped by the server when it is served.  When the
    status write is served at 2 and the room write at 7, the request is
    accepted at 2 ([respondedAt]) and the room's [lastMessageAt] is 7. *)
Lemma lastMessageAt_is_not_respondedAt :
  let db' := snd (respondToMentorRequest "req1" true 2 "room1" 7
                    Scenario.requested) in
  option_map respondedAt (getDoc "req1" (mentorRequests db')) = Some (Some 2)
  /\ option_map lastMessageAt (getDoc "room1" (chatRooms db')) = Some 7
  /\ ~ (forall r room,
          getDoc "req1" (mentorRequests db') = Some r ->
          getDoc "room1" (chatRooms db') = Some room ->
          respondedAt r = Some (lastMessageAt room)).
Proof.
  vm_compute. split; [reflexivity|]. split; [reflexivity|].
  intro H. specialize (H _ _ eq_refl eq_refl). discriminate H.
Qed.

(** C3 (amended): for every pending request with sender A and receiver B,
    [respondToMentorRequest] with [accept = true] sets the status to
    accepted, stamps [respondedAt] with the server time of the status write,
    and creates exactly one chat room, whose participants are A and B and
    whose [lastMessageAt] and [createdAt] are both the server time of the
    room's own write, whatever the time of the status write was; with
    [accept = false] it sets the status to rejected and creates no chat
    room; on an id without a request it fails with the not-found error and
    writes nothing. *)
Theorem respondToMentorRequest_spec (db : Db) (requestId : DocId)
  (tResponded : Z) (roomId : DocId) (tRoom : Z) :
  (getDoc requestId (mentorRequests db) = None ->
   forall accept,
     respondToMentorRequest requestId accept tResponded roomId tRoom db
     = (Throw NotFoundError, db))
  /\ (forall r,
        getDoc requestId (mentorRequests db) = Some r ->
        status r = pending ->
        getDoc roomId (chatRooms db) = None ->
        (exists db' r' room,
           respondToMentorRequest requestId true tResponded roomId tRoom db
           = (Ok tt, db')
           /\ getDoc requestId (mentorRequests db') = Some r'
           /\ status r' = accepted
           /\ respondedAt r' = Some tResponded
           /\ (senderId r', receiverId r') = (senderId r, receiverId r)
           /\ Permutation (chatRooms db') ((roomId, room) :: chatRooms db)
           /\ participants room = [senderId r; receiverId r]
           /\ participantsAre (senderId r) (receiverId r) room
           /\ lastMessageAt room = tRoom
           /\ roomCreatedAt room = tRoom)
        /\ (exists db' r',
              respondToMentorRequest requestId false tResponded roomId tRoom db
              = (Ok tt, db')
              /\ getDoc requestId (mentorRequests db') = Some r'
              /\ status r' = rejected
              /\ respondedAt r' = Some tResponded
              /\ chatRooms db' = chatRooms db)).
Proof.
  split.
  - intros H accept.
    unfold respondToMentorRequest, bindOp, reads. rewrite H. reflexivity.
  - intros r H _ F. split.
    + destruct (respondToMentorRequest_found db requestId r true tResponded
                  roomId tRoom H) as (requests' & _ & G & E).
      eexists. exists (respond true tResponded r). eexists.
      split; [exact E|]. simpl.
      split; [exact G|].
      do 3 (split; [reflexivity|]).
      split; [apply setDoc_fresh, F|].
      split; [reflexivity|].
      split; [|split; reflexivity].
      intro u. simpl. split.
      * intros [K|[K|[]]]; [left|right]; symmetry; exact K.
      * intros [K|K]; [left|right; left]; symmetry; exact K.
    + destruct (respondToMentorRequest_found db requestId r false tResponded
                  roomId tRoom H) as (requests' & _ & G & E).
      eexists. exists (respond false tResponded r).
      split; [exact E|]. simpl.
      split; [exact G|]. repeat split; reflexivity.
Qed.

Lemma respondToMentorRequest_spec_witness :
  exists db',
    respondToMentorRequest "req1" true 2 "room1" 7 Scenario.requested
    = (Ok tt, db')
    /\ chatRooms db'
       = [("room1", {| participants := ["alice"; "bob"];
                       userIds := ["alice"; "bob"];
                       roomCreatedAt := 7;
                       lastMessageAt := 7 |})].
Proof.
  destruct (respondToMentorRequest_spec Scenario.requested "req1" 2 "room1" 7)
    as [_ H].
  destruct (H {| senderId := "alice"; receiverId := "bob";
                 message := "hello"; status := pending; createdAt := 1;
                 respondedAt := None |} eq_refl eq_refl eq_refl)
    as [(db' & r' & room & E & _) _].
  exists db'. split; [exact E|].
  vm_compute in E. inversion E. reflexivity.
Defined.

(** C2, as stated, fails: the request "req1" is accepted (a terminal
    state); a further [respondToMentorRequest] with [accept = false] turns it
    into rejected, and a further one with [accept = true] creates a second
    chat room. *)
Lemma respond_leaves_terminal_state :
  option_map status (getDoc "req1" (mentorRequests Scenario.accepted1))
  = Some accepted
  /\ option_map status
       (getDoc "req1"
          (mentorRequests
             (snd (respondToMentorRequest "req1" false 3 "room2" 3
                     Scenario.accepted1))))
     = Some rejected
  /\ List.length (chatRooms Scenario.accepted1) = 1%nat
  /\ List.length
       (chatRooms
          (snd (respondToMentorRequest "req1" true 3 "room2" 3
                  Scenario.accepted1)))
     = 2%nat.
Proof. vm_compute. repeat split; reflexivity. Qed.

(** C2 (amended): [respondToMentorRequest] does not look at the current
    status.  On every existing request, pending, accepted or rejected, it
    succeeds, sets the status to accepted or rejected as [accept] says and
    stamps [respondedAt]; with [accept = true] it adds one chat room each
    time (under a new id), with [accept = false] none. *)
Theorem respondToMentorRequest_any_status (db : Db) (requestId : DocId)
  (r : MentorRequest) (accept : bool) (tResponded : Z) (roomId : DocId)
  (tRoom : Z) :
  getDoc requestId (mentorRequests db) = Some r ->
  getDoc roomId (chatRooms db) = None ->
  exists db' r',
    respondToMentorRequest requestId accept tResponded roomId tRoom db
    = (Ok tt, db')
    /\ getDoc requestId (mentorRequests db') = Some r'
    /\ status r' = (if accept then accepted else rejected)
    /\ respondedAt r' = Some tResponded
    /\ List.length (chatRooms db')
       = if accept then S (List.length (chatRooms db))
         else List.length (chatRooms db).
Proof.
  intros H F.
  destruct (respondToMentorRequest_found db requestId r accept tResponded
              roomId tRoom H) as (requests' & _ & G & E).
  eexists. exists (respond accept tResponded r).
  split; [exact E|].
  destruct accept; simpl; (split; [exact G|]); repeat split.
  apply (Permutation_length (setDoc_fresh roomId _ (chatRooms db) F)).
Qed.

Lemma respondToMentorRequest_any_status_witness :
  exists db' r',
    respondToMentorRequest "req1" false 3 "room2" 3 Scenario.accepted1
    = (Ok tt, db')
    /\ getDoc "req1" (mentorRequests db') = Some r'
    /\ status r' = rejected.
Proof.
  destruct (respondToMentorRequest_any_status Scenario.accepted1 "req1"
              {| senderId := "alice"; receiverId := "bob";
                 message := "hello"; status := accepted; createdAt := 1;
                 respondedAt := Some 2 |}
              false 3 "room2" 3 eq_refl eq_refl)
    as (db' & r' & E & G & S & _).
  exists db', r'. repeat split; assumption.
Defined.

(** The duplicate check as far as it goes: when the first request the query
    enumerates for the ordered pair is pending or accepted, the call fails
    and writes nothing. *)
Lemma sendMentorRequest_duplicate (moderateContent : Moderator) (db : Db)
  (fromUserId toUserId : string) (newId : DocId) (now : Z)
  (id : DocId) (existing : MentorRequest) (others : Collection MentorRequest) :
  requestsBetween fromUserId toUserId db = (id, existing) :: others ->
  isActive (status existing) = true ->
  sendMentorRequest moderateContent fromUserId toUserId "" newId now db
  = (Throw DuplicateRequestError, db).
Proof.
  intros Q S.
  unfold sendMentorRequest, bindOp, lift, reads. simpl.
  rewrite Q, S. reflexivity.
Qed.

(** The reverse direction is a different key: requests from [toUserId] to
    [fromUserId] are not in the query, whatever their status. *)
Lemma sendMentorRequest_reverse_allowed (moderateContent : Moderator)
  (db : Db) (fromUserId toUserId : string) (newId : DocId) (now : Z) :
  requestsBetween fromUserId toUserId db = [] ->
  exists request,
    sendMentorRequest moderateContent fromUserId toUserId "" newId now db
    = (Ok (newId, request),
       withMentorRequests db (setDoc newId request (mentorRequests db)))
    /\ status request = pending.
Proof.
  intro Q. eexists.
  unfold sendMentorRequest, bindOp, lift, reads, writes, ret. simpl.
  rewrite Q. split; reflexivity.
Qed.

(** C4, where the code departs from it: the duplicate check reads only the
    first document of the query.  When that one is rejected the request is
    created, even though a later document of the same ordered pair is pending
    or accepted. *)
Theorem sendMentorRequest_checks_first_document_only
  (moderateContent : Moderator) (db : Db) (fromUserId toUserId : string)
  (newId : DocId) (now : Z) (id1 id2 : DocId) (r1 r2 : MentorRequest)
  (others : Collection MentorRequest) :
  requestsBetween fromUserId toUserId db = (id1, r1) :: others ->
  status r1 = rejected ->
  In (id2, r2) others ->
  isActive (status r2) = true ->
  let request := {| senderId := fromUserId; receiverId := toUserId;
                    message := ""; status := pending; createdAt := now;
                    respondedAt := None |} in
  sendMentorRequest moderateContent fromUserId toUserId "" newId now db
  = (Ok (newId, request),
     withMentorRequests db (setDoc newId request (mentorRequests db))).
Proof.
  intros Q S _ _.
  unfold sendMentorRequest, bindOp, lift, reads, writes, ret. simpl.
  rewrite Q, S. reflexivity.
Qed.

(** The failing input: Alice's first request to Bob was declined, her second
    one ("req2") is pending; a third request for the same ordered pair is
    created.  The reverse direction, Bob to Alice, is not deduplicated. *)
Lemma sendMentorRequest_checks_first_document_only_witness :
  map (fun d => (fst d, status (snd d)))
      (requestsBetween "alice" "bob" Scenario.requestedAgain)
  = [("req1", rejected); ("req2", pending)]
  /\ fst (sendMentorRequest Scenario.allowAll "alice" "bob" "" "req3" 4
            Scenario.requestedAgain)
     = Ok ("req3", {| senderId := "alice"; receiverId := "bob";
                      message := ""; status := pending; createdAt := 4;
                      respondedAt := None |})
  /\ map (fun d => (fst d, status (snd d)))
         (requestsBetween "alice" "bob"
            (snd (sendMentorRequest Scenario.allowAll "alice" "bob" "" "req3" 4
                    Scenario.requestedAgain)))
     = [("req1", rejected); ("req2", pending); ("req3", pending)]
  /\ fst (sendMentorRequest Scenario.allowAll "bob" "alice" "" "req3" 4
            Scenario.requestedAgain)
     = Ok ("req3", {| senderId := "bob"; receiverId := "alice";
                      message := ""; status := pending; createdAt := 4;
                      respondedAt := None |}).
Proof.
  split; [reflexivity|]. split; [|split; reflexivity].
  rewrite (sendMentorRequest_checks_first_document_only
              Scenario.allowAll Scenario.requestedAgain "alice" "bob" "req3" 4
              "req1" "req2"
              {| senderId := "alice"; receiverId := "bob"; message := "hello";
                 status := rejected; createdAt := 1; respondedAt := Some 2 |}
              {| senderId := "alice"; receiverId := "bob"; message := "";
                 status := pending; createdAt := 3; respondedAt := None |}
              [("req2",
                {| senderId := "alice"; receiverId := "bob"; message := "";
                   status := pending; createdAt := 3; respondedAt := None |})]
              eq_refl eq_refl (or_introl eq_refl) eq_refl).
  reflexivity.
Defined.

(** ** Channel *)

(** The moderation block of [sendMessage] lets every text through: the
    [throw] for an unsafe text sits inside the [try] whose [catch] only
    warns. *)
Lemma moderateChatMessage_never_throws (moderateContent : Moderator)
  (body : string) :
  moderateChatMessage moderateContent body = Ok tt.
Proof.
  unfold moderateChatMessage, tryCatch, bindR.
  destruct (moderateContent body "chat") as [m|e]; [|reflexivity].
  destruct (safe m); reflexivity.
Qed.

Lemma sendMessage_messages (moderateContent : Moderator) (db : Db)
  (roomId sender body : string) (messageId : DocId) (tMessage tRoom : Z) :
  messages (snd (sendMessage moderateContent roomId sender body messageId
                   tMessage tRoom db))
  = setDoc messageId
      {| chatRoomId := roomId; messageSenderId := sender; text := body;
         messageCreatedAt := tMessage |}
      (messages db).
Proof.
  unfold sendMessage, bindOp, lift, writes, updateChatRoom.
  rewrite moderateChatMessage_never_throws. simpl.
  destruct (updateDoc roomId (touchRoom tRoom) (chatRooms db)); reflexivity.
Qed.

(** C1, where the code departs from it: for every channel, sender and text
    for which the moderation service answers unsafe, [sendMessage] does not
    fail with the blocked-message error: the message is stored, and the call
    returns normally when the chat room exists. *)
Theorem sendMessage_ignores_unsafe_verdict (moderateContent : Moderator)
  (db : Db) (roomId sender body : string) (messageId : DocId)
  (tMessage tRoom : Z) (verdict : Moderation) :
  moderateContent body "chat" = Ok verdict ->
  safe verdict = false ->
  let out := sendMessage moderateContent roomId sender body messageId
               tMessage tRoom db in
  fst out <> Throw (MessageBlocked (moderationReason verdict))
  /\ getDoc messageId (messages (snd out))
     = Some {| chatRoomId := roomId; messageSenderId := sender;
               text := body; messageCreatedAt := tMessage |}
  /\ (forall room, getDoc roomId (chatRooms db) = Some room ->
      fst out = Ok tt).
Proof.
  intros _ _ out. subst out. split; [|split].
  - unfold sendMessage, bindOp, lift, writes, updateChatRoom.
    rewrite moderateChatMessage_never_throws. simpl.
    destruct (updateDoc roomId (touchRoom tRoom) (chatRooms db));
      simpl; discriminate.
  - rewrite sendMessage_messages. apply getDoc_setDoc_same.
  - intros room R.
    destruct (updateDoc_found roomId (touchRoom tRoom) room _ R)
      as (rooms' & U & _).
    unfold sendMessage, bindOp, lift, writes, updateChatRoom.
    rewrite moderateChatMessage_never_throws. simpl.
    rewrite U. reflexivity.
Qed.

(** The failing input: the moderation service answers unsafe for the text,
    and [sendMessage] returns normally with the message stored. *)
Lemma sendMessage_ignores_unsafe_verdict_witness :
  Scenario.rejectAll "insult" "chat"
  = Ok {| safe := false; moderationReason := "abusive language" |}
  /\ fst (sendMessage Scenario.rejectAll "room1" "alice" "insult" "msg1" 5 5
            Scenario.accepted1)
     = Ok tt
  /\ messages (snd (sendMessage Scenario.rejectAll "room1" "alice" "insult"
                      "msg1" 5 5 Scenario.accepted1))
     = [("msg1", {| chatRoomId := "room1"; messageSenderId := "alice";
                    text := "insult"; messageCreatedAt := 5 |})].
Proof.
  split; [reflexivity|]. split; [|reflexivity].
  destruct (sendMessage_ignores_unsafe_verdict Scenario.rejectAll
              Scenario.accepted1 "room1" "alice" "insult" "msg1" 5 5
              {| safe := false; moderationReason := "abusive language" |}
              eq_refl eq_refl)
    as (_ & _ & H).
  exact (H {| participants := ["alice"; "bob"]; userIds := ["alice"; "bob"];
              roomCreatedAt := 2; lastMessageAt := 2 |} eq_refl).
Defined.

Lemma setDoc_In {A : Type} (id : DocId) (a : A) (c : Collection A) :
  In (id, a) (setDoc id a c).
Proof.
  induction c as [|[id' a'] c IH]; simpl.
  - left. reflexivity.
  - destruct (id ?= id')%string; simpl; auto.
Qed.

Lemma getMessages_lists_sent (moderateContent : Moderator) (db : Db)
  (roomId sender body : string) (messageId : DocId) (tMessage tRoom : Z) :
  In messageId
     (map fst
        (getMessages roomId
           (snd (sendMessage moderateContent roomId sender body messageId
                   tMessage tRoom db)))).
Proof.
  unfold getMessages. rewrite sendMessage_messages.
  apply in_map_iff.
  exists (messageId,
          {| chatRoomId := roomId; messageSenderId := sender; text := body;
             messageCreatedAt := tMessage |}).
  split; [reflexivity|].
  apply (Permutation_in _ (Permutation_sym (arraySort_perm _ _))).
  apply filter_In. split.
  - apply setDoc_In.
  - unfold inRoom. simpl. apply String.eqb_refl.
Qed.

(** ** ReportCapture *)

Lemma perform_chatReports (a : Activity) (db : Db) :
  chatReports (perform a db) = chatReports db.
Proof.
  destruct a as [m f t msg newId now | requestId accept tR roomId tRoom
                 | m roomId sender body messageId tM tRoom]; simpl.
  - unfold sendMentorRequest, bindOp, lift, reads, writes, ret.
    destruct (if nonEmpty msg then _ else _) as [[]|e]; [|reflexivity].
    destruct (requestsBetween f t db) as [|[id existing] others];
      [reflexivity|].
    destruct (isActive (status existing)); reflexivity.
  - unfold respondToMentorRequest, bindOp, reads, throw, writes, ret,
      updateMentorRequest.
    destruct (getDoc requestId (mentorRequests db)) as [r|]; [|reflexivity].
    destruct (updateDoc requestId _ (mentorRequests db)); [|reflexivity].
    destruct accept; reflexivity.
  - unfold sendMessage, bindOp, lift, writes, updateChatRoom.
    rewrite moderateChatMessage_never_throws. simpl.
    destruct (updateDoc roomId _ (chatRooms db)); reflexivity.
Qed.

Lemma performAll_chatReports (activities : list Activity) (db : Db) :
  chatReports (performAll activities db) = chatReports db.
Proof.
  unfold performAll. revert db.
  induction activities as [|a activities IH]; simpl; intro db.
  - reflexivity.
  - rewrite IH. apply perform_chatReports.
Qed.

(** A capture that returns has stored this report, and nothing else. *)
Lemma reportChat_returns (db db1 : Db) (roomId reporter reportReason : string)
  (reportId rid : DocId) (now : Z) :
  reportChat roomId reporter reportReason reportId now db = (Ok rid, db1) ->
  exists room report,
    getDoc roomId (chatRooms db) = Some room
    /\ rid = reportId
    /\ reportMessages report = capturedMessages roomId db
    /\ reportParticipants report = participants room
    /\ reportStatus report = reportPending
    /\ db1 = withChatReports db (setDoc reportId report (chatReports db)).
Proof.
  unfold reportChat, bindOp, reads, throw, writes, ret.
  destruct (nonEmpty reportReason); [|discriminate].
  destruct (getDoc roomId (chatRooms db)) as [room|]; [|discriminate].
  intro H. inversion H; subst.
  exists room.
  exists {| reportChatRoomId := roomId;
            reporterId := reporter;
            reason := reportReason;
            reportParticipants := participants room;
            reportMessages := capturedMessages roomId db;
            reportStatus := reportPending;
            reportCreatedAt := now;
            reviewedAt := None;
            reviewedBy := None;
            adminNotes := None;
            actionTaken := None |}.
  repeat split.
Qed.

Lemma capturedMessages_sorted (roomId : DocId) (db : Db) :
  StronglySorted (fun a b => snapshotCreatedAt a <= snapshotCreatedAt b)
                 (capturedMessages roomId db).
Proof.
  unfold capturedMessages.
  apply StronglySorted_impl
    with (R := precedes (fun a b => snapshotCreatedAt a - snapshotCreatedAt b)).
  - unfold precedes. intros a b. lia.
  - apply arraySort_sorted; intros; lia.
Qed.

(** A capture leaves the messages where they are. *)
Lemma reportChat_messages (db : Db) (roomId reporter reportReason : string)
  (reportId : DocId) (now : Z) :
  messages (snd (reportChat roomId reporter reportReason reportId now db))
  = messages db.
Proof.
  unfold reportChat, bindOp, reads, throw, writes, ret.
  destruct (nonEmpty reportReason); [|reflexivity].
  destruct (getDoc roomId (chatRooms db)); reflexivity.
Qed.

Lemma length_capturedMessages (roomId : DocId) (db : Db) :
  List.length (capturedMessages roomId db)
  = List.length (getMessages roomId db).
Proof.
  unfold capturedMessages, getMessages.
  rewrite (Permutation_length (arraySort_perm _ _)).
  rewrite (Permutation_length (arraySort_perm _ _)).
  apply length_map.
Qed.

Lemma length_filter_fresh {A : Type} (f : DocId * A -> bool) (id : DocId)
  (a : A) (c : Collection A) :
  getDoc id c = None -> f (id, a) = true ->
  List.length (filter f (setDoc id a c)) = S (List.length (filter f c)).
Proof.
  intros F Hf. induction c as [|[id' a'] c IH]; simpl in *.
  - rewrite Hf. reflexivity.
  - destruct (id =? id')%string eqn:E; [discriminate F|].
    destruct (id ?= id')%string eqn:C; simpl.
    + apply String.compare_eq_iff in C. apply String.eqb_neq in E.
      contradiction.
    + rewrite Hf. reflexivity.
    + destruct (f (id', a')); simpl; rewrite (IH F); reflexivity.
Qed.

(** C5: a report's messages are frozen at capture time.  A capture that
    returns has stored a pending report whose messages are the channel's
    messages existing at that instant, each copied as senderId, text and
    createdAt only, sorted ascending by createdAt; no later activity on
    requests or channels changes the stored report; and after a message is
    sent under a new id the stored report is still the same, while
    [getMessages] lists the new message, one message more than the report
    holds. *)
Theorem reportChat_snapshot_frozen (db db1 : Db)
  (roomId reporter reportReason : string) (reportId rid : DocId) (now : Z) :
  reportChat roomId reporter reportReason reportId now db = (Ok rid, db1) ->
  exists report,
    getDoc rid (chatReports db1) = Some report
    /\ reportStatus report = reportPending
    /\ Permutation (reportMessages report)
         (map snapshotOf (filter (inRoom roomId) (messages db)))
    /\ StronglySorted
         (fun a b => snapshotCreatedAt a <= snapshotCreatedAt b)
         (reportMessages report)
    /\ (forall activities,
          getDoc rid (chatReports (performAll activities db1)) = Some report)
    /\ (forall moderateContent sender body messageId tMessage tRoom,
          getDoc messageId (messages db1) = None ->
          let db2 := snd (sendMessage moderateContent roomId sender body
                            messageId tMessage tRoom db1) in
          In messageId (map fst (getMessages roomId db2))
          /\ List.length (getMessages roomId db2)
             = S (List.length (reportMessages report))
          /\ getDoc rid (chatReports db2) = Some report).
Proof.
  intro H.
  pose proof (reportChat_messages db roomId reporter reportReason reportId now)
    as Hm.
  rewrite H in Hm. simpl in Hm.
  destruct (reportChat_returns _ _ _ _ _ _ _ _ H)
    as (room & report & _ & -> & M & _ & S & ->).
  exists report.
  assert (G : getDoc reportId
                (chatReports
                   (withChatReports db
                      (setDoc reportId report (chatReports db))))
              = Some report) by apply getDoc_setDoc_same.
  split; [exact G|].
  split; [exact S|].
  split; [rewrite M; apply arraySort_perm|].
  split; [rewrite M; apply capturedMessages_sorted|].
  split.
  - intro activities. rewrite performAll_chatReports. exact G.
  - intros m sender body messageId tMessage tRoom F db2.
    split; [apply getMessages_lists_sent|].
    split.
    + subst db2. rewrite M, length_capturedMessages.
      unfold getMessages.
      rewrite !(Permutation_length (arraySort_perm _ _)).
      rewrite sendMessage_messages.
      simpl messages at 2.
      apply length_filter_fresh; [exact F|].
      unfold inRoom. simpl. apply String.eqb_refl.
    + subst db2.
      change (sendMessage m roomId sender body messageId tMessage tRoom)
        with (fun d => sendMessage m roomId sender body messageId tMessage
                         tRoom d).
      rewrite <- G.
      apply (f_equal (getDoc reportId)).
      apply (perform_chatReports
               (SendMessage m roomId sender body messageId tMessage tRoom)).
Qed.

(** The example of the design document: a capture taken when two messages
    exist stores those two; after a third message is sent the stored report
    is the same, and [getMessages] returns three. *)
Lemma reportChat_snapshot_frozen_witness :
  exists report,
    getDoc "rep1" (chatReports Scenario.reported) = Some report
    /\ reportMessages report
       = [ {| snapshotSenderId := "alice"; snapshotText := "hi bob";
              snapshotCreatedAt := 10 |};
           {| snapshotSenderId := "bob"; snapshotText := "welcome";
              snapshotCreatedAt := 11 |} ]
    /\ getDoc "rep1"
         (chatReports
            (snd (sendMessage Scenario.allowAll "room1" "alice" "bye" "msg3"
                    30 30 Scenario.reported)))
       = Some report
    /\ map fst
         (getMessages "room1"
            (snd (sendMessage Scenario.allowAll "room1" "alice" "bye" "msg3"
                    30 30 Scenario.reported)))
       = ["msg1"; "msg2"; "msg3"].
Proof.
  destruct (reportChat_snapshot_frozen Scenario.chatting Scenario.reported
              "room1" "alice" "spam" "rep1" "rep1" 20 eq_refl)
    as (report & G & _ & _ & _ & _ & L).
  exists report. split; [exact G|].
  destruct (L Scenario.allowAll "alice" "bye" "msg3" 30 30 eq_refl)
    as (_ & _ & G2).
  split; [|split; [exact G2 | reflexivity]].
  vm_compute in G. inversion G. reflexivity.
Defined.

(** ** [searchMentors] and errors *)

(** The three places the [try] block can throw from: the profile read, the
    profiles query, the scoring of a candidate. *)
Lemma searchMentorsTry_profile_read_fails (e : Exn) (db : Db)
  (currentUserId : string) (searchQuery : option string)
  (searchSkills : option (list JsValue)) :
  searchMentorsTry (mkReadFaults (Some e) None) db currentUserId searchQuery
                   searchSkills
  = Throw e.
Proof. reflexivity. Qed.

Lemma searchMentorsTry_query_fails :
  searchMentorsTry (mkReadFaults None (Some (FirebaseError "unavailable")))
                   Scenario.campus "alice" None None
  = Throw (FirebaseError "unavailable").
Proof. reflexivity. Qed.

Lemma searchMentorsTry_scoring_fails :
  searchMentorsTry noFaults Scenario.campusWithCarol "alice" None None
  = Throw (TypeError "skill.toLowerCase is not a function").
Proof. reflexivity. Qed.

Lemma searchMentorsTry_finds_bob :
  option_map (map (fun m => (mentorId m, matchScore m, mentorMatchedSkills m)))
    (match searchMentors noFaults Scenario.campus "alice" None None with
     | Ok l => Some l
     | Throw _ => None
     end)
  = Some [("bob", 50, [JsStr "Python Programming"])].
Proof. reflexivity. Qed.

Lemma scoreMentor_range (skillsToMatch : list JsValue)
  (entry : DocId * Profile) (m : RankedMentor) :
  scoreMentor skillsToMatch entry = Ok m -> 0 <= matchScore m <= 100.
Proof.
  unfold scoreMentor.
  destruct (calculateLocalMatchScore skillsToMatch _) as [r|e] eqn:C;
    simpl; [|discriminate].
  intro H. inversion H; subst; simpl.
  exact (proj1 (calculateLocalMatchScore_counts _ _ _ C)).
Qed.

Lemma mapResult_Forall {A B : Type} (f : A -> Result B) (P : B -> Prop)
  (l : list A) (out : list B) :
  (forall a b, f a = Ok b -> P b) ->
  mapResult f l = Ok out -> Forall P out.
Proof.
  intro Hf. revert out. induction l as [|a l IH]; simpl; intros out H.
  - inversion H. constructor.
  - destruct (f a) as [b|e] eqn:Fa; simpl in H; [|discriminate H].
    destruct (mapResult f l) as [bs|e]; simpl in H; [|discriminate H].
    inversion H. constructor; [exact (Hf a b Fa) | apply IH; reflexivity].
Qed.

(** What [searchMentors] returns when its [try] block returns: nothing, or
    the ranking of the scored candidates, whose scores lie in [0,100]. *)
Lemma searchMentorsTry_ranked (faults : ReadFaults) (db : Db)
  (currentUserId : string) (searchQuery : option string)
  (searchSkills : option (list JsValue)) (result : list RankedMentor) :
  searchMentorsTry faults db currentUserId searchQuery searchSkills
  = Ok result ->
  result = []
  \/ exists skillsToMatch candidates mentorsWithScores,
       mapResult (scoreMentor skillsToMatch) candidates = Ok mentorsWithScores
       /\ Forall (fun m => 0 <= matchScore m <= 100) mentorsWithScores
       /\ result = rankedMentors mentorsWithScores.
Proof.
  unfold searchMentorsTry.
  destruct (getProfile faults db currentUserId) as [[[id p]|]|e]; simpl;
    [| intro H; inversion H; left; reflexivity | discriminate].
  destruct (Z.of_nat (List.length (resolveSkills searchQuery searchSkills p))
            =? 0); [intro H; inversion H; left; reflexivity|].
  destruct (getDocsProfiles faults db) as [snapshot|e]; simpl;
    [|discriminate].
  destruct (Z.of_nat (List.length _) =? 0);
    [intro H; inversion H; left; reflexivity|].
  destruct (mapResult _ _) as [scored|e] eqn:M; simpl; [|discriminate].
  intro H. inversion H. right.
  do 3 eexists. split; [exact M|]. split; [|reflexivity].
  apply (mapResult_Forall _ _ _ _ (scoreMentor_range _) M).
Qed.

Lemma scoreMentor_no_skills (entry : DocId * Profile) (m : RankedMentor) :
  scoreMentor [] entry = Ok m -> matchScore m = 0.
Proof.
  unfold scoreMentor, calculateLocalMatchScore. simpl.
  intro H. inversion H. reflexivity.
Qed.

Lemma filter_none {A : Type} (f : A -> bool) (l : list A) :
  Forall (fun a => f a = false) l -> filter f l = [].
Proof.
  induction 1 as [|a l Ha _ IH]; simpl; [reflexivity|].
  rewrite Ha. exact IH.
Qed.

Lemma length_zero_nil {A : Type} (l : list A) :
  (Z.of_nat (List.length l) =? 0) = true -> l = [].
Proof.
  destruct l; [reflexivity|]. simpl List.length. intro H.
  apply Z.eqb_eq in H. lia.
Qed.

(** What a search returns when its reads are served: the ranking of the
    scored candidates, also on the paths that return early. *)
Lemma searchMentors_rankedMentors (db : Db) (currentUserId : string)
  (searchQuery : option string) (searchSkills : option (list JsValue))
  (currentProfile : Profile) (pool : list RankedMentor) :
  getDoc currentUserId (profiles db) = Some currentProfile ->
  mapResult
    (scoreMentor (resolveSkills searchQuery searchSkills currentProfile))
    (filter hasSkills
       (filter (fun p => negb (userId (snd p) =? currentUserId)%string)
               (profiles db)))
  = Ok pool ->
  searchMentors noFaults db currentUserId searchQuery searchSkills
  = Ok (rankedMentors pool).
Proof.
  intros G M.
  unfold searchMentors, searchMentorsTry, getProfile, getDocsProfiles.
  simpl getProfileFault. simpl getDocsFault. rewrite G.
  cbn [option_map bindR].
  destruct (Z.of_nat (List.length
                        (resolveSkills searchQuery searchSkills
                                       currentProfile)) =? 0) eqn:E.
  - apply length_zero_nil in E. rewrite E in M.
    assert (Z0 : Forall (fun m => matchScore m = 0) pool)
      by exact (mapResult_Forall _ _ _ _ scoreMentor_no_skills M).
    unfold rankedMentors. rewrite filter_none; [reflexivity|].
    apply Forall_impl with (2 := Z0). intros m Hm. rewrite Hm. reflexivity.
  - cbn [bindR].
    destruct (Z.of_nat
                (List.length
                   (filter hasSkills
                      (filter (fun p => negb (userId (snd p)
                                              =? currentUserId)%string)
                              (profiles db)))) =? 0) eqn:C.
    + apply length_zero_nil in C. rewrite C in M. simpl in M.
      inversion M. reflexivity.
    + rewrite M. reflexivity.
Qed.

(** C8: for every store, the search of a user with a profile, whose reads
    are served and whose candidates (the stored profiles of other users
    with a non-empty [skillsHave], in the order of the store) are scored
    into [pool], returns the first 20 entries of a list [sorted] that holds
    exactly the candidates whose score is not 0, descending by score, ties
    by the number of matched skills descending, candidates tied on both in
    the order of the pool; no entry of the result has score 0 and the
    result has at most 20 entries. *)
Theorem searchMentors_ranking (db : Db) (currentUserId : string)
  (searchQuery : option string) (searchSkills : option (list JsValue))
  (currentProfile : Profile) (pool : list RankedMentor) :
  getDoc currentUserId (profiles db) = Some currentProfile ->
  mapResult
    (scoreMentor (resolveSkills searchQuery searchSkills currentProfile))
    (filter hasSkills
       (filter (fun p => negb (userId (snd p) =? currentUserId)%string)
               (profiles db)))
  = Ok pool ->
  exists sorted,
    searchMentors noFaults db currentUserId searchQuery searchSkills
    = Ok (firstn 20 sorted)
    /\ Permutation sorted (filter (fun m => negb (matchScore m =? 0)) pool)
    /\ StronglySorted rankedBefore sorted
    /\ (forall s k,
          filter (inTie s k) sorted
          = filter (inTie s k)
              (filter (fun m => negb (matchScore m =? 0)) pool))
    /\ Forall (fun m => matchScore m <> 0) (firstn 20 sorted)
    /\ (List.length (firstn 20 sorted) <= 20)%nat.
Proof.
  intros G M.
  assert (N : Forall (fun m => 0 <= matchScore m) pool).
  { apply Forall_impl
      with (2 := mapResult_Forall _ _ _ _ (scoreMentor_range _) M).
    intros m Hm. lia. }
  destruct (rankedMentors_sorted pool) as (sorted & R & _ & P & S & T & Z0 & L).
  exists sorted.
  rewrite (searchMentors_rankedMentors _ _ _ _ _ _ G M), R.
  split; [reflexivity|].
  split; [exact (P N)|].
  split; [exact S|].
  split; [intros s k; rewrite <- (filter_positive_nonzero pool N); apply T|].
  rewrite <- R. split; [exact Z0 | exact L].
Qed.

(** Alice's search among five mentors: the two with score 100 come first,
    the one with two matched skills before the one with a single matched
    skill although the store lists it later; the two with score 50 and one
    matched skill each follow in the order of the store; the mentor with
    score 0 is dropped. *)
Lemma searchMentors_ranking_witness :
  exists result,
    searchMentors noFaults Scenario.fair "alice" None None = Ok result
    /\ map (fun m => (mentorId m, matchScore m, matchedCount m)) result
       = [("m3", 100, 2); ("m0", 100, 1); ("m1", 50, 1); ("m4", 50, 1)].
Proof.
  assert (M : exists pool,
             mapResult
               (scoreMentor (resolveSkills None None Scenario.alice))
               (filter hasSkills
                  (filter (fun p => negb (userId (snd p) =? "alice")%string)
                          (profiles Scenario.fair)))
             = Ok pool)
    by (eexists; vm_compute; reflexivity).
  destruct M as [pool M].
  destruct (searchMentors_ranking Scenario.fair "alice" None None
              Scenario.alice pool eq_refl M) as (sorted & E & _).
  exists (firstn 20 sorted). split; [exact E|].
  assert (K : exists result,
             searchMentors noFaults Scenario.fair "alice" None None
             = Ok result
             /\ map (fun m => (mentorId m, matchScore m, matchedCount m))
                    result
                = [("m3", 100, 2); ("m0", 100, 1); ("m1", 50, 1);
                   ("m4", 50, 1)])
    by (eexists; split; vm_compute; reflexivity).
  destruct K as (result & K1 & K2).
  rewrite K1 in E.
  assert (R : result = firstn 20 sorted) by congruence.
  rewrite <- R. exact K2.
Defined.

(** C10: [searchMentors] never propagates an exception: for every input it
    returns a list; the list is empty if the searcher's profile does not
    exist, if the profile read is rejected, and whenever anything inside the
    [try] block throws, be it a read of the store or the scoring of a
    candidate. *)
Theorem searchMentors_never_throws (faults : ReadFaults) (db : Db)
  (currentUserId : string) (searchQuery : option string)
  (searchSkills : option (list JsValue)) :
  exists result,
    searchMentors faults db currentUserId searchQuery searchSkills = Ok result
    /\ (getProfile faults db currentUserId = Ok None -> result = [])
    /\ (forall e, getProfile faults db currentUserId = Throw e -> result = [])
    /\ (forall e, getDocsFault faults = Some e ->
        result = [])
    /\ (forall e,
          searchMentorsTry faults db currentUserId searchQuery searchSkills
          = Throw e ->
          result = []).
Proof.
  unfold searchMentors, tryCatch.
  destruct (searchMentorsTry faults db currentUserId searchQuery searchSkills)
    as [result|e] eqn:T.
  - exists result. split; [reflexivity|].
    unfold searchMentorsTry in T.
    split; [|split; [|split]].
    + intro P. rewrite P in T. simpl in T. inversion T. reflexivity.
    + intros e P. rewrite P in T. discriminate T.
    + intros e F.
      destruct (getProfile faults db currentUserId) as [[[id p]|]|e'];
        simpl in T; [| inversion T; reflexivity | discriminate T].
      destruct (Z.of_nat (List.length
                            (resolveSkills searchQuery searchSkills p)) =? 0);
        [inversion T; reflexivity|].
      unfold getDocsProfiles in T. rewrite F in T. discriminate T.
    + intros e E. discriminate E.
  - exists []. repeat split; reflexivity.
Qed.

Lemma searchMentors_never_throws_witness :
  searchMentorsTry noFaults Scenario.campusWithCarol "alice" None None
  = Throw (TypeError "skill.toLowerCase is not a function")
  /\ searchMentors noFaults Scenario.campusWithCarol "alice" None None = Ok [].
Proof.
  split; [reflexivity|].
  destruct (searchMentors_never_throws noFaults Scenario.campusWithCarol
              "alice" None None) as (result & E & _ & _ & _ & H).
  rewrite E. f_equal.
  exact (H (TypeError "skill.toLowerCase is not a function") eq_refl).
Defined.

(* ===================================================================== *)
(** * Further properties *)
(* ===================================================================== *)

(** ** Skill strings *)

Lemma toLowerCaseChar_idempotent (c : ascii) :
  JsString.toLowerCaseChar (JsString.toLowerCaseChar c)
  = JsString.toLowerCaseChar c.
Proof. destruct c as [[] [] [] [] [] [] [] []]; reflexivity. Qed.

Lemma isWhiteSpace_toLowerCaseChar (c : ascii) :
  JsString.isWhiteSpace (JsString.toLowerCaseChar c) = JsString.isWhiteSpace c.
Proof. destruct c as [[] [] [] [] [] [] [] []]; reflexivity. Qed.

Lemma toLowerCase_idempotent (s : string) :
  JsString.toLowerCase (JsString.toLowerCase s) = JsString.toLowerCase s.
Proof.
  induction s as [|c s IH]; simpl.
  - reflexivity.
  - rewrite toLowerCaseChar_idempotent, IH. reflexivity.
Qed.

Lemma toLowerCase_trimStart (s : string) :
  JsString.toLowerCase (JsString.trimStart s)
  = JsString.trimStart (JsString.toLowerCase s).
Proof.
  induction s as [|c s IH]; simpl.
  - reflexivity.
  - rewrite isWhiteSpace_toLowerCaseChar.
    destruct (JsString.isWhiteSpace c); [exact IH | reflexivity].
Qed.

Lemma toLowerCase_trimEnd (s : string) :
  JsString.toLowerCase (JsString.trimEnd s)
  = JsString.trimEnd (JsString.toLowerCase s).
Proof.
  induction s as [|c s IH]; simpl.
  - reflexivity.
  - rewrite <- IH, isWhiteSpace_toLowerCaseChar.
    destruct (JsString.trimEnd s) as [|d r]; simpl.
    + destruct (JsString.isWhiteSpace c); reflexivity.
    + reflexivity.
Qed.

Lemma toLowerCase_trim (s : string) :
  JsString.toLowerCase (JsString.trim s)
  = JsString.trim (JsString.toLowerCase s).
Proof.
  unfold JsString.trim.
  rewrite toLowerCase_trimEnd, toLowerCase_trimStart. reflexivity.
Qed.

Lemma normalizeSkill_toLowerCase (s : string) :
  normalizeSkill (JsString.toLowerCase s) = normalizeSkill s.
Proof. unfold normalizeSkill. rewrite toLowerCase_idempotent. reflexivity. Qed.

Lemma normalizeSkill_trim (s : string) :
  normalizeSkill (JsString.trim s) = normalizeSkill s.
Proof.
  unfold normalizeSkill.
  rewrite toLowerCase_trim, trim_idempotent. reflexivity.
Qed.

(** X1: matching ignores letter case and surrounding white space: a skill,
    its lower-cased form and its trimmed form match the same skills. *)
Theorem skillsMatch_ignores_case_and_padding (a b : string) :
  skillsMatch (JsString.toLowerCase a) b = skillsMatch a b
  /\ skillsMatch (JsString.trim a) b = skillsMatch a b
  /\ skillsMatch a (JsString.toLowerCase b) = skillsMatch a b
  /\ skillsMatch a (JsString.trim b) = skillsMatch a b.
Proof.
  unfold skillsMatch.
  rewrite !normalizeSkill_toLowerCase, !normalizeSkill_trim.
  repeat split; reflexivity.
Qed.

Lemma includes_empty (s : string) : JsString.includes s "" = true.
Proof. destruct s; reflexivity. Qed.

(** X2: a skill whose normal form is empty (an empty or blank string, or one
    made of punctuation only) matches every skill, in either position. *)
Theorem skillsMatch_empty_normal_form (a b : string) :
  normalizeSkill a = "" ->
  skillsMatch a b = true /\ skillsMatch b a = true.
Proof.
  intro H. unfold skillsMatch, normalizedMatch. rewrite H.
  split.
  - destruct ("" =? normalizeSkill b)%string; [reflexivity|].
    rewrite includes_empty, orb_true_r. reflexivity.
  - destruct (normalizeSkill b =? "")%string; [reflexivity|].
    rewrite includes_empty. reflexivity.
Qed.

Lemma skillsMatch_empty_normal_form_witness :
  skillsMatch "?!" "Photography" = true /\ skillsMatch "Photography" "?!" = true.
Proof. exact (skillsMatch_empty_normal_form "?!" "Photography" eq_refl). Defined.

(** ** The parsed search query *)

Lemma splitEach_no_separator (sep : ascii -> bool) (s : string) :
  allChars (fun c => negb (sep c)) (fst (JsString.splitEach sep s)) = true
  /\ Forall (fun t => allChars (fun c => negb (sep c)) t = true)
            (snd (JsString.splitEach sep s)).
Proof.
  induction s as [|c s [IH1 IH2]]; simpl.
  - split; [reflexivity | constructor].
  - destruct (JsString.splitEach sep s) as [tok rest]. simpl in *.
    destruct (sep c) eqn:S; simpl.
    + split; [reflexivity | constructor; assumption].
    + rewrite S. simpl. split; assumption.
Qed.

Lemma splitOnEach_no_separator (sep : ascii -> bool) (s : string) :
  Forall (fun t => allChars (fun c => negb (sep c)) t = true)
         (JsString.splitOnEach sep s).
Proof.
  unfold JsString.splitOnEach.
  destruct (splitEach_no_separator sep s) as [H1 H2].
  destruct (JsString.splitEach sep s) as [tok rest].
  constructor; assumption.
Qed.

(** X3: every skill parsed from a search query is a string that is not
    empty, has no leading or trailing white space and contains neither a
    comma nor a semicolon. *)
Theorem parseSkills_tokens (searchQuery : string) :
  Forall (fun v => exists t,
            v = JsStr t
            /\ t <> ""
            /\ JsString.trim t = t
            /\ allChars (fun c => negb (isDelimiter c)) t = true)
         (parseSkills searchQuery).
Proof.
  unfold parseSkills. apply Forall_forall. intros v Hv.
  apply in_map_iff in Hv. destruct Hv as (t & <- & Ht).
  apply filter_In in Ht. destruct Ht as [Ht Hne].
  apply in_map_iff in Ht. destruct Ht as (tok & <- & Htok).
  exists (JsString.trim tok). split; [reflexivity|]. split.
  - unfold nonEmpty in Hne. apply negb_true_iff in Hne.
    apply String.eqb_neq in Hne. exact Hne.
  - split; [apply trim_idempotent|].
    apply allChars_trim.
    pose proof (splitOnEach_no_separator isDelimiter searchQuery) as F.
    rewrite Forall_forall in F. apply F, Htok.
Qed.

(** ** Matched skills *)

Lemma sameValueZero_eq (a b : JsValue) : sameValueZero a b = true <-> a = b.
Proof.
  destruct a, b; simpl; split; intro H; try discriminate; try reflexivity.
  - apply String.eqb_eq in H. subst. reflexivity.
  - inversion H. apply String.eqb_refl.
  - apply Z.eqb_eq in H. subst. reflexivity.
  - inversion H. apply Z.eqb_refl.
Qed.

Lemma existsb_sameValueZero (v : JsValue) (l : list JsValue) :
  existsb (sameValueZero v) l = true <-> In v l.
Proof.
  rewrite existsb_exists. split.
  - intros (x & Hx & E). apply sameValueZero_eq in E. subst. exact Hx.
  - intro H. exists v. split; [exact H | apply sameValueZero_eq; reflexivity].
Qed.

Lemma fold_setAdd_spec (values seen : list JsValue) :
  NoDup seen ->
  NoDup (fold_left setAdd values seen)
  /\ (forall x, In x (fold_left setAdd values seen) <-> In x seen \/ In x values)
  /\ (List.length (fold_left setAdd values seen)
      <= List.length seen + List.length values)%nat.
Proof.
  revert seen. induction values as [|v values IH]; simpl; intros seen N.
  - split; [exact N|]. split; [intro x; tauto | lia].
  - unfold setAdd at 2 4 6.
    destruct (existsb (sameValueZero v) seen) eqn:E.
    + apply existsb_sameValueZero in E.
      destruct (IH seen N) as (N' & I & L).
      split; [exact N'|]. split; [|lia].
      intro x. rewrite I. split; [tauto|].
      intros [H|[H|H]]; subst; tauto.
    + assert (Hv : ~ In v seen).
      { intro K. apply existsb_sameValueZero in K. congruence. }
      assert (N2 : NoDup (seen ++ [v])).
      { apply NoDup_app; [exact N | repeat constructor; simpl; tauto |].
        intros x Hx [Hx'|[]]. subst. contradiction. }
      destruct (IH (seen ++ [v]) N2) as (N' & I & L).
      split; [exact N'|]. split.
      * intro x. rewrite I, in_app_iff. simpl. tauto.
      * rewrite length_app in L. simpl in L. lia.
Qed.

Lemma firstMatch_found (w h : JsValue) (has : list JsValue) :
  firstMatch w has = Ok (Some h) ->
  In h has /\ isString h = true /\ skillsMatchJs w h = Ok true.
Proof.
  induction has as [|x has IH]; simpl; intro H.
  - discriminate H.
  - destruct (skillsMatchJs w x) as [[|]|e] eqn:M; simpl in H;
      [| | discriminate H].
    + inversion H; subst. split; [left; reflexivity|]. split; [|exact M].
      destruct w, h; simpl in M; try discriminate M; reflexivity.
    + destruct (IH H) as (I & S & K). split; [right; exact I|].
      split; assumption.
Qed.

Lemma scanWanted_matched (wanted has acc matched : list JsValue) (n count : Z) :
  scanWanted wanted has acc n = Ok (matched, count) ->
  exists new,
    matched = acc ++ new
    /\ Forall (fun h => In h has /\ isString h = true
                        /\ exists w, In w wanted /\ skillsMatchJs w h = Ok true)
              new.
Proof.
  revert acc n. induction wanted as [|w wanted IH]; simpl; intros acc n H.
  - inversion H; subst. exists []. rewrite app_nil_r. split; constructor.
  - destruct (firstMatch w has) as [[h|]|e] eqn:F; simpl in H;
      [| | discriminate H].
    + destruct (IH _ _ H) as (new & Hm & Hf).
      exists (h :: new). rewrite <- app_assoc in Hm. split; [exact Hm|].
      destruct (firstMatch_found _ _ _ F) as (I & S & K).
      constructor.
      * split; [exact I|]. split; [exact S|]. exists w. split; [left|]; auto.
      * apply Forall_impl with (2 := Hf).
        intros x (I' & S' & w' & Iw & Kw).
        split; [exact I'|]. split; [exact S'|]. exists w'. split; [right|]; auto.
    + destruct (IH _ _ H) as (new & Hm & Hf).
      exists new. split; [exact Hm|].
      apply Forall_impl with (2 := Hf).
      intros x (I' & S' & w' & Iw & Kw).
      split; [exact I'|]. split; [exact S'|]. exists w'. split; [right|]; auto.
Qed.

(** The matched skills are taken from the mentor's list. *)
Lemma matchedSkills_incl (wanted has : list JsValue) (r : MatchResult) :
  calculateLocalMatchScore wanted has = Ok r -> incl (matchedSkills r) has.
Proof.
  unfold calculateLocalMatchScore.
  destruct ((Z.of_nat (List.length wanted) =? 0)
            || (Z.of_nat (List.length has) =? 0)).
  - intro H. inversion H; subst; simpl. intros x [].
  - destruct (scanWanted wanted has [] 0) as [[matched count]|e] eqn:S;
      simpl; [|discriminate].
    intro H. inversion H; subst; clear H; simpl.
    destruct (scanWanted_matched _ _ _ _ _ _ S) as (new & Hm & Hf).
    simpl in Hm. subst matched.
    destruct (fold_setAdd_spec new [] (NoDup_nil _)) as (_ & I & _).
    intros x Hx. apply I in Hx. destruct Hx as [[]|Hx].
    rewrite Forall_forall in Hf. apply (Hf x Hx).
Qed.

(** X4: the matched skills a score comes with are distinct entries of the
    mentor's list, at most one per wanted skill; each is a string that some
    wanted skill matches. *)
Theorem calculateLocalMatchScore_matched (wanted has : list JsValue)
  (r : MatchResult) :
  calculateLocalMatchScore wanted has = Ok r ->
  NoDup (matchedSkills r)
  /\ (List.length (matchedSkills r) <= List.length wanted)%nat
  /\ Forall (fun h => In h has /\ isString h = true
                      /\ exists w, In w wanted /\ skillsMatchJs w h = Ok true)
            (matchedSkills r).
Proof.
  unfold calculateLocalMatchScore.
  destruct ((Z.of_nat (List.length wanted) =? 0)
            || (Z.of_nat (List.length has) =? 0)).
  - intro H. inversion H; subst; simpl.
    split; [constructor|]. split; [lia | constructor].
  - destruct (scanWanted wanted has [] 0) as [[matched count]|e] eqn:S;
      simpl; [|discriminate].
    intro H. inversion H; subst; clear H; simpl.
    destruct (scanWanted_matched _ _ _ _ _ _ S) as (new & Hm & Hf).
    destruct (scanWanted_count _ _ _ _ _ _ S) as (new' & Hm' & _ & Hl).
    simpl in Hm, Hm'. subst matched. subst new'.
    destruct (fold_setAdd_spec new [] (NoDup_nil _)) as (N & I & L).
    fold (arrayFromSet new) in N, I, L.
    split; [exact N|]. split; [simpl in L; lia|].
    apply Forall_forall. intros x Hx. apply I in Hx.
    destruct Hx as [[]|Hx].
    rewrite Forall_forall in Hf. apply Hf, Hx.
Qed.

Lemma calculateLocalMatchScore_matched_witness :
  NoDup [JsStr "Python Programming"]
  /\ (List.length [JsStr "Python Programming"] <= 2)%nat.
Proof.
  destruct (calculateLocalMatchScore_matched
              [JsStr "python"; JsStr "guitar"]
              [JsStr "Python Programming"; JsStr "Photography"]
              {| score := 50; matchedSkills := [JsStr "Python Programming"] |}
              eq_refl) as (N & L & _).
  split; [exact N | exact L].
Defined.

(** ** What a search runs on and what it returns *)

Lemma trimEnd_empty (s : string) :
  JsString.trimEnd s = "" -> allChars JsString.isWhiteSpace s = true.
Proof.
  induction s as [|c s IH]; simpl; intro H.
  - reflexivity.
  - destruct (JsString.trimEnd s) as [|d r]; [|discriminate H].
    destruct (JsString.isWhiteSpace c); [|discriminate H].
    simpl. apply IH. reflexivity.
Qed.

Lemma trimStart_blank (s : string) :
  allChars JsString.isWhiteSpace (JsString.trimStart s) = true ->
  allChars JsString.isWhiteSpace s = true.
Proof.
  induction s as [|c s IH]; simpl; intro H.
  - reflexivity.
  - destruct (JsString.isWhiteSpace c) eqn:W; simpl.
    + apply IH, H.
    + simpl in H. rewrite W in H. discriminate H.
Qed.

Lemma trim_empty (s : string) :
  JsString.trim s = "" -> allChars JsString.isWhiteSpace s = true.
Proof.
  unfold JsString.trim. intro H. apply trimStart_blank, trimEnd_empty, H.
Qed.

Lemma isWhiteSpace_not_delimiter (c : ascii) :
  JsString.isWhiteSpace c = true -> isDelimiter c = false.
Proof.
  destruct c as [[] [] [] [] [] [] [] []]; vm_compute; intro H;
    first [reflexivity | discriminate H].
Qed.

Lemma splitEach_blank (s : string) :
  allChars JsString.isWhiteSpace s = true ->
  JsString.splitEach isDelimiter s = (s, []).
Proof.
  induction s as [|c s IH]; simpl; intro H.
  - reflexivity.
  - apply andb_true_iff in H. destruct H as [Hc Hs].
    rewrite (IH Hs), (isWhiteSpace_not_delimiter c Hc). reflexivity.
Qed.

(** A query that is blank yields no skill. *)
Lemma parseSkills_blank (q : string) :
  JsString.trim q = "" -> parseSkills q = [].
Proof.
  intro H. unfold parseSkills, JsString.splitOnEach.
  rewrite (splitEach_blank q (trim_empty q H)). simpl. rewrite H. reflexivity.
Qed.

Lemma resolveSkills_query (q : string) (searchSkills : option (list JsValue))
  (p : Profile) :
  parseSkills q <> [] -> resolveSkills (Some q) searchSkills p = parseSkills q.
Proof.
  intro H. unfold resolveSkills.
  assert (T : nonEmpty (JsString.trim q) = true).
  { unfold nonEmpty. apply negb_true_iff, String.eqb_neq.
    intro E. apply H, parseSkills_blank, E. }
  assert (Q : nonEmpty q = true).
  { unfold nonEmpty. apply negb_true_iff, String.eqb_neq.
    intro E. subst q. discriminate T. }
  rewrite Q, T. simpl.
  destruct (parseSkills q); [contradiction | reflexivity].
Qed.

(** X5: a search query that yields at least one skill replaces every other
    source of skills: the result of [searchMentors] then depends neither on
    the [searchSkills] argument nor on the skills of the searcher's
    profile. *)
Theorem searchMentors_query_overrides (q : string) :
  parseSkills q <> [] ->
  forall faults db currentUserId searchSkills searchSkills',
    (forall p, resolveSkills (Some q) searchSkills p = parseSkills q)
    /\ searchMentors faults db currentUserId (Some q) searchSkills
       = searchMentors faults db currentUserId (Some q) searchSkills'.
Proof.
  intros H faults db uid s s'. split.
  - intro p. apply resolveSkills_query, H.
  - unfold searchMentors, searchMentorsTry.
    destruct (getProfile faults db uid) as [[[id p]|]|e];
      cbn [bindR tryCatch]; [|reflexivity|reflexivity].
    rewrite !(resolveSkills_query q _ p H). reflexivity.
Qed.

Lemma searchMentors_query_overrides_witness :
  searchMentors noFaults Scenario.campus "alice" (Some "photo; chess,,")
                (Some [JsStr "guitar"])
  = searchMentors noFaults Scenario.campus "alice" (Some "photo; chess,,") None.
Proof.
  apply (searchMentors_query_overrides "photo; chess,,").
  vm_compute. discriminate.
Defined.

(** X6: an empty [searchSkills] array is taken as given (an array is truthy)
    and not replaced by the skills of the profile: unless the query yields a
    skill, the search returns nothing. *)
Theorem searchMentors_empty_skills_array (faults : ReadFaults) (db : Db)
  (currentUserId : string) (searchQuery : option string) :
  match searchQuery with
  | Some q => parseSkills q = []
  | None => True
  end ->
  searchMentors faults db currentUserId searchQuery (Some []) = Ok [].
Proof.
  intro H. unfold searchMentors, searchMentorsTry.
  destruct (getProfile faults db currentUserId) as [[[id p]|]|e];
    try reflexivity.
  cbn [bindR].
  assert (R : resolveSkills searchQuery (Some []) p = []).
  { unfold resolveSkills. simpl. destruct searchQuery as [q|]; [|reflexivity].
    rewrite H. simpl.
    destruct (nonEmpty q && nonEmpty (JsString.trim q)); reflexivity. }
  rewrite R. reflexivity.
Qed.

Lemma searchMentors_empty_skills_array_witness :
  skillsToLearn Scenario.alice = Some [JsStr "python"; JsStr "guitar"]
  /\ searchMentors noFaults Scenario.campus "alice" (Some "") (Some [])
     = Ok [].
Proof.
  split; [reflexivity|].
  apply (searchMentors_empty_skills_array noFaults Scenario.campus "alice"
           (Some "")).
  reflexivity.
Defined.

Lemma mapResult_In {A B : Type} (f : A -> Result B) (l : list A)
  (out : list B) :
  mapResult f l = Ok out ->
  forall b, In b out -> exists a, In a l /\ f a = Ok b.
Proof.
  revert out. induction l as [|a l IH]; simpl; intros out H b Hb.
  - inversion H; subst. destruct Hb.
  - destruct (f a) as [b0|e] eqn:Fa; simpl in H; [|discriminate H].
    destruct (mapResult f l) as [bs|e]; simpl in H; [|discriminate H].
    inversion H; subst. destruct Hb as [<-|Hb].
    + exists a. split; [left; reflexivity | exact Fa].
    + destruct (IH bs eq_refl b Hb) as (a' & I & E).
      exists a'. split; [right; exact I | exact E].
Qed.

Lemma rankedMentors_In (pool : list RankedMentor) (m : RankedMentor) :
  In m (rankedMentors pool) -> In m pool /\ 0 < matchScore m.
Proof.
  unfold rankedMentors. intro H.
  apply In_firstn in H.
  apply (Permutation_in _ (arraySort_perm _ _)) in H.
  apply filter_In in H. destruct H as [H P].
  split; [exact H | apply Z.ltb_lt, P].
Qed.

(** What the scoring callback makes of a candidate that passed the
    [skillsHave] filter. *)
Lemma scoreMentor_candidate (skillsToMatch : list JsValue)
  (a : DocId * Profile) (m : RankedMentor) :
  hasSkills a = true ->
  scoreMentor skillsToMatch a = Ok m ->
  (mentorId m, mentor m) = a
  /\ skillsHave (mentor m) = Some (mentorSkillsHave m)
  /\ mentorSkillsHave m <> []
  /\ calculateLocalMatchScore skillsToMatch (mentorSkillsHave m)
     = Ok {| score := matchScore m; matchedSkills := mentorMatchedSkills m |}.
Proof.
  unfold hasSkills, scoreMentor. destruct a as [id p]. simpl.
  destruct (skillsHave p) as [l|] eqn:S; [|discriminate]. simpl.
  intro L.
  destruct (calculateLocalMatchScore skillsToMatch l) as [[sc ms]|e] eqn:C;
    simpl; [|discriminate].
  intro H. inversion H; subst; simpl.
  split; [reflexivity|]. split; [exact S|]. split; [|exact C].
  intro E. subst l. discriminate L.
Qed.

(** X7: every mentor [searchMentors] returns is a stored profile of another
    user with a non-empty [skillsHave] (profiles that only carry the legacy
    [skillsOffered] are never candidates), scored on that list with a score
    from 1 to 100 and at least one matched skill taken from it; there are at
    most 20 of them. *)
Theorem searchMentors_results (faults : ReadFaults) (db : Db)
  (currentUserId : string) (searchQuery : option string)
  (searchSkills : option (list JsValue)) (result : list RankedMentor) :
  searchMentors faults db currentUserId searchQuery searchSkills = Ok result ->
  (List.length result <= 20)%nat
  /\ Forall (fun m =>
               In (mentorId m, mentor m) (profiles db)
               /\ userId (mentor m) <> currentUserId
               /\ skillsHave (mentor m) = Some (mentorSkillsHave m)
               /\ mentorSkillsHave m <> []
               /\ 1 <= matchScore m <= 100
               /\ mentorMatchedSkills m <> []
               /\ incl (mentorMatchedSkills m) (mentorSkillsHave m))
            result.
Proof.
  unfold searchMentors, tryCatch.
  destruct (searchMentorsTry faults db currentUserId searchQuery searchSkills)
    as [out|e] eqn:T; intro H; inversion H; subst; clear H;
    [|split; [simpl; lia | constructor]].
  unfold searchMentorsTry in T.
  destruct (getProfile faults db currentUserId) as [[[id p]|]|e];
    simpl in T; [| inversion T; split; [simpl; lia | constructor]
                 | discriminate T].
  destruct (Z.of_nat (List.length (resolveSkills searchQuery searchSkills p))
            =? 0);
    [inversion T; split; [simpl; lia | constructor]|].
  unfold getDocsProfiles in T.
  destruct (getDocsFault faults); simpl in T; [discriminate T|].
  destruct (Z.of_nat (List.length _) =? 0);
    [inversion T; split; [simpl; lia | constructor]|].
  destruct (mapResult _ _) as [scored|e] eqn:M; simpl in T; [|discriminate T].
  inversion T; subst; clear T.
  split; [unfold rankedMentors; apply length_firstn_le|].
  apply Forall_forall. intros m Hm.
  apply rankedMentors_In in Hm. destruct Hm as [Hm Hpos].
  destruct (mapResult_In _ _ _ M m Hm) as (a & Ia & Sa).
  apply filter_In in Ia. destruct Ia as [Ia Hs].
  apply filter_In in Ia. destruct Ia as [Ia Hu].
  destruct (scoreMentor_candidate _ a m Hs Sa) as (E & S & N & C).
  subst a. simpl in Hu.
  split; [exact Ia|]. split.
  { apply negb_true_iff in Hu. apply String.eqb_neq in Hu. exact Hu. }
  split; [exact S|]. split; [exact N|].
  destruct (calculateLocalMatchScore_counts _ _ _ C) as (R & Z0 & _).
  simpl in R, Z0.
  split; [lia|]. split.
  - intro E. specialize (Z0 E). lia.
  - exact (matchedSkills_incl _ _ _ C).
Qed.

Lemma searchMentors_results_witness :
  exists m,
    searchMentors noFaults Scenario.campus "alice" None None = Ok [m]
    /\ userId (mentor m) <> "alice"
    /\ 1 <= matchScore m <= 100.
Proof.
  assert (E : exists m,
             searchMentors noFaults Scenario.campus "alice" None None
             = Ok [m])
    by (eexists; vm_compute; reflexivity).
  destruct E as [m E]. exists m. split; [exact E|].
  destruct (searchMentors_results noFaults Scenario.campus "alice" None None
              _ E) as (_ & F).
  inversion F as [|m' l (_ & U & _ & _ & R & _) _]; subst.
  split; [exact U | exact R].
Defined.

(** ** More on the document store and on sorting *)

Lemma setDoc_fresh_split {A : Type} (id : DocId) (a : A) (c : Collection A) :
  getDoc id c = None ->
  exists l1 l2, c = l1 ++ l2 /\ setDoc id a c = l1 ++ (id, a) :: l2.
Proof.
  induction c as [|[id' a'] c IH]; simpl; intro H.
  - exists [], []. split; reflexivity.
  - destruct (id =? id')%string eqn:E; [discriminate H|].
    destruct (id ?= id')%string eqn:C.
    + apply String.compare_eq_iff in C. apply String.eqb_neq in E.
      contradiction.
    + exists [], ((id', a') :: c). split; reflexivity.
    + destruct (IH H) as (l1 & l2 & -> & ->).
      exists ((id', a') :: l1), l2. split; reflexivity.
Qed.

Lemma updateDoc_missing {A : Type} (id : DocId) (f : A -> A)
  (c : Collection A) :
  getDoc id c = None -> updateDoc id f c = None.
Proof.
  induction c as [|[id' a'] c IH]; simpl; intro H.
  - reflexivity.
  - destruct (id =? id')%string; [discriminate H|].
    rewrite (IH H). reflexivity.
Qed.

Lemma filter_setDoc_fresh {A : Type} (p : DocId * A -> bool) (id : DocId)
  (a : A) (c : Collection A) :
  getDoc id c = None ->
  exists l1 l2,
    filter p c = l1 ++ l2
    /\ filter p (setDoc id a c)
       = l1 ++ (if p (id, a) then [(id, a)] else []) ++ l2.
Proof.
  intro H. destruct (setDoc_fresh_split id a c H) as (l1 & l2 & -> & ->).
  exists (filter p l1), (filter p l2).
  rewrite !filter_app. simpl.
  split; [reflexivity|]. destruct (p (id, a)); reflexivity.
Qed.

Section SortByKey.

Context {A : Type}.
Variable key : A -> Z.

Lemma arraySort_ascending (l : list A) :
  StronglySorted (fun a b => key a <= key b)
                 (arraySort (fun a b => key a - key b) l).
Proof.
  apply StronglySorted_impl with (R := precedes (fun a b => key a - key b)).
  - unfold precedes. intros a b. lia.
  - apply arraySort_sorted; intros; lia.
Qed.

Lemma arraySort_newestFirst (l : list A) :
  StronglySorted (fun a b => key b <= key a) (arraySort (newestFirst key) l).
Proof.
  apply StronglySorted_impl with (R := precedes (newestFirst key)).
  - unfold precedes, newestFirst. intros a b. lia.
  - apply arraySort_sorted; unfold newestFirst; intros; lia.
Qed.

Lemma insertBy_before_last (a x : A) (s : list A) :
  key a <= key x ->
  insertBy (fun a b => key a - key b) a (s ++ [x])
  = insertBy (fun a b => key a - key b) a s ++ [x].
Proof.
  intro H. induction s as [|y s IH]; simpl.
  - destruct (key a - key x <=? 0) eqn:C; [reflexivity|].
    apply Z.leb_gt in C. lia.
  - destruct (key a - key y <=? 0); [reflexivity|].
    rewrite IH. reflexivity.
Qed.

Lemma insertBy_greatest (x : A) (s : list A) :
  Forall (fun y => key y < key x) s ->
  insertBy (fun a b => key a - key b) x s = s ++ [x].
Proof.
  induction 1 as [|y s Hy _ IH]; simpl.
  - reflexivity.
  - destruct (key x - key y <=? 0) eqn:C.
    + apply Z.leb_le in C. lia.
    + rewrite IH. reflexivity.
Qed.

(** An element later than all others comes last, wherever it stands in the
    input. *)
Lemma arraySort_latest_last (l1 l2 : list A) (x : A) :
  Forall (fun y => key y < key x) (l1 ++ l2) ->
  arraySort (fun a b => key a - key b) (l1 ++ x :: l2)
  = arraySort (fun a b => key a - key b) (l1 ++ l2) ++ [x].
Proof.
  induction l1 as [|a l1 IH]; simpl; intro H.
  - apply insertBy_greatest.
    eapply Permutation_Forall; [|exact H].
    apply Permutation_sym, arraySort_perm.
  - inversion H as [|? ? Ha Hl]; subst.
    rewrite (IH Hl). apply insertBy_before_last. lia.
Qed.

End SortByKey.

(** ** Requests: moderation, duplicates, what a response leaves alone *)

(** X8: the message of a mentorship request is moderated before anything is
    read or written, and the moderation is blocking: an unsafe verdict fails
    the call with the rejection and its reason, an error of the moderation
    service fails it with that error, and in both cases the store is
    unchanged; an empty message is not moderated at all. *)
Theorem sendMentorRequest_moderation_blocks (moderateContent : Moderator)
  (db : Db) (fromUserId toUserId message : string) (newId : DocId) (now : Z) :
  (forall verdict,
     nonEmpty message = true ->
     moderateContent message "message" = Ok verdict ->
     safe verdict = false ->
     sendMentorRequest moderateContent fromUserId toUserId message newId now db
     = (Throw (MessageRejected (moderationReason verdict)), db))
  /\ (forall e,
        nonEmpty message = true ->
        moderateContent message "message" = Throw e ->
        sendMentorRequest moderateContent fromUserId toUserId message newId
                          now db
        = (Throw e, db))
  /\ (forall other : Moderator,
        sendMentorRequest moderateContent fromUserId toUserId "" newId now db
        = sendMentorRequest other fromUserId toUserId "" newId now db).
Proof.
  split; [|split].
  - intros verdict N M S.
    unfold sendMentorRequest, bindOp, lift. rewrite N, M. simpl.
    rewrite S. reflexivity.
  - intros e N M.
    unfold sendMentorRequest, bindOp, lift. rewrite N, M. reflexivity.
  - intro other. reflexivity.
Qed.

Lemma sendMentorRequest_moderation_blocks_witness :
  sendMentorRequest Scenario.rejectAll "alice" "bob" "insult" "req1" 1
                    Scenario.campus
  = (Throw (MessageRejected "abusive language"), Scenario.campus).
Proof.
  destruct (sendMentorRequest_moderation_blocks Scenario.rejectAll
              Scenario.campus "alice" "bob" "insult" "req1" 1) as [H _].
  exact (H {| safe := false; moderationReason := "abusive language" |}
           eq_refl eq_refl eq_refl).
Defined.





(** X10: a response changes nothing but the status and [respondedAt] of the
    request it addresses (and, on acceptance, the chat rooms): sender,
    receiver, message and creation time of that request, every other
    request, the profiles, the messages and the reports stay as they
    were. *)
Theorem respondToMentorRequest_frame (db : Db) (requestId : DocId)
  (r : MentorRequest) (accept : bool) (tResponded : Z) (roomId : DocId)
  (tRoom : Z) :
  getDoc requestId (mentorRequests db) = Some r ->
  let db' := snd (respondToMentorRequest requestId accept tResponded roomId
                    tRoom db) in
  (exists r',
     getDoc requestId (mentorRequests db') = Some r'
     /\ (senderId r', receiverId r', message r', createdAt r')
        = (senderId r, receiverId r, message r, createdAt r))
  /\ (forall id, id <> requestId ->
      getDoc id (mentorRequests db') = getDoc id (mentorRequests db))
  /\ List.length (mentorRequests db') = List.length (mentorRequests db)
  /\ profiles db' = profiles db
  /\ messages db' = messages db
  /\ chatReports db' = chatReports db.
Proof.
  intros H db'. subst db'.
  destruct (updateDoc_found requestId (respond accept tResponded) r _ H)
    as (requests' & U & G & O & L).
  destruct (respondToMentorRequest_found db requestId r accept tResponded
              roomId tRoom H) as (requests2 & U2 & _ & E).
  rewrite U in U2. inversion U2; subst requests2. rewrite E.
  destruct accept; simpl;
    (split; [eexists; split; [exact G | reflexivity]|]);
    (split; [exact O|]); (split; [exact L|]); repeat split.
Qed.

Lemma respondToMentorRequest_frame_witness :
  messages Scenario.accepted1 = messages Scenario.requested
  /\ profiles Scenario.accepted1 = profiles Scenario.requested.
Proof.
  destruct (respondToMentorRequest_frame Scenario.requested "req1"
              {| senderId := "alice"; receiverId := "bob";
                 message := "hello"; status := pending; createdAt := 1;
                 respondedAt := None |}
              true 2 "room1" 2 eq_refl) as (_ & _ & _ & P & M & _).
  split; [exact M | exact P].
Defined.

(** ** The message log of a channel *)

(** X11: [getMessages] lists exactly the messages of the room, each once,
    ascending by creation time; messages of other rooms never appear. *)
Theorem getMessages_spec (roomId : DocId) (db : Db) :
  Permutation (getMessages roomId db) (filter (inRoom roomId) (messages db))
  /\ StronglySorted
       (fun a b => messageCreatedAt (snd a) <= messageCreatedAt (snd b))
       (getMessages roomId db)
  /\ (forall d, In d (getMessages roomId db)
                <-> In d (messages db) /\ chatRoomId (snd d) = roomId).
Proof.
  assert (P : Permutation (getMessages roomId db)
                          (filter (inRoom roomId) (messages db)))
    by apply arraySort_perm.
  split; [exact P|]. split.
  - apply (arraySort_ascending (fun d => messageCreatedAt (snd d))).
  - intro d. split.
    + intro H. apply (Permutation_in _ P) in H.
      apply filter_In in H. destruct H as [H R].
      split; [exact H | apply String.eqb_eq, R].
    + intros [H R]. apply (Permutation_in _ (Permutation_sym P)).
      apply filter_In. split; [exact H | apply String.eqb_eq, R].
Qed.

(** X12: a message sent with a later timestamp than every message of the
    room is appended to what [getMessages] returned before: messages sent
    one after the other are listed in the order they were sent. *)
Theorem sendMessage_appends (moderateContent : Moderator) (db : Db)
  (roomId sender body : string) (messageId : DocId) (tMessage tRoom : Z) :
  getDoc messageId (messages db) = None ->
  Forall (fun d => messageCreatedAt (snd d) < tMessage)
         (getMessages roomId db) ->
  getMessages roomId
    (snd (sendMessage moderateContent roomId sender body messageId tMessage
            tRoom db))
  = getMessages roomId db
    ++ [(messageId, {| chatRoomId := roomId; messageSenderId := sender;
                       text := body; messageCreatedAt := tMessage |})].
Proof.
  intros F L. unfold getMessages in *. rewrite sendMessage_messages.
  destruct (filter_setDoc_fresh (inRoom roomId) messageId
              {| chatRoomId := roomId; messageSenderId := sender;
                 text := body; messageCreatedAt := tMessage |}
              (messages db) F) as (l1 & l2 & E1 & E2).
  rewrite E2, E1 in *.
  unfold inRoom at 1. simpl. rewrite String.eqb_refl. simpl.
  apply (arraySort_latest_last (fun d => messageCreatedAt (snd d))).
  eapply Permutation_Forall; [apply arraySort_perm | exact L].
Qed.

Lemma sendMessage_appends_witness :
  map fst (getMessages "room1" Scenario.chatting) = ["msg1"; "msg2"].
Proof.
  unfold Scenario.chatting.
  rewrite (sendMessage_appends Scenario.allowAll
             (snd (sendMessage Scenario.allowAll "room1" "alice" "hi bob"
                     "msg1" 10 10 Scenario.accepted1))
             "room1" "bob" "welcome" "msg2" 11 11 eq_refl).
  - reflexivity.
  - vm_compute. repeat constructor.
Defined.

(** X13: sending a message to one room, under a new id, leaves the message
    list of every other room as it was. *)
Theorem sendMessage_other_rooms (moderateContent : Moderator) (db : Db)
  (roomId otherId sender body : string) (messageId : DocId)
  (tMessage tRoom : Z) :
  getDoc messageId (messages db) = None ->
  otherId <> roomId ->
  getMessages otherId
    (snd (sendMessage moderateContent roomId sender body messageId tMessage
            tRoom db))
  = getMessages otherId db.
Proof.
  intros F N. unfold getMessages. rewrite sendMessage_messages.
  destruct (filter_setDoc_fresh (inRoom otherId) messageId
              {| chatRoomId := roomId; messageSenderId := sender;
                 text := body; messageCreatedAt := tMessage |}
              (messages db) F) as (l1 & l2 & E1 & E2).
  rewrite E2, E1. unfold inRoom at 1. simpl.
  assert (K : (roomId =? otherId)%string = false).
  { apply String.eqb_neq. intro E. apply N. symmetry. exact E. }
  rewrite K. reflexivity.
Qed.

Lemma sendMessage_other_rooms_witness :
  getMessages "room9" Scenario.chatting = getMessages "room9" Scenario.accepted1.
Proof.
  unfold Scenario.chatting.
  rewrite (sendMessage_other_rooms Scenario.allowAll
             (snd (sendMessage Scenario.allowAll "room1" "alice" "hi bob"
                     "msg1" 10 10 Scenario.accepted1))
             "room1" "room9" "bob" "welcome" "msg2" 11 11 eq_refl);
    [|discriminate].
  apply (sendMessage_other_rooms Scenario.allowAll Scenario.accepted1 "room1"
           "room9" "alice" "hi bob" "msg1" 10 10 eq_refl).
  discriminate.
Defined.

(** X14: a message sent to a chat room that does not exist is stored all the
    same, and only then the call fails, with the store's not-found error for
    the room update; the stored message stays (nothing is rolled back) and
    [getMessages] lists it. *)
Theorem sendMessage_missing_room (moderateContent : Moderator) (db : Db)
  (roomId sender body : string) (messageId : DocId) (tMessage tRoom : Z) :
  getDoc roomId (chatRooms db) = None ->
  let message := {| chatRoomId := roomId; messageSenderId := sender;
                    text := body; messageCreatedAt := tMessage |} in
  sendMessage moderateContent roomId sender body messageId tMessage tRoom db
  = (Throw (FirebaseError "not-found"),
     withMessages db (setDoc messageId message (messages db)))
  /\ In (messageId, message)
        (getMessages roomId
           (snd (sendMessage moderateContent roomId sender body messageId
                   tMessage tRoom db))).
Proof.
  intros H message. split.
  - unfold sendMessage, bindOp, lift, writes, updateChatRoom.
    rewrite moderateChatMessage_never_throws. simpl.
    rewrite (updateDoc_missing _ _ _ H). reflexivity.
  - unfold getMessages. rewrite sendMessage_messages.
    apply (Permutation_in _ (Permutation_sym (arraySort_perm _ _))).
    apply filter_In. split; [apply setDoc_In|].
    unfold inRoom. simpl. apply String.eqb_refl.
Qed.

Lemma sendMessage_missing_room_witness :
  fst (sendMessage Scenario.allowAll "nowhere" "alice" "hello?" "msg9" 7 7
         Scenario.campus)
  = Throw (FirebaseError "not-found")
  /\ map fst
       (getMessages "nowhere"
          (snd (sendMessage Scenario.allowAll "nowhere" "alice" "hello?"
                  "msg9" 7 7 Scenario.campus)))
     = ["msg9"].
Proof.
  split; [|reflexivity].
  destruct (sendMessage_missing_room Scenario.allowAll Scenario.campus
              "nowhere" "alice" "hello?" "msg9" 7 7 eq_refl) as [E _].
  rewrite E. reflexivity.
Defined.

(** X15: a message sent to an existing room returns normally and moves that
    room's [lastMessageAt] to the time of the room update; the room's
    participants and creation time, every other room, and all requests stay
    as they were. *)
Theorem sendMessage_touches_room (moderateContent : Moderator) (db : Db)
  (roomId sender body : string) (messageId : DocId) (tMessage tRoom : Z)
  (room : ChatRoom) :
  getDoc roomId (chatRooms db) = Some room ->
  exists db',
    sendMessage moderateContent roomId sender body messageId tMessage tRoom db
    = (Ok tt, db')
    /\ getDoc roomId (chatRooms db')
       = Some {| participants := participants room;
                 userIds := userIds room;
                 roomCreatedAt := roomCreatedAt room;
                 lastMessageAt := tRoom |}
    /\ (forall id, id <> roomId ->
        getDoc id (chatRooms db') = getDoc id (chatRooms db))
    /\ List.length (chatRooms db') = List.length (chatRooms db)
    /\ mentorRequests db' = mentorRequests db.
Proof.
  intro H.
  destruct (updateDoc_found roomId (touchRoom tRoom) room _ H)
    as (rooms' & U & G & O & L).
  eexists. split.
  - unfold sendMessage, bindOp, lift, writes, updateChatRoom.
    rewrite moderateChatMessage_never_throws. simpl. rewrite U. reflexivity.
  - simpl. split; [exact G|]. split; [exact O|]. split; [exact L|].
    reflexivity.
Qed.

Lemma sendMessage_touches_room_witness :
  option_map lastMessageAt (getDoc "room1" (chatRooms Scenario.chatting))
  = Some 11.
Proof.
  unfold Scenario.chatting.
  destruct (sendMessage_touches_room Scenario.allowAll
              (snd (sendMessage Scenario.allowAll "room1" "alice" "hi bob"
                      "msg1" 10 10 Scenario.accepted1))
              "room1" "bob" "welcome" "msg2" 11 11
              {| participants := ["alice"; "bob"]; userIds := ["alice"; "bob"];
                 roomCreatedAt := 2; lastMessageAt := 10 |} eq_refl)
    as (db' & E & G & _).
  rewrite E. simpl. rewrite G. reflexivity.
Defined.

(** X16: through the chat screen no blank message reaches the store: a blank
    input, or any input while a send is under way, changes nothing;
    otherwise the text stored is the input without its surrounding white
    space, which is not empty. *)
Theorem handleSend_trims (moderateContent : Moderator) (db : Db)
  (chatId uid newMessage : string) (sending : bool) (messageId : DocId)
  (tMessage tRoom : Z) :
  let db' := handleSend moderateContent chatId uid newMessage sending
               messageId tMessage tRoom db in
  (sending = true \/ JsString.trim newMessage = "" -> db' = db)
  /\ (sending = false -> JsString.trim newMessage <> "" ->
      messages db'
      = setDoc messageId
          {| chatRoomId := chatId; messageSenderId := uid;
             text := JsString.trim newMessage; messageCreatedAt := tMessage |}
          (messages db)
      /\ JsString.trim (JsString.trim newMessage) = JsString.trim newMessage).
Proof.
  intro db'. subst db'. unfold handleSend, nonEmpty. split.
  - intros [-> | ->].
    + rewrite orb_true_r. reflexivity.
    + reflexivity.
  - intros -> N. apply String.eqb_neq in N. rewrite N. simpl.
    split; [apply sendMessage_messages | apply trim_idempotent].
Qed.

Lemma handleSend_trims_witness :
  handleSend Scenario.allowAll "room1" "alice" "   " false "msg3" 30 30
             Scenario.chatting
  = Scenario.chatting
  /\ option_map text
       (getDoc "msg3"
          (messages (handleSend Scenario.allowAll "room1" "alice" "  bye  "
                       false "msg3" 30 30 Scenario.chatting)))
     = Some "bye".
Proof.
  destruct (handleSend_trims Scenario.allowAll Scenario.chatting "room1"
              "alice" "   " false "msg3" 30 30) as [H _].
  split; [apply H; right; reflexivity|].
  destruct (handleSend_trims Scenario.allowAll Scenario.chatting "room1"
              "alice" "  bye  " false "msg3" 30 30) as [_ K].
  destruct (K eq_refl) as [M _]; [discriminate|].
  rewrite M. reflexivity.
Defined.

(** ** Listings *)

(** X17: [getMentorRequests] never throws.  When the query is rejected it
    returns the empty list; otherwise it returns exactly the requests whose
    receiver (for the type "received") or sender (for every other type) is
    the user, newest first. *)
Theorem getMentorRequests_spec (fault : option Exn) (db : Db)
  (userId type : string) :
  exists l,
    getMentorRequests fault db userId type = Ok l
    /\ (fault <> None -> l = [])
    /\ (fault = None ->
        Permutation l
          (filter (fun d => (requestField type (snd d) =? userId)%string)
                  (mentorRequests db))
        /\ StronglySorted
             (fun a b => createdAt (snd b) <= createdAt (snd a)) l
        /\ Forall (fun d => if (type =? "received")%string
                            then receiverId (snd d) = userId
                            else senderId (snd d) = userId) l).
Proof.
  unfold getMentorRequests, answer. destruct fault as [e|]; simpl.
  - exists []. split; [reflexivity|]. split; [reflexivity | discriminate].
  - eexists. split; [reflexivity|]. split; [intro H; contradiction|].
    intros _.
    assert (P : Permutation
                  (arraySort (newestFirst (fun d => createdAt (snd d)))
                     (filter (fun d : DocId * MentorRequest =>
                                (requestField type (snd d) =? userId)%string)
                             (mentorRequests db)))
                  (filter (fun d : DocId * MentorRequest =>
                             (requestField type (snd d) =? userId)%string)
                          (mentorRequests db)))
      by apply arraySort_perm.
    split; [exact P|]. split.
    + apply (arraySort_newestFirst (fun d : DocId * MentorRequest =>
                                      createdAt (snd d))).
    + apply Forall_forall. intros d Hd.
      apply (Permutation_in _ P) in Hd. apply filter_In in Hd.
      destruct Hd as [_ Hd]. apply String.eqb_eq in Hd.
      unfold requestField in Hd.
      destruct (type =? "received")%string; exact Hd.
Qed.

Lemma getMentorRequests_spec_witness :
  option_map (map fst)
    (match getMentorRequests None Scenario.requestedAgain "bob" "received" with
     | Ok l => Some l
     | Throw _ => None
     end)
  = Some ["req2"; "req1"]
  /\ exists l,
       getMentorRequests None Scenario.requestedAgain "bob" "received" = Ok l
       /\ StronglySorted (fun a b => createdAt (snd b) <= createdAt (snd a)) l.
Proof.
  split; [reflexivity|].
  destruct (getMentorRequests_spec None Scenario.requestedAgain "bob"
              "received") as (l & E & _ & H).
  exists l. split; [exact E|].
  exact (proj1 (proj2 (H eq_refl))).
Defined.

Lemma sendMentorRequest_returns (moderateContent : Moderator) (db db1 : Db)
  (fromUserId toUserId message : string) (newId id : DocId) (now : Z)
  (request : MentorRequest) :
  sendMentorRequest moderateContent fromUserId toUserId message newId now db
  = (Ok (id, request), db1) ->
  id = newId
  /\ request = {| senderId := fromUserId; receiverId := toUserId;
                  message := message; status := pending; createdAt := now;
                  respondedAt := None |}
  /\ db1 = withMentorRequests db (setDoc newId request (mentorRequests db)).
Proof.
  unfold sendMentorRequest, bindOp, lift, reads, writes, ret.
  destruct (if nonEmpty message then _ else _) as [[]|e]; [|discriminate].
  destruct (requestsBetween fromUserId toUserId db) as [|[i ex] others].
  - intro H. inversion H; subst. repeat split.
  - destruct (isActive (status ex)); [discriminate|].
    intro H. inversion H; subst. repeat split.
Qed.

(** X18: a request that [sendMentorRequest] has returned is listed for its
    sender among the sent requests and for its receiver among the received
    ones. *)
Theorem sendMentorRequest_listed (moderateContent : Moderator) (db db1 : Db)
  (fromUserId toUserId message : string) (newId id : DocId) (now : Z)
  (request : MentorRequest) :
  sendMentorRequest moderateContent fromUserId toUserId message newId now db
  = (Ok (id, request), db1) ->
  exists sent received,
    getMentorRequests None db1 fromUserId "sent" = Ok sent
    /\ In (id, request) sent
    /\ getMentorRequests None db1 toUserId "received" = Ok received
    /\ In (id, request) received.
Proof.
  intro H. destruct (sendMentorRequest_returns _ _ _ _ _ _ _ _ _ _ H)
    as (-> & R & ->).
  unfold getMentorRequests, answer. simpl.
  do 2 eexists. split; [reflexivity|]. split; [|split; [reflexivity|]].
  - apply (Permutation_in _ (Permutation_sym (arraySort_perm _ _))).
    apply filter_In. split; [apply setDoc_In|].
    subst request. simpl. apply String.eqb_refl.
  - apply (Permutation_in _ (Permutation_sym (arraySort_perm _ _))).
    apply filter_In. split; [apply setDoc_In|].
    subst request. simpl. apply String.eqb_refl.
Qed.

Lemma sendMentorRequest_listed_witness :
  exists received,
    getMentorRequests None Scenario.requested "bob" "received" = Ok received
    /\ map fst received = ["req1"].
Proof.
  destruct (sendMentorRequest_listed Scenario.allowAll Scenario.campus
              Scenario.requested "alice" "bob" "hello" "req1" "req1" 1
              {| senderId := "alice"; receiverId := "bob"; message := "hello";
                 status := pending; createdAt := 1; respondedAt := None |}
              eq_refl) as (sent & received & _ & _ & E & _).
  exists received. split; [exact E|].
  vm_compute in E. inversion E. reflexivity.
Defined.

(** X19: [getChatRooms] never throws.  When the query is rejected it returns
    the empty list; otherwise it returns exactly the rooms that have the user
    among their participants, the most recently used first. *)
Theorem getChatRooms_spec (fault : option Exn) (db : Db) (userId : string) :
  exists l,
    getChatRooms fault db userId = Ok l
    /\ (fault <> None -> l = [])
    /\ (fault = None ->
        Permutation l (filter (isParticipant userId) (chatRooms db))
        /\ StronglySorted
             (fun a b => lastMessageAt (snd b) <= lastMessageAt (snd a)) l
        /\ Forall (fun d => In userId (participants (snd d))) l).
Proof.
  unfold getChatRooms, answer. destruct fault as [e|]; simpl.
  - exists []. split; [reflexivity|]. split; [reflexivity | discriminate].
  - eexists. split; [reflexivity|]. split; [intro H; contradiction|].
    intros _.
    assert (P : Permutation
                  (arraySort (newestFirst (fun d => lastMessageAt (snd d)))
                     (filter (isParticipant userId) (chatRooms db)))
                  (filter (isParticipant userId) (chatRooms db)))
      by apply arraySort_perm.
    split; [exact P|]. split.
    + apply (arraySort_newestFirst (fun d : DocId * ChatRoom =>
                                      lastMessageAt (snd d))).
    + apply Forall_forall. intros d Hd.
      apply (Permutation_in _ P) in Hd. apply filter_In in Hd.
      destruct Hd as [_ Hd]. unfold isParticipant in Hd.
      apply existsb_exists in Hd. destruct Hd as (u & Hu & E).
      apply String.eqb_eq in E. subst u. exact Hu.
Qed.

Lemma getChatRooms_spec_witness :
  exists l,
    getChatRooms None Scenario.chatting "bob" = Ok l
    /\ Forall (fun d => In "bob" (participants (snd d))) l.
Proof.
  destruct (getChatRooms_spec None Scenario.chatting "bob")
    as (l & E & _ & H).
  exists l. split; [exact E|]. exact (proj2 (proj2 (H eq_refl))).
Defined.

(** X20: once a request is accepted, the chat room created for it is listed
    by [getChatRooms] for the sender of the request and for its receiver. *)
Theorem accepted_room_listed (db : Db) (requestId : DocId)
  (r : MentorRequest) (tResponded : Z) (roomId : DocId) (tRoom : Z) :
  getDoc requestId (mentorRequests db) = Some r ->
  let db' := snd (respondToMentorRequest requestId true tResponded roomId
                    tRoom db) in
  forall u, u = senderId r \/ u = receiverId r ->
    exists rooms,
      getChatRooms None db' u = Ok rooms /\ In roomId (map fst rooms).
Proof.
  intros H db' u Hu. subst db'.
  destruct (respondToMentorRequest_found db requestId r true tResponded
              roomId tRoom H) as (requests' & _ & _ & E).
  rewrite E. unfold getChatRooms, answer. simpl.
  eexists. split; [reflexivity|].
  apply in_map_iff.
  exists (roomId, {| participants := [senderId r; receiverId r];
                     userIds := [senderId r; receiverId r];
                     roomCreatedAt := tRoom; lastMessageAt := tRoom |}).
  split; [reflexivity|].
  apply (Permutation_in _ (Permutation_sym (arraySort_perm _ _))).
  apply filter_In. split; [apply setDoc_In|].
  unfold isParticipant. simpl.
  destruct Hu as [-> | ->]; rewrite String.eqb_refl; simpl;
    [reflexivity | apply orb_true_r].
Qed.

Lemma accepted_room_listed_witness :
  exists rooms,
    getChatRooms None Scenario.accepted1 "alice" = Ok rooms
    /\ In "room1" (map fst rooms).
Proof.
  apply (accepted_room_listed Scenario.requested "req1"
           {| senderId := "alice"; receiverId := "bob"; message := "hello";
              status := pending; createdAt := 1; respondedAt := None |}
           2 "room1" 2 eq_refl "alice").
  left. reflexivity.
Defined.

(** ** Request statistics *)

Lemma length_filter_Permutation {A : Type} (p : A -> bool) (l l' : list A) :
  Permutation l l' ->
  List.length (filter p l) = List.length (filter p l').
Proof.
  induction 1 as [|x l l' _ IH|x y l|l l' l'' _ IH1 _ IH2]; simpl.
  - reflexivity.
  - destruct (p x); simpl; rewrite IH; reflexivity.
  - destruct (p x), (p y); reflexivity.
  - rewrite IH1. exact IH2.
Qed.

Lemma orderByDesc_perm {A : Type} (time : A -> Z) (c : Collection A) :
  Permutation (orderByDesc time c) c.
Proof.
  unfold orderByDesc.
  apply perm_trans with (arraySort (fun a b => time (snd a) - time (snd b)) c).
  - apply Permutation_sym, Permutation_rev.
  - apply arraySort_perm.
Qed.

Lemma countStatus_store (s : RequestStatus) (db : Db) :
  countStatus s (getAllMentorRequestsForAdmin db)
  = List.length (filter (fun d => statusEqb (status (snd d)) s)
                        (mentorRequests db)).
Proof.
  unfold countStatus, getAllMentorRequestsForAdmin.
  rewrite <- (length_filter_Permutation _ _ _
                (orderByDesc_perm createdAt (mentorRequests db))).
  induction (orderByDesc createdAt (mentorRequests db)) as [|d l IH]; simpl.
  - reflexivity.
  - destruct (statusEqb (status (snd d)) s); simpl; rewrite IH; reflexivity.
Qed.

Lemma count_three_statuses (c : Collection MentorRequest) :
  List.length c
  = (List.length (filter (fun d => statusEqb (status (snd d)) pending) c)
     + List.length (filter (fun d => statusEqb (status (snd d)) accepted) c)
     + List.length (filter (fun d => statusEqb (status (snd d)) rejected) c))%nat.
Proof.
  induction c as [|d c IH]; simpl.
  - reflexivity.
  - destruct (status (snd d)); simpl; lia.
Qed.

(** X21: the request statistics count every stored request exactly once:
    the total is the number of stored requests, and it is the sum of the
    pending, accepted and rejected counts. *)
Theorem getMentorRequestStats_total (db : Db) :
  statsTotal (getMentorRequestStats db) = List.length (mentorRequests db)
  /\ statsTotal (getMentorRequestStats db)
     = (statsPending (getMentorRequestStats db)
        + statsAccepted (getMentorRequestStats db)
        + statsRejected (getMentorRequestStats db))%nat.
Proof.
  unfold getMentorRequestStats. simpl.
  assert (T : List.length (getAllMentorRequestsForAdmin db)
              = List.length (mentorRequests db)).
  { unfold getAllMentorRequestsForAdmin. rewrite length_map.
    apply Permutation_length, orderByDesc_perm. }
  split; [exact T|].
  rewrite T, !countStatus_store. apply count_three_statuses.
Qed.

Lemma updateDoc_split {A : Type} (id : DocId) (f : A -> A) (a : A)
  (c : Collection A) :
  getDoc id c = Some a ->
  exists l1 l2,
    c = l1 ++ (id, a) :: l2
    /\ updateDoc id f c = Some (l1 ++ (id, f a) :: l2).
Proof.
  induction c as [|[id' a'] c IH]; simpl; intro H.
  - discriminate H.
  - destruct (id =? id')%string eqn:E.
    + apply String.eqb_eq in E. subst id'. inversion H; subst a'.
      exists [], c. split; reflexivity.
    + destruct (IH H) as (l1 & l2 & -> & U). rewrite U.
      exists ((id', a') :: l1), l2. split; reflexivity.
Qed.

(** X22: a response to a pending request moves exactly one request in the
    statistics: the total stays, the pending count drops by one, and the
    accepted count (on acceptance) or the rejected count (otherwise) rises
    by one. *)
Theorem respondToMentorRequest_stats (db : Db) (requestId : DocId)
  (r : MentorRequest) (accept : bool) (tResponded : Z) (roomId : DocId)
  (tRoom : Z) :
  getDoc requestId (mentorRequests db) = Some r ->
  status r = pending ->
  let before := getMentorRequestStats db in
  let after :=
    getMentorRequestStats
      (snd (respondToMentorRequest requestId accept tResponded roomId tRoom
              db)) in
  statsTotal after = statsTotal before
  /\ S (statsPending after) = statsPending before
  /\ statsAccepted after
     = (if accept then S (statsAccepted before) else statsAccepted before)
  /\ statsRejected after
     = (if accept then statsRejected before else S (statsRejected before)).
Proof.
  intros H P before after. subst before after.
  destruct (updateDoc_split requestId (respond accept tResponded) r _ H)
    as (l1 & l2 & C & U).
  destruct (respondToMentorRequest_found db requestId r accept tResponded
              roomId tRoom H) as (requests' & U' & _ & E).
  rewrite U in U'. inversion U'; subst requests'. rewrite E.
  assert (M : mentorRequests
                (if accept
                 then withChatRooms
                        (withMentorRequests db
                           (l1 ++ (requestId, respond accept tResponded r) :: l2))
                        (setDoc roomId
                           {| participants := [senderId r; receiverId r];
                              userIds := [senderId r; receiverId r];
                              roomCreatedAt := tRoom;
                              lastMessageAt := tRoom |} (chatRooms db))
                 else withMentorRequests db
                        (l1 ++ (requestId, respond accept tResponded r) :: l2))
              = l1 ++ (requestId, respond accept tResponded r) :: l2)
    by (destruct accept; reflexivity).
  unfold getMentorRequestStats. simpl.
  rewrite !countStatus_store, M, C.
  unfold getAllMentorRequestsForAdmin.
  rewrite !length_map.
  rewrite !(Permutation_length (orderByDesc_perm createdAt _)), M, C.
  rewrite !filter_app, !length_app. simpl. rewrite P.
  destruct accept; simpl; rewrite ?length_app; simpl; repeat split; lia.
Qed.

Lemma respondToMentorRequest_stats_witness :
  getMentorRequestStats Scenario.requested
  = {| statsTotal := 1; statsPending := 1; statsAccepted := 0;
       statsRejected := 0 |}
  /\ statsAccepted (getMentorRequestStats Scenario.accepted1) = 1%nat.
Proof.
  split; [reflexivity|].
  destruct (respondToMentorRequest_stats Scenario.requested "req1"
              {| senderId := "alice"; receiverId := "bob"; message := "hello";
                 status := pending; createdAt := 1; respondedAt := None |}
              true 2 "room1" 2 eq_refl eq_refl) as (_ & _ & A & _).
  exact A.
Defined.

(** ** Issues *)

Lemma moderateIssue_never_throws (moderateContent : Moderator)
  (description : string) :
  moderateIssue moderateContent description = Ok tt.
Proof.
  unfold moderateIssue, tryCatch, bindR.
  destruct (moderateContent description "issue") as [m|e]; [|reflexivity].
  destruct (safe m); reflexivity.
Qed.

(** What [createIssue] returns and writes. *)
Lemma createIssue_returns (moderateContent : Moderator)
  (categorizeIssue : Categorizer) (imageUpload : option (Result string))
  (issueData : IssueData) (newId : DocId) (now clientNow : Z)
  (issues : Collection Issue) :
  exists issue,
    createIssue moderateContent categorizeIssue imageUpload issueData newId
                now clientNow issues
    = (Ok (newId, issue), setDoc newId issue issues)
    /\ issueStatus issue = "Open"
    /\ issueDescription issue = dataDescription issueData
    /\ reportedBy issue
       = (if dataIsAnonymous issueData then None else dataUserId issueData)
    /\ (imageUpload = None -> imageUrl issue = None).
Proof.
  unfold createIssue. rewrite moderateIssue_never_throws.
  eexists. split; [reflexivity|]. simpl.
  repeat split. intros ->. reflexivity.
Qed.

(** X23: [createIssue] is never stopped by its collaborators: whatever the
    moderation service, the categorizer and the image upload answer (an
    unsafe verdict and errors included), it returns the new issue and has
    stored it: open, with the description as given, both timestamps at the
    write time, a history of the single entry "Open", and no reporter when
    the issue is anonymous. *)
Theorem createIssue_always_creates (moderateContent : Moderator)
  (categorizeIssue : Categorizer) (imageUpload : option (Result string))
  (issueData : IssueData) (newId : DocId) (now clientNow : Z)
  (issues : Collection Issue) :
  exists issue,
    createIssue moderateContent categorizeIssue imageUpload issueData newId
                now clientNow issues
    = (Ok (newId, issue), setDoc newId issue issues)
    /\ getDoc newId (setDoc newId issue issues) = Some issue
    /\ issueStatus issue = "Open"
    /\ issueDescription issue = dataDescription issueData
    /\ (issueCreatedAt issue, issueUpdatedAt issue) = (now, now)
    /\ statusHistory issue
       = [ {| entryStatus := "Open"; entryTimestamp := clientNow;
              entryNote := "Issue reported"; entryUpdatedBy := None |} ]
    /\ reportedBy issue
       = (if dataIsAnonymous issueData then None else dataUserId issueData)
    /\ (imageUpload = None -> imageUrl issue = None)
    /\ (forall e, imageUpload = Some (Throw e) -> imageUrl issue = None)
    /\ (forall url, imageUpload = Some (Ok url) -> imageUrl issue = Some url).
Proof.
  unfold createIssue. rewrite moderateIssue_never_throws.
  eexists. split; [reflexivity|].
  split; [apply getDoc_setDoc_same|].
  simpl. repeat split; intros; subst; reflexivity.
Qed.

Lemma createIssue_always_creates_witness :
  exists issue,
    fst (createIssue Scenario.rejectAll
           (fun _ => Throw (FirebaseError "unavailable"))
           (Some (Throw (FirebaseError "storage/unauthorized")))
           {| dataCategory := "Safety"; dataDescription := "Broken door lock";
              dataIsAnonymous := true; dataUserId := Some "alice" |}
           "issue1" 5 5 [])
    = Ok ("issue1", issue)
    /\ reportedBy issue = None
    /\ issuePriority issue = "Medium".
Proof.
  destruct (createIssue_always_creates Scenario.rejectAll
              (fun _ => Throw (FirebaseError "unavailable"))
              (Some (Throw (FirebaseError "storage/unauthorized")))
              {| dataCategory := "Safety"; dataDescription := "Broken door lock";
                 dataIsAnonymous := true; dataUserId := Some "alice" |}
              "issue1" 5 5 []) as (issue & E & _ & _ & _ & _ & _ & R & _).
  exists issue. rewrite E. split; [reflexivity|]. split; [exact R|].
  vm_compute in E. inversion E. reflexivity.
Defined.

Lemma setDoc_fresh_In {A : Type} (id : DocId) (a : A) (c : Collection A)
  (d : DocId * A) :
  getDoc id c = None ->
  In d (setDoc id a c) -> d = (id, a) \/ (In d c /\ fst d <> id).
Proof.
  intros F H.
  apply (Permutation_in _ (setDoc_fresh id a c F)) in H.
  destruct H as [H|H]; [left; symmetry; exact H | right].
  split; [exact H|]. intro E.
  apply (getDoc_none_not_listed id c F). rewrite <- E. apply in_map, H.
Qed.

Lemma In_applyLimit {A : Type} (limit : option nat) (l : list A) (x : A) :
  In x (applyLimit limit l) -> In x l.
Proof.
  destruct limit as [[|n]|]; simpl; auto.
  destruct l as [|y l]; simpl; [tauto|].
  intros [H|H]; [left; exact H | right; apply (In_firstn n), H].
Qed.

Lemma noConstraints_matches (filters : IssueFilters) (d : DocId * Issue) :
  noConstraints filters = true -> issueMatches filters d = true.
Proof.
  unfold noConstraints, issueMatches, whereEq, whereReportedBy.
  destruct (truthy (filterCategory filters)),
           (truthy (filterStatus filters)),
           (truthy (filterPriority filters)),
           (truthy (filterUserId filters)); simpl; try discriminate.
  reflexivity.
Qed.

(** What the query of [getIssues] selects, before the limit. *)
Lemma getIssues_In (filters : IssueFilters) (issues : Collection Issue)
  (d : DocId * Issue) :
  In d (getIssues filters issues) ->
  In d issues /\ issueMatches filters d = true.
Proof.
  unfold getIssues. intro H.
  apply (Permutation_in _ (arraySort_perm _ _)) in H.
  apply In_applyLimit in H.
  destruct (noConstraints filters) eqn:N.
  - apply (Permutation_in _ (orderByDesc_perm _ _)) in H.
    split; [exact H | apply noConstraints_matches, N].
  - apply filter_In in H. exact H.
Qed.

(** X24: an issue reported anonymously is stored without its reporter, so
    no listing filtered by a user id ever contains it, not even the
    listing of the user who reported it; an issue reported by name is found
    by the unlimited listing of its reporter. *)
Theorem anonymous_issue_unlisted (moderateContent : Moderator)
  (categorizeIssue : Categorizer) (imageUpload : option (Result string))
  (issueData : IssueData) (newId : DocId) (now clientNow : Z)
  (issues : Collection Issue) :
  getDoc newId issues = None ->
  let issues' := snd (createIssue moderateContent categorizeIssue imageUpload
                        issueData newId now clientNow issues) in
  (dataIsAnonymous issueData = true ->
   forall filters,
     truthy (filterUserId filters) <> None ->
     ~ In newId (map fst (getIssues filters issues')))
  /\ (forall u,
        dataIsAnonymous issueData = false ->
        dataUserId issueData = Some u ->
        nonEmpty u = true ->
        In newId
           (map fst
              (getIssues (mkIssueFilters None None None (Some u) None)
                         issues'))).
Proof.
  intros F issues'.
  destruct (createIssue_returns moderateContent categorizeIssue
              imageUpload issueData newId now clientNow issues)
    as (issue & E & _ & _ & R & _).
  subst issues'. rewrite E. simpl. split.
  - intros A filters T H.
    apply in_map_iff in H. destruct H as (d & Hd & H).
    apply getIssues_In in H. destruct H as [H M].
    apply (setDoc_fresh_In _ _ _ _ F) in H.
    destruct H as [-> | [_ N]]; [|contradiction].
    unfold issueMatches, whereReportedBy in M. simpl in M.
    rewrite R, A in M.
    destruct (truthy (filterUserId filters)); [|contradiction].
    rewrite andb_false_r in M. discriminate M.
  - intros u A U N.
    apply in_map_iff. exists (newId, issue). split; [reflexivity|].
    unfold getIssues, noConstraints. simpl. rewrite N. simpl.
    apply (Permutation_in _ (Permutation_sym (arraySort_perm _ _))).
    apply filter_In. split; [apply setDoc_In|].
    unfold issueMatches, whereEq, whereReportedBy. simpl.
    rewrite N, R, A, U. apply String.eqb_refl.
Qed.

Lemma anonymous_issue_unlisted_witness :
  getIssues (mkIssueFilters None None None (Some "alice") (Some 20%nat))
    (snd (createIssue Scenario.allowAll
            (fun _ => Throw (FirebaseError "unavailable")) None
            {| dataCategory := "Safety"; dataDescription := "Broken door lock";
               dataIsAnonymous := true; dataUserId := Some "alice" |}
            "issue1" 5 5 []))
  = []
  /\ ~ In "issue1"
       (map fst
          (getIssues
             (mkIssueFilters None None None (Some "alice") (Some 20%nat))
             (snd (createIssue Scenario.allowAll
                     (fun _ => Throw (FirebaseError "unavailable")) None
                     {| dataCategory := "Safety";
                        dataDescription := "Broken door lock";
                        dataIsAnonymous := true; dataUserId := Some "alice" |}
                     "issue1" 5 5 [])))).
Proof.
  split; [reflexivity|].
  destruct (anonymous_issue_unlisted Scenario.allowAll
              (fun _ => Throw (FirebaseError "unavailable")) None
              {| dataCategory := "Safety"; dataDescription := "Broken door lock";
                 dataIsAnonymous := true; dataUserId := Some "alice" |}
              "issue1" 5 5 [] eq_refl) as [H _].
  apply (H eq_refl). discriminate.
Defined.

(** X25: [updateIssueStatus] fails with "Issue not found", writing nothing,
    when the issue does not exist; otherwise it sets the status to the given
    one, whatever it is, and extends the history by one entry at the end:
    the earlier entries are kept, in order.  Description, category, reporter
    and creation time are kept, and so is every other issue. *)
Theorem updateIssueStatus_spec (issueId : DocId) (newStatus : string)
  (note : option string) (adminEmail : string) (now clientNow : Z)
  (issues : Collection Issue) :
  (getDoc issueId issues = None ->
   updateIssueStatus issueId newStatus note adminEmail now clientNow issues
   = (Throw (Error "Issue not found"), issues))
  /\ (forall issue,
        getDoc issueId issues = Some issue ->
        exists issues' issue',
          updateIssueStatus issueId newStatus note adminEmail now clientNow
                            issues
          = (Ok tt, issues')
          /\ getDoc issueId issues' = Some issue'
          /\ issueStatus issue' = newStatus
          /\ issueUpdatedAt issue' = now
          /\ statusHistory issue'
             = statusHistory issue
               ++ [ {| entryStatus := newStatus;
                       entryTimestamp := clientNow;
                       entryNote := match note with
                                    | Some n => n
                                    | None => ""
                                    end;
                       entryUpdatedBy := Some adminEmail |} ]
          /\ (issueDescription issue', issueCategory issue',
              reportedBy issue', issueCreatedAt issue')
             = (issueDescription issue, issueCategory issue,
                reportedBy issue, issueCreatedAt issue)
          /\ (forall id, id <> issueId ->
              getDoc id issues' = getDoc id issues)
          /\ List.length issues' = List.length issues).
Proof.
  split.
  - intro H. unfold updateIssueStatus. rewrite H. reflexivity.
  - intros issue H. unfold updateIssueStatus. rewrite H.
    match goal with
    | |- context [updateDoc issueId ?f issues] =>
        destruct (updateDoc_found issueId f issue issues H)
          as (issues' & U & G & O & L)
    end.
    rewrite U. do 2 eexists. split; [reflexivity|].
    split; [exact G|]. simpl.
    repeat split; assumption.
Qed.

Lemma updateIssueStatus_spec_witness :
  option_map (fun i => map entryStatus (statusHistory i))
    (getDoc "issue1"
       (snd (updateIssueStatus "issue1" "Resolved" None "admin@campus" 9 9
               (snd (createIssue Scenario.allowAll
                       (fun _ => Throw (FirebaseError "unavailable")) None
                       {| dataCategory := "Safety";
                          dataDescription := "Broken door lock";
                          dataIsAnonymous := false;
                          dataUserId := Some "alice" |}
                       "issue1" 5 5 [])))))
  = Some ["Open"; "Resolved"]
  /\ updateIssueStatus "issue7" "Resolved" None "admin@campus" 9 9 []
     = (Throw (Error "Issue not found"), []).
Proof.
  split; [reflexivity|].
  apply (updateIssueStatus_spec "issue7" "Resolved" None "admin@campus" 9 9 []).
  reflexivity.
Defined.

Lemma filter_all {A : Type} (p : A -> bool) (l : list A) :
  (forall x, p x = true) -> filter p l = l.
Proof.
  intro H. induction l as [|x l IH]; simpl.
  - reflexivity.
  - rewrite H, IH. reflexivity.
Qed.

(** X26: [getIssues] returns issues of the store that satisfy every filter
    given, newest first; a positive limit bounds their number, and without a
    limit (or with the limit 0, which counts as none) all issues that satisfy
    the filters are returned. *)
Theorem getIssues_spec (filters : IssueFilters) (issues : Collection Issue) :
  StronglySorted
    (fun a b => issueCreatedAt (snd b) <= issueCreatedAt (snd a))
    (getIssues filters issues)
  /\ Forall (fun d => In d issues /\ issueMatches filters d = true)
            (getIssues filters issues)
  /\ (forall n, filterLimit filters = Some (S n) ->
      (List.length (getIssues filters issues) <= S n)%nat)
  /\ (filterLimit filters = None \/ filterLimit filters = Some O ->
      Permutation (getIssues filters issues)
                  (filter (issueMatches filters) issues)).
Proof.
  split; [|split; [|split]].
  - apply (arraySort_newestFirst (fun d : DocId * Issue =>
                                    issueCreatedAt (snd d))).
  - apply Forall_forall. intros d H. apply getIssues_In, H.
  - intros n L. unfold getIssues.
    rewrite (Permutation_length (arraySort_perm _ _)), L.
    apply (length_firstn_le (S n)).
  - intro L. unfold getIssues.
    apply perm_trans with
      (applyLimit (filterLimit filters)
         (if noConstraints filters then orderByDesc issueCreatedAt issues
          else filter (issueMatches filters) issues));
      [apply arraySort_perm|].
    assert (K : forall l : list (DocId * Issue),
                applyLimit (filterLimit filters) l = l)
      by (intro l; destruct L as [-> | ->]; reflexivity).
    rewrite K.
    destruct (noConstraints filters) eqn:N; [|apply Permutation_refl].
    rewrite (filter_all _ issues
               (fun d => noConstraints_matches filters d N)).
    apply orderByDesc_perm.
Qed.

Lemma getIssues_spec_witness :
  (List.length
     (getIssues (mkIssueFilters (Some "Safety") None None None (Some 1%nat))
        (snd (createIssue Scenario.allowAll
                (fun _ => Throw (FirebaseError "unavailable")) None
                {| dataCategory := "Safety";
                   dataDescription := "Broken door lock";
                   dataIsAnonymous := false; dataUserId := Some "alice" |}
                "issue1" 5 5 [])))
   <= 1)%nat.
Proof.
  apply (getIssues_spec
           (mkIssueFilters (Some "Safety") None None None (Some 1%nat))).
  reflexivity.
Defined.

Lemma countIssues_store (p : Issue -> bool) (issues : Collection Issue) :
  countIssues p (orderByDesc issueCreatedAt issues)
  = List.length (filter (fun d => p (snd d)) issues).
Proof.
  unfold countIssues.
  apply length_filter_Permutation, orderByDesc_perm.
Qed.

Lemma count_statuses_le (issues : Collection Issue) :
  (List.length (filter (fun d => hasStatus "Open" (snd d)) issues)
   + List.length (filter (fun d => hasStatus "In Review" (snd d)) issues)
   + List.length (filter (fun d => hasStatus "Resolved" (snd d)) issues)
   <= List.length issues)%nat.
Proof.
  unfold hasStatus. induction issues as [|d issues IH]; simpl.
  - lia.
  - destruct (String.eqb_spec (issueStatus (snd d)) "Open") as [O|O].
    + rewrite O. simpl. lia.
    + destruct (String.eqb_spec (issueStatus (snd d)) "In Review") as [R|R].
      * rewrite R. simpl. lia.
      * destruct (issueStatus (snd d) =? "Resolved")%string; simpl; lia.
Qed.

Lemma count_categories_le (issues : Collection Issue) :
  (List.length (filter (fun d => hasCategory "Safety" (snd d)) issues)
   + List.length (filter (fun d => hasCategory "Hygiene" (snd d)) issues)
   + List.length (filter (fun d => hasCategory "Infrastructure" (snd d)) issues)
   + List.length (filter (fun d => hasCategory "Canteen" (snd d)) issues)
   <= List.length issues)%nat.
Proof.
  unfold hasCategory. induction issues as [|d issues IH]; simpl.
  - lia.
  - destruct (String.eqb_spec (issueCategory (snd d)) "Safety") as [E|_];
      [rewrite E; simpl; lia|].
    destruct (String.eqb_spec (issueCategory (snd d)) "Hygiene") as [E|_];
      [rewrite E; simpl; lia|].
    destruct (String.eqb_spec (issueCategory (snd d)) "Infrastructure")
      as [E|_]; [rewrite E; simpl; lia|].
    destruct (issueCategory (snd d) =? "Canteen")%string; simpl; lia.
Qed.

Lemma count_priorities_le (issues : Collection Issue) :
  (List.length (filter (fun d => hasPriority "High" (snd d)) issues)
   + List.length (filter (fun d => hasPriority "Medium" (snd d)) issues)
   + List.length (filter (fun d => hasPriority "Low" (snd d)) issues)
   <= List.length issues)%nat.
Proof.
  unfold hasPriority. induction issues as [|d issues IH]; simpl.
  - lia.
  - destruct (String.eqb_spec (issuePriority (snd d)) "High") as [E|_];
      [rewrite E; simpl; lia|].
    destruct (String.eqb_spec (issuePriority (snd d)) "Medium") as [E|_];
      [rewrite E; simpl; lia|].
    destruct (issuePriority (snd d) =? "Low")%string; simpl; lia.
Qed.

(** X27: in the issue statistics the total is the number of stored issues,
    and neither the three status counts, nor the four category counts, nor
    the three priority counts add up to more than it (a status, category or
    priority can be any string); a newly created issue adds one to the total
    and one to the open count, and nothing to the in-review and resolved
    counts. *)
Theorem getIssueStats_spec (moderateContent : Moderator)
  (categorizeIssue : Categorizer) (imageUpload : option (Result string))
  (issueData : IssueData) (newId : DocId) (now clientNow : Z)
  (issues : Collection Issue) :
  let stats := getIssueStats issues in
  total stats = List.length issues
  /\ (open stats + inReview stats + resolved stats <= total stats)%nat
  /\ (safety (byCategory stats) + hygiene (byCategory stats)
      + infrastructure (byCategory stats) + canteen (byCategory stats)
      <= total stats)%nat
  /\ (high (byPriority stats) + medium (byPriority stats)
      + low (byPriority stats) <= total stats)%nat
  /\ (getDoc newId issues = None ->
      let after :=
        getIssueStats
          (snd (createIssue moderateContent categorizeIssue imageUpload
                  issueData newId now clientNow issues)) in
      total after = S (total stats)
      /\ open after = S (open stats)
      /\ inReview after = inReview stats
      /\ resolved after = resolved stats).
Proof.
  unfold getIssueStats. cbv zeta.
  cbn [total open inReview resolved byCategory byPriority safety hygiene
       infrastructure canteen high medium low].
  rewrite !countIssues_store.
  rewrite (Permutation_length (orderByDesc_perm issueCreatedAt issues)).
  split; [reflexivity|]. split; [apply count_statuses_le|].
  split; [apply count_categories_le|].
  split; [apply count_priorities_le|].
  intro F.
  destruct (createIssue_returns moderateContent categorizeIssue
              imageUpload issueData newId now clientNow issues)
    as (issue & E & S & _).
  rewrite E. cbn [snd].
  rewrite (Permutation_length (orderByDesc_perm issueCreatedAt _)).
  pose proof (setDoc_fresh newId issue issues F) as P.
  rewrite (Permutation_length P).
  rewrite !(length_filter_Permutation _ _ _ P).
  cbn [filter snd].
  assert (H1 : hasStatus "Open" issue = true)
    by (unfold hasStatus; rewrite S; reflexivity).
  assert (H2 : hasStatus "In Review" issue = false)
    by (unfold hasStatus; rewrite S; reflexivity).
  assert (H3 : hasStatus "Resolved" issue = false)
    by (unfold hasStatus; rewrite S; reflexivity).
  rewrite H1, H2, H3. repeat split.
Qed.

Lemma getIssueStats_spec_witness :
  let after :=
    getIssueStats
      (snd (createIssue Scenario.rejectAll
              (fun _ => Throw (FirebaseError "unavailable")) None
              {| dataCategory := "Safety";
                 dataDescription := "Broken door lock";
                 dataIsAnonymous := false; dataUserId := Some "alice" |}
              "issue1" 5 5 [])) in
  (total after, open after, safety (byCategory after),
   medium (byPriority after)) = (1, 1, 1, 1)%nat
  /\ total after = 1%nat.
Proof.
  split; [reflexivity|].
  destruct (getIssueStats_spec Scenario.rejectAll
              (fun _ => Throw (FirebaseError "unavailable")) None
              {| dataCategory := "Safety"; dataDescription := "Broken door lock";
                 dataIsAnonymous := false; dataUserId := Some "alice" |}
              "issue1" 5 5 []) as (_ & _ & _ & _ & H).
  exact (proj1 (H eq_refl)).
Defined.

(** A category chosen by the user is not replaced by the categorizer's. *)
Lemma createIssue_category (moderateContent : Moderator)
  (categorizeIssue : Categorizer) (imageUpload : option (Result string))
  (issueData : IssueData) (newId id : DocId) (now clientNow : Z)
  (issues issues' : Collection Issue) (issue : Issue) :
  nonEmpty (dataCategory issueData) = true ->
  createIssue moderateContent categorizeIssue imageUpload issueData newId now
              clientNow issues
  = (Ok (id, issue), issues') ->
  issueCategory issue = dataCategory issueData.
Proof.
  intro C. unfold createIssue. rewrite moderateIssue_never_throws.
  intro H. inversion H; subst. simpl. unfold orString. rewrite C.
  reflexivity.
Qed.

Lemma length_zero_empty (s : string) :
  (Z.of_nat (String.length s) =? 0) = false -> s <> "".
Proof. intros H E. subst s. discriminate H. Qed.

(** X28: the issue form submits nothing that fails its checks, and what it
    submits keeps the user's choices: an issue stored through the form has
    the category the user selected, which is not empty (the categorizer never
    overrides it), the description as typed, which is not blank and has at
    most 300 characters, and no image; when a check fails the call ends with
    its message and the store is unchanged. *)
Theorem handleSubmit_spec (moderateContent : Moderator)
  (categorizeIssue : Categorizer) (formData : IssueForm)
  (user : option string) (newId : DocId) (now clientNow : Z)
  (issues : Collection Issue) :
  (forall id issue issues',
     handleSubmit moderateContent categorizeIssue formData user newId now
                  clientNow issues
     = (Ok (id, issue), issues') ->
     issueCategory issue = formCategory formData
     /\ formCategory formData <> ""
     /\ issueDescription issue = formDescription formData
     /\ JsString.trim (formDescription formData) <> ""
     /\ (String.length (formDescription formData) <= 300)%nat
     /\ imageUrl issue = None
     /\ issues' = setDoc newId issue issues)
  /\ (forall e issues',
        handleSubmit moderateContent categorizeIssue formData user newId now
                     clientNow issues
        = (Throw e, issues') ->
        issues' = issues
        /\ (e = Error "Please select a category"
            \/ e = Error "Please enter a description"
            \/ e = Error "Description must be 300 characters or less")).
Proof.
  unfold handleSubmit.
  destruct (nonEmpty (formCategory formData)) eqn:C; simpl.
  2:{ split; [discriminate|].
      intros e issues' H. inversion H. split; [reflexivity | left; reflexivity]. }
  destruct (negb (nonEmpty (formDescription formData))
            || (Z.of_nat (String.length
                            (JsString.trim (formDescription formData))) =? 0))
    eqn:D.
  { split; [discriminate|].
    intros e issues' H. inversion H.
    split; [reflexivity | right; left; reflexivity]. }
  destruct (300 <? Z.of_nat (String.length (formDescription formData))) eqn:L.
  { split; [discriminate|].
    intros e issues' H. inversion H.
    split; [reflexivity | right; right; reflexivity]. }
  apply orb_false_iff in D. destruct D as [_ D].
  apply Z.ltb_ge in L.
  destruct (createIssue_returns moderateContent categorizeIssue None
              {| dataCategory := formCategory formData;
                 dataDescription := formDescription formData;
                 dataIsAnonymous := formIsAnonymous formData;
                 dataUserId := truthy user |} newId now clientNow issues)
    as (issue & E & _ & Hd & _ & Hi).
  rewrite E. split; [|discriminate].
  intros id issue' issues' H. inversion H; subst; clear H.
  split; [apply (createIssue_category _ _ _ _ _ _ _ _ _ _ _) with (2 := E);
          exact C|].
  split.
  { unfold nonEmpty in C. apply negb_true_iff, String.eqb_neq in C. exact C. }
  split; [exact Hd|]. split; [apply length_zero_empty, D|].
  split; [lia|]. split; [apply Hi; reflexivity | reflexivity].
Qed.

Lemma handleSubmit_spec_witness :
  handleSubmit Scenario.allowAll (fun _ => Throw (FirebaseError "unavailable"))
    {| formCategory := ""; formDescription := "Broken door lock";
       formIsAnonymous := false |} (Some "alice") "issue1" 5 5 []
  = (Throw (Error "Please select a category"), [])
  /\ forall issues',
       handleSubmit Scenario.allowAll
         (fun _ => Throw (FirebaseError "unavailable"))
         {| formCategory := "Safety"; formDescription := "   ";
            formIsAnonymous := false |} (Some "alice") "issue1" 5 5 []
       = (Throw (Error "Please enter a description"), issues') ->
       issues' = [].
Proof.
  split; [reflexivity|].
  intros issues' H.
  destruct (handleSubmit_spec Scenario.allowAll
              (fun _ => Throw (FirebaseError "unavailable"))
              {| formCategory := "Safety"; formDescription := "   ";
                 formIsAnonymous := false |} (Some "alice") "issue1" 5 5 [])
    as [_ K].
  exact (proj1 (K _ _ H)).
Defined.

(** ** Profiles *)

(** X29: a complete profile takes part in the matchmaking on both sides: it
    passes the candidate filter of [searchMentors], and a search of its owner
    without query and without explicit skills runs on the profile's own
    [skillsToLearn], which is not empty.  An absent profile is not
    complete. *)
Theorem isProfileComplete_searchable (p : Profile) (id : DocId) :
  isProfileComplete None = false
  /\ (isProfileComplete (Some p) = true ->
      hasSkills (id, p) = true
      /\ resolveSkills None None p = orEmpty (skillsToLearn p)
      /\ resolveSkills None None p <> []
      /\ bio p <> "").
Proof.
  split; [reflexivity|].
  unfold isProfileComplete, hasSkills, resolveSkills. simpl. intro H.
  repeat (apply andb_true_iff in H; destruct H as [H ?]).
  destruct (skillsHave p) as [h|]; [|discriminate].
  destruct (skillsToLearn p) as [l|]; [|discriminate]. simpl.
  split; [assumption|]. split; [reflexivity|]. split.
  - intro E. subst l. discriminate.
  - unfold nonEmpty in *.
    match goal with
    | B : negb (bio p =? "")%string = true |- _ =>
        apply negb_true_iff, String.eqb_neq in B; exact B
    end.
Qed.

Lemma isProfileComplete_searchable_witness :
  hasSkills ("bob", Scenario.bob) = true
  /\ resolveSkills None None Scenario.bob = [JsStr "Chess"].
Proof.
  destruct (isProfileComplete_searchable Scenario.bob "bob") as [_ H].
  destruct (H eq_refl) as (A & B & _).
  split; [exact A | rewrite B; reflexivity].
Defined.
